(** * YouFLAC: the queue, its persistence and the per-item pipeline

    A shallow embedding of the Go backend ([backend/queue_persistence.go],
    [backend/playlist.go], the pipeline runner [processItem] and
    [backend/audio_lucida.go]) together with the properties the design
    document states about them.

    Conventions.
    - Go [string] is [string]; Go [int]/[int64] is [Z] (every integer that
      occurs is a small literal or a length, far from the 64-bit bounds);
      Go [float64] durations are rationals [Q] (NaN and the infinities are
      not represented), [int(x)] truncates towards zero.
    - Go [error] is [option string]: [None] is [nil], [Some msg] carries the
      message prefix the code formats.
    - Calls that leave the process (file system, HTTP, subprocesses, the
      clock) are answered by an explicit record of oracles, and every such
      call is appended to a log, so that statements about what was or was
      not attempted are statements about that log. *)

From Stdlib Require Import ZArith QArith String List Lia.
From stdpp Require Import base strings list gmap pretty.

Local Open Scope Z_scope.
Local Open Scope string_scope.

(* ===================================================================== *)
(** * Data model *)
(* ===================================================================== *)

(** [type QueueStatus string] with its nine constants. *)
Definition QueueStatus := string.

Definition StatusPending          : QueueStatus := "pending".
Definition StatusFetchingInfo     : QueueStatus := "fetching_info".
Definition StatusDownloadingVideo : QueueStatus := "downloading_video".
Definition StatusDownloadingAudio : QueueStatus := "downloading_audio".
Definition StatusMuxing           : QueueStatus := "muxing".
Definition StatusOrganizing       : QueueStatus := "organizing".
Definition StatusComplete         : QueueStatus := "complete".
Definition StatusError            : QueueStatus := "error".
Definition StatusCancelled        : QueueStatus := "cancelled".

Definition defined_statuses : list QueueStatus :=
  [StatusPending; StatusFetchingInfo; StatusDownloadingVideo;
   StatusDownloadingAudio; StatusMuxing; StatusOrganizing;
   StatusComplete; StatusError; StatusCancelled].

(** The five statuses a worker holds an item in. *)
Definition in_flight (s : QueueStatus) : bool :=
  (s =? StatusFetchingInfo) || (s =? StatusDownloadingVideo)
  || (s =? StatusDownloadingAudio) || (s =? StatusMuxing)
  || (s =? StatusOrganizing).

Definition terminal (s : QueueStatus) : bool :=
  (s =? StatusComplete) || (s =? StatusError) || (s =? StatusCancelled).

Record AudioCandidate := {
  cand_Platform : string;
  cand_URL      : string;
  cand_Title    : string;
  cand_Artist   : string;
  cand_Album    : string;
  cand_Duration : Q;
  cand_ISRC     : string;
  cand_Quality  : string;
  cand_Priority : Z
}.

Record MatchDiagnostics := {
  diag_SourcesTried  : list string;
  diag_FailureReason : string;
  diag_BestScore     : Q
}.

(** Modelled from the spec: the declaration of [QueueItem] (queue.go) is not
    among the available sources.  The fields are the ones the code under
    study reads or writes, with the types their uses require; the transient
    [cancelFunc] is the cancellation oracle of the pipeline section. *)
Record QueueItem := {
  ID               : string;
  VideoURL         : string;
  SpotifyURL       : string;
  Title            : string;
  Artist           : string;
  Album            : string;
  Thumbnail        : string;
  Duration         : Q;
  PlaylistName     : string;
  PlaylistPosition : Z;
  Status           : QueueStatus;
  Progress         : Z;
  Stage            : string;
  AudioSource      : string;
  VideoPath        : string;
  AudioPath        : string;
  OutputPath       : string;
  AudioOnly        : bool;
  Error            : string;
  MatchCandidates  : list AudioCandidate;
  MatchDiagnostics_ : option MatchDiagnostics;
  StartedAt        : Z;
  CompletedAt      : Z;
  FileSize         : Z
}.

(** Field assignments [item.F = v]. *)
Definition set_Status (v : QueueStatus) (i : QueueItem) : QueueItem :=
  {| ID := ID i; VideoURL := VideoURL i; SpotifyURL := SpotifyURL i;
     Title := Title i; Artist := Artist i; Album := Album i;
     Thumbnail := Thumbnail i; Duration := Duration i;
     PlaylistName := PlaylistName i; PlaylistPosition := PlaylistPosition i;
     Status := v; Progress := Progress i; Stage := Stage i;
     AudioSource := AudioSource i; VideoPath := VideoPath i;
     AudioPath := AudioPath i; OutputPath := OutputPath i;
     AudioOnly := AudioOnly i; Error := Error i;
     MatchCandidates := MatchCandidates i;
     MatchDiagnostics_ := MatchDiagnostics_ i;
     StartedAt := StartedAt i; CompletedAt := CompletedAt i;
     FileSize := FileSize i |}.

Definition set_Progress (v : Z) (i : QueueItem) : QueueItem :=
  {| ID := ID i; VideoURL := VideoURL i; SpotifyURL := SpotifyURL i;
     Title := Title i; Artist := Artist i; Album := Album i;
     Thumbnail := Thumbnail i; Duration := Duration i;
     PlaylistName := PlaylistName i; PlaylistPosition := PlaylistPosition i;
     Status := Status i; Progress := v; Stage := Stage i;
     AudioSource := AudioSource i; VideoPath := VideoPath i;
     AudioPath := AudioPath i; OutputPath := OutputPath i;
     AudioOnly := AudioOnly i; Error := Error i;
     MatchCandidates := MatchCandidates i;
     MatchDiagnostics_ := MatchDiagnostics_ i;
     StartedAt := StartedAt i; CompletedAt := CompletedAt i;
     FileSize := FileSize i |}.

Definition set_Stage (v : string) (i : QueueItem) : QueueItem :=
  {| ID := ID i; VideoURL := VideoURL i; SpotifyURL := SpotifyURL i;
     Title := Title i; Artist := Artist i; Album := Album i;
     Thumbnail := Thumbnail i; Duration := Duration i;
     PlaylistName := PlaylistName i; PlaylistPosition := PlaylistPosition i;
     Status := Status i; Progress := Progress i; Stage := v;
     AudioSource := AudioSource i; VideoPath := VideoPath i;
     AudioPath := AudioPath i; OutputPath := OutputPath i;
     AudioOnly := AudioOnly i; Error := Error i;
     MatchCandidates := MatchCandidates i;
     MatchDiagnostics_ := MatchDiagnostics_ i;
     StartedAt := StartedAt i; CompletedAt := CompletedAt i;
     FileSize := FileSize i |}.

Definition set_SpotifyURL (v : string) (i : QueueItem) : QueueItem :=
  {| ID := ID i; VideoURL := VideoURL i; SpotifyURL := v;
     Title := Title i; Artist := Artist i; Album := Album i;
     Thumbnail := Thumbnail i; Duration := Duration i;
     PlaylistName := PlaylistName i; PlaylistPosition := PlaylistPosition i;
     Status := Status i; Progress := Progress i; Stage := Stage i;
     AudioSource := AudioSource i; VideoPath := VideoPath i;
     AudioPath := AudioPath i; OutputPath := OutputPath i;
     AudioOnly := AudioOnly i; Error := Error i;
     MatchCandidates := MatchCandidates i;
     MatchDiagnostics_ := MatchDiagnostics_ i;
     StartedAt := StartedAt i; CompletedAt := CompletedAt i;
     FileSize := FileSize i |}.

Definition set_Title (v : string) (i : QueueItem) : QueueItem :=
  {| ID := ID i; VideoURL := VideoURL i; SpotifyURL := SpotifyURL i;
     Title := v; Artist := Artist i; Album := Album i;
     Thumbnail := Thumbnail i; Duration := Duration i;
     PlaylistName := PlaylistName i; PlaylistPosition := PlaylistPosition i;
     Status := Status i; Progress := Progress i; Stage := Stage i;
     AudioSource := AudioSource i; VideoPath := VideoPath i;
     AudioPath := AudioPath i; OutputPath := OutputPath i;
     AudioOnly := AudioOnly i; Error := Error i;
     MatchCandidates := MatchCandidates i;
     MatchDiagnostics_ := MatchDiagnostics_ i;
     StartedAt := StartedAt i; CompletedAt := CompletedAt i;
     FileSize := FileSize i |}.

Definition set_Artist (v : string) (i : QueueItem) : QueueItem :=
  {| ID := ID i; VideoURL := VideoURL i; SpotifyURL := SpotifyURL i;
     Title := Title i; Artist := v; Album := Album i;
     Thumbnail := Thumbnail i; Duration := Duration i;
     PlaylistName := PlaylistName i; PlaylistPosition := PlaylistPosition i;
     Status := Status i; Progress := Progress i; Stage := Stage i;
     AudioSource := AudioSource i; VideoPath := VideoPath i;
     AudioPath := AudioPath i; OutputPath := OutputPath i;
     AudioOnly := AudioOnly i; Error := Error i;
     MatchCandidates := MatchCandidates i;
     MatchDiagnostics_ := MatchDiagnostics_ i;
     StartedAt := StartedAt i; CompletedAt := CompletedAt i;
     FileSize := FileSize i |}.

Definition set_Thumbnail (v : string) (i : QueueItem) : QueueItem :=
  {| ID := ID i; VideoURL := VideoURL i; SpotifyURL := SpotifyURL i;
     Title := Title i; Artist := Artist i; Album := Album i;
     Thumbnail := v; Duration := Duration i;
     PlaylistName := PlaylistName i; PlaylistPosition := PlaylistPosition i;
     Status := Status i; Progress := Progress i; Stage := Stage i;
     AudioSource := AudioSource i; VideoPath := VideoPath i;
     AudioPath := AudioPath i; OutputPath := OutputPath i;
     AudioOnly := AudioOnly i; Error := Error i;
     MatchCandidates := MatchCandidates i;
     MatchDiagnostics_ := MatchDiagnostics_ i;
     StartedAt := StartedAt i; CompletedAt := CompletedAt i;
     FileSize := FileSize i |}.

Definition set_Duration (v : Q) (i : QueueItem) : QueueItem :=
  {| ID := ID i; VideoURL := VideoURL i; SpotifyURL := SpotifyURL i;
     Title := Title i; Artist := Artist i; Album := Album i;
     Thumbnail := Thumbnail i; Duration := v;
     PlaylistName := PlaylistName i; PlaylistPosition := PlaylistPosition i;
     Status := Status i; Progress := Progress i; Stage := Stage i;
     AudioSource := AudioSource i; VideoPath := VideoPath i;
     AudioPath := AudioPath i; OutputPath := OutputPath i;
     AudioOnly := AudioOnly i; Error := Error i;
     MatchCandidates := MatchCandidates i;
     MatchDiagnostics_ := MatchDiagnostics_ i;
     StartedAt := StartedAt i; CompletedAt := CompletedAt i;
     FileSize := FileSize i |}.

Definition set_AudioSource (v : string) (i : QueueItem) : QueueItem :=
  {| ID := ID i; VideoURL := VideoURL i; SpotifyURL := SpotifyURL i;
     Title := Title i; Artist := Artist i; Album := Album i;
     Thumbnail := Thumbnail i; Duration := Duration i;
     PlaylistName := PlaylistName i; PlaylistPosition := PlaylistPosition i;
     Status := Status i; Progress := Progress i; Stage := Stage i;
     AudioSource := v; VideoPath := VideoPath i;
     AudioPath := AudioPath i; OutputPath := OutputPath i;
     AudioOnly := AudioOnly i; Error := Error i;
     MatchCandidates := MatchCandidates i;
     MatchDiagnostics_ := MatchDiagnostics_ i;
     StartedAt := StartedAt i; CompletedAt := CompletedAt i;
     FileSize := FileSize i |}.

Definition set_VideoPath (v : string) (i : QueueItem) : QueueItem :=
  {| ID := ID i; VideoURL := VideoURL i; SpotifyURL := SpotifyURL i;
     Title := Title i; Artist := Artist i; Album := Album i;
     Thumbnail := Thumbnail i; Duration := Duration i;
     PlaylistName := PlaylistName i; PlaylistPosition := PlaylistPosition i;
     Status := Status i; Progress := Progress i; Stage := Stage i;
     AudioSource := AudioSource i; VideoPath := v;
     AudioPath := AudioPath i; OutputPath := OutputPath i;
     AudioOnly := AudioOnly i; Error := Error i;
     MatchCandidates := MatchCandidates i;
     MatchDiagnostics_ := MatchDiagnostics_ i;
     StartedAt := StartedAt i; CompletedAt := CompletedAt i;
     FileSize := FileSize i |}.

Definition set_AudioPath (v : string) (i : QueueItem) : QueueItem :=
  {| ID := ID i; VideoURL := VideoURL i; SpotifyURL := SpotifyURL i;
     Title := Title i; Artist := Artist i; Album := Album i;
     Thumbnail := Thumbnail i; Duration := Duration i;
     PlaylistName := PlaylistName i; PlaylistPosition := PlaylistPosition i;
     Status := Status i; Progress := Progress i; Stage := Stage i;
     AudioSource := AudioSource i; VideoPath := VideoPath i;
     AudioPath := v; OutputPath := OutputPath i;
     AudioOnly := AudioOnly i; Error := Error i;
     MatchCandidates := MatchCandidates i;
     MatchDiagnostics_ := MatchDiagnostics_ i;
     StartedAt := StartedAt i; CompletedAt := CompletedAt i;
     FileSize := FileSize i |}.

Definition set_OutputPath (v : string) (i : QueueItem) : QueueItem :=
  {| ID := ID i; VideoURL := VideoURL i; SpotifyURL := SpotifyURL i;
     Title := Title i; Artist := Artist i; Album := Album i;
     Thumbnail := Thumbnail i; Duration := Duration i;
     PlaylistName := PlaylistName i; PlaylistPosition := PlaylistPosition i;
     Status := Status i; Progress := Progress i; Stage := Stage i;
     AudioSource := AudioSource i; VideoPath := VideoPath i;
     AudioPath := AudioPath i; OutputPath := v;
     AudioOnly := AudioOnly i; Error := Error i;
     MatchCandidates := MatchCandidates i;
     MatchDiagnostics_ := MatchDiagnostics_ i;
     StartedAt := StartedAt i; CompletedAt := CompletedAt i;
     FileSize := FileSize i |}.

Definition set_AudioOnly (v : bool) (i : QueueItem) : QueueItem :=
  {| ID := ID i; VideoURL := VideoURL i; SpotifyURL := SpotifyURL i;
     Title := Title i; Artist := Artist i; Album := Album i;
     Thumbnail := Thumbnail i; Duration := Duration i;
     PlaylistName := PlaylistName i; PlaylistPosition := PlaylistPosition i;
     Status := Status i; Progress := Progress i; Stage := Stage i;
     AudioSource := AudioSource i; VideoPath := VideoPath i;
     AudioPath := AudioPath i; OutputPath := OutputPath i;
     AudioOnly := v; Error := Error i;
     MatchCandidates := MatchCandidates i;
     MatchDiagnostics_ := MatchDiagnostics_ i;
     StartedAt := StartedAt i; CompletedAt := CompletedAt i;
     FileSize := FileSize i |}.

Definition set_Error (v : string) (i : QueueItem) : QueueItem :=
  {| ID := ID i; VideoURL := VideoURL i; SpotifyURL := SpotifyURL i;
     Title := Title i; Artist := Artist i; Album := Album i;
     Thumbnail := Thumbnail i; Duration := Duration i;
     PlaylistName := PlaylistName i; PlaylistPosition := PlaylistPosition i;
     Status := Status i; Progress := Progress i; Stage := Stage i;
     AudioSource := AudioSource i; VideoPath := VideoPath i;
     AudioPath := AudioPath i; OutputPath := OutputPath i;
     AudioOnly := AudioOnly i; Error := v;
     MatchCandidates := MatchCandidates i;
     MatchDiagnostics_ := MatchDiagnostics_ i;
     StartedAt := StartedAt i; CompletedAt := CompletedAt i;
     FileSize := FileSize i |}.

Definition set_MatchCandidates (v : list AudioCandidate) (i : QueueItem)
  : QueueItem :=
  {| ID := ID i; VideoURL := VideoURL i; SpotifyURL := SpotifyURL i;
     Title := Title i; Artist := Artist i; Album := Album i;
     Thumbnail := Thumbnail i; Duration := Duration i;
     PlaylistName := PlaylistName i; PlaylistPosition := PlaylistPosition i;
     Status := Status i; Progress := Progress i; Stage := Stage i;
     AudioSource := AudioSource i; VideoPath := VideoPath i;
     AudioPath := AudioPath i; OutputPath := OutputPath i;
     AudioOnly := AudioOnly i; Error := Error i;
     MatchCandidates := v;
     MatchDiagnostics_ := MatchDiagnostics_ i;
     StartedAt := StartedAt i; CompletedAt := CompletedAt i;
     FileSize := FileSize i |}.

Definition set_MatchDiagnostics (v : option MatchDiagnostics) (i : QueueItem)
  : QueueItem :=
  {| ID := ID i; VideoURL := VideoURL i; SpotifyURL := SpotifyURL i;
     Title := Title i; Artist := Artist i; Album := Album i;
     Thumbnail := Thumbnail i; Duration := Duration i;
     PlaylistName := PlaylistName i; PlaylistPosition := PlaylistPosition i;
     Status := Status i; Progress := Progress i; Stage := Stage i;
     AudioSource := AudioSource i; VideoPath := VideoPath i;
     AudioPath := AudioPath i; OutputPath := OutputPath i;
     AudioOnly := AudioOnly i; Error := Error i;
     MatchCandidates := MatchCandidates i;
     MatchDiagnostics_ := v;
     StartedAt := StartedAt i; CompletedAt := CompletedAt i;
     FileSize := FileSize i |}.

Definition set_StartedAt (v : Z) (i : QueueItem) : QueueItem :=
  {| ID := ID i; VideoURL := VideoURL i; SpotifyURL := SpotifyURL i;
     Title := Title i; Artist := Artist i; Album := Album i;
     Thumbnail := Thumbnail i; Duration := Duration i;
     PlaylistName := PlaylistName i; PlaylistPosition := PlaylistPosition i;
     Status := Status i; Progress := Progress i; Stage := Stage i;
     AudioSource := AudioSource i; VideoPath := VideoPath i;
     AudioPath := AudioPath i; OutputPath := OutputPath i;
     AudioOnly := AudioOnly i; Error := Error i;
     MatchCandidates := MatchCandidates i;
     MatchDiagnostics_ := MatchDiagnostics_ i;
     StartedAt := v; CompletedAt := CompletedAt i;
     FileSize := FileSize i |}.

Definition set_CompletedAt (v : Z) (i : QueueItem) : QueueItem :=
  {| ID := ID i; VideoURL := VideoURL i; SpotifyURL := SpotifyURL i;
     Title := Title i; Artist := Artist i; Album := Album i;
     Thumbnail := Thumbnail i; Duration := Duration i;
     PlaylistName := PlaylistName i; PlaylistPosition := PlaylistPosition i;
     Status := Status i; Progress := Progress i; Stage := Stage i;
     AudioSource := AudioSource i; VideoPath := VideoPath i;
     AudioPath := AudioPath i; OutputPath := OutputPath i;
     AudioOnly := AudioOnly i; Error := Error i;
     MatchCandidates := MatchCandidates i;
     MatchDiagnostics_ := MatchDiagnostics_ i;
     StartedAt := StartedAt i; CompletedAt := v;
     FileSize := FileSize i |}.

Definition set_FileSize (v : Z) (i : QueueItem) : QueueItem :=
  {| ID := ID i; VideoURL := VideoURL i; SpotifyURL := SpotifyURL i;
     Title := Title i; Artist := Artist i; Album := Album i;
     Thumbnail := Thumbnail i; Duration := Duration i;
     PlaylistName := PlaylistName i; PlaylistPosition := PlaylistPosition i;
     Status := Status i; Progress := Progress i; Stage := Stage i;
     AudioSource := AudioSource i; VideoPath := VideoPath i;
     AudioPath := AudioPath i; OutputPath := OutputPath i;
     AudioOnly := AudioOnly i; Error := Error i;
     MatchCandidates := MatchCandidates i;
     MatchDiagnostics_ := MatchDiagnostics_ i;
     StartedAt := StartedAt i; CompletedAt := CompletedAt i;
     FileSize := v |}.


(** [FileIndexEntry], as built by [processItem]. *)
Record FileIndexEntry := {
  fie_Path      : string;
  fie_Title     : string;
  fie_Artist    : string;
  fie_Duration  : Q;
  fie_Size      : Z;
  fie_IndexedAt : Z
}.

(** The configuration fields [processItem] reads. *)
Record Config := {
  OutputDirectory     : string;
  VideoQuality        : string;
  NamingTemplate      : string;
  AudioSourcePriority : list string;
  GenerateNFO         : bool;
  EmbedCoverArt       : bool;
  LyricsEnabled       : bool;
  LyricsEmbedMode    : string;
  CookiesBrowser      : string
}.

(** The queue: the item slice, the optional configuration, file index and
    history.  The mutex and the parent context have no sequential content. *)
Record Queue := {
  items     : list QueueItem;
  config    : option Config;
  fileIndex : option (list FileIndexEntry);
  history   : option (list (QueueItem * string))
}.

Definition set_items (l : list QueueItem) (q : Queue) : Queue :=
  {| items := l; config := config q; fileIndex := fileIndex q;
     history := history q |}.

(* ===================================================================== *)
(** * Queue statistics ([GetStats]) *)
(* ===================================================================== *)

Record QueueStats := {
  Total     : Z;
  Pending   : Z;
  Active    : Z;
  Completed : Z;
  Failed    : Z;
  Cancelled : Z
}.

(** One iteration of the [for _, item := range q.items] loop: the [switch]
    on [item.Status], whose cases are tried in order. *)
Definition stats_step (stats : QueueStats) (item : QueueItem) : QueueStats :=
  let s := Status item in
  if s =? StatusPending then
    {| Total := Total stats; Pending := Pending stats + 1;
       Active := Active stats; Completed := Completed stats;
       Failed := Failed stats; Cancelled := Cancelled stats |}
  else if (s =? StatusFetchingInfo) || (s =? StatusDownloadingVideo)
          || (s =? StatusDownloadingAudio) || (s =? StatusMuxing)
          || (s =? StatusOrganizing) then
    {| Total := Total stats; Pending := Pending stats;
       Active := Active stats + 1; Completed := Completed stats;
       Failed := Failed stats; Cancelled := Cancelled stats |}
  else if s =? StatusComplete then
    {| Total := Total stats; Pending := Pending stats;
       Active := Active stats; Completed := Completed stats + 1;
       Failed := Failed stats; Cancelled := Cancelled stats |}
  else if s =? StatusError then
    {| Total := Total stats; Pending := Pending stats;
       Active := Active stats; Completed := Completed stats;
       Failed := Failed stats + 1; Cancelled := Cancelled stats |}
  else if s =? StatusCancelled then
    {| Total := Total stats; Pending := Pending stats;
       Active := Active stats; Completed := Completed stats;
       Failed := Failed stats; Cancelled := Cancelled stats + 1 |}
  else stats.

(** The number of items the five counters account for. *)
Definition classified (st : QueueStats) : Z :=
  Pending st + Active st + Completed st + Failed st + Cancelled st.

Definition GetStats (q : Queue) : QueueStats :=
  fold_left stats_step (items q)
    {| Total := Z.of_nat (length (items q)); Pending := 0; Active := 0;
       Completed := 0; Failed := 0; Cancelled := 0 |}.

(* ===================================================================== *)
(** * The file system as the code sees it *)
(* ===================================================================== *)

(** The [os] and [path/filepath] calls of the code.  Pure path functions
    and the helpers of the repository that are not among the available
    sources ([GetDataPath], [SanitizeFileName]) are taken as a bundle. *)
Record PathLib := {
  GetDataPath      : string;
  Join             : string -> string -> string;   (* filepath.Join *)
  Dir              : string -> string;             (* filepath.Dir *)
  Ext              : string -> string;             (* filepath.Ext *)
  Rel              : string -> string -> option string; (* filepath.Rel *)
  SanitizeFileName : string -> string
}.

Inductive FsOp :=
| OpMkdirAll  (dir : string)
| OpReadFile  (path : string)
| OpWriteFile (path data : string)
| OpRename    (oldpath newpath : string).

(** The disk: file contents by path, the operations the operating system
    refuses (permissions, full disk), and the log of operations issued. *)
Record FileSys := {
  fs_files   : gmap string string;
  fs_refuses : FsOp -> bool;
  fs_log     : list FsOp
}.

Definition fs_issue (op : FsOp) (files : gmap string string) (fs : FileSys)
  : FileSys :=
  {| fs_files := files; fs_refuses := fs_refuses fs;
     fs_log := fs_log fs ++ [op] |}.

Definition os_MkdirAll (dir : string) (fs : FileSys)
  : option string * FileSys :=
  let op := OpMkdirAll dir in
  if fs_refuses fs op then (Some "mkdir", fs_issue op (fs_files fs) fs)
  else (None, fs_issue op (fs_files fs) fs).

(** [os.WriteFile]: opens the named file with [O_WRONLY|O_CREATE|O_TRUNC]
    and writes [data] into it. *)
Definition os_WriteFile (path data : string) (fs : FileSys)
  : option string * FileSys :=
  let op := OpWriteFile path data in
  if fs_refuses fs op then (Some "write", fs_issue op (fs_files fs) fs)
  else (None, fs_issue op (<[path := data]> (fs_files fs)) fs).

Inductive ReadResult :=
| ReadNotExist
| ReadFailed
| ReadOk (data : string).

Definition os_ReadFile (path : string) (fs : FileSys)
  : ReadResult * FileSys :=
  let op := OpReadFile path in
  let fs' := fs_issue op (fs_files fs) fs in
  match fs_files fs !! path with
  | None => (ReadNotExist, fs')
  | Some data => if fs_refuses fs op then (ReadFailed, fs')
                 else (ReadOk data, fs')
  end.

(** What a completed operation does to the files. *)
Definition apply_op (op : FsOp) (files : gmap string string)
  : gmap string string :=
  match op with
  | OpMkdirAll _ | OpReadFile _ => files
  | OpWriteFile p d => <[p := d]> files
  | OpRename a b =>
      match files !! a with
      | Some d => <[b := d]> (delete a files)
      | None => files
      end
  end.

(** What the disk may hold when the process dies while [op] is in progress:
    nothing of it has happened yet, or, for a write, the target has been
    truncated and some prefix of the data has reached it.  A rename is
    atomic. *)
Inductive crash_during : FsOp -> gmap string string -> gmap string string
                         -> Prop :=
| crash_before op files : crash_during op files files
| crash_write p data pre files :
    String.prefix pre data = true ->
    crash_during (OpWriteFile p data) files (<[p := pre]> files).

(** The disk after a crash somewhere in a sequence of operations. *)
Inductive crash_image : list FsOp -> gmap string string
                        -> gmap string string -> Prop :=
| crash_here op ops files files' :
    crash_during op files files' -> crash_image (op :: ops) files files'
| crash_later op ops files files' :
    crash_image ops (apply_op op files) files' ->
    crash_image (op :: ops) files files'
| crash_done files : crash_image [] files files.

(* ===================================================================== *)
(** * Persistence ([SaveQueue], [LoadQueue]) *)
(* ===================================================================== *)

Record QueueState := {
  qs_Items     : list QueueItem;
  qs_UpdatedAt : Z
}.

(** [encoding/json] for [QueueState]. *)
Record JsonCodec := {
  MarshalIndent : QueueState -> option string;
  Unmarshal     : string -> option QueueState
}.

Definition GetQueueFilePath (P : PathLib) : string :=
  Join P (GetDataPath P) "queue.json".

Definition SaveQueue (P : PathLib) (J : JsonCodec) (now : Z)
    (q : Queue) (fs : FileSys) : option string * FileSys :=
  let state := {| qs_Items := items q; qs_UpdatedAt := now |} in
  match MarshalIndent J state with
  | None => (Some "failed to marshal queue", fs)
  | Some data =>
      let queuePath := GetQueueFilePath P in
      match os_MkdirAll (Dir P queuePath) fs with
      | (Some _, fs1) => (Some "failed to create queue directory", fs1)
      | (None, fs1) =>
          match os_WriteFile queuePath data fs1 with
          | (Some _, fs2) => (Some "failed to write queue file", fs2)
          | (None, fs2) => (None, fs2)
          end
      end
  end.

(** The body of the loop over [state.Items]: the [switch] with the single
    five-status case. *)
Definition resume_item (it : QueueItem) : QueueItem :=
  let s := Status it in
  if (s =? StatusFetchingInfo) || (s =? StatusDownloadingVideo)
     || (s =? StatusDownloadingAudio) || (s =? StatusMuxing)
     || (s =? StatusOrganizing)
  then set_Stage "Waiting... (resumed)"
         (set_Progress 0 (set_Status StatusPending it))
  else it.

Definition LoadQueue (P : PathLib) (J : JsonCodec)
    (q : Queue) (fs : FileSys) : option string * Queue * FileSys :=
  let queuePath := GetQueueFilePath P in
  match os_ReadFile queuePath fs with
  | (ReadNotExist, fs1) => (None, q, fs1)
  | (ReadFailed, fs1) => (Some "failed to read queue file", q, fs1)
  | (ReadOk data, fs1) =>
      match Unmarshal J data with
      | None => (Some "failed to unmarshal queue", q, fs1)
      | Some state =>
          (None, set_items (map resume_item (qs_Items state)) q, fs1)
      end
  end.

(** [strings.Contains]. *)
Fixpoint contains (s sub : string) : bool :=
  String.prefix sub s
  || match s with
     | EmptyString => false
     | String _ s' => contains s' sub
     end.

(* ===================================================================== *)
(** * Playlist files ([GenerateM3U8]) *)
(* ===================================================================== *)

Definition nl : string := String (Ascii.ascii_of_nat 10) EmptyString.

(** Go's conversion [int(x)] of a float: the fraction is discarded. *)
Definition int_of_float64 (x : Q) : Z := Z.quot (Qnum x) (Z.pos (Qden x)).

(** Go leaves the result of [int(x)] to the implementation when the value
    does not fit the type: the conversion is the one above for the floats
    within the range of [int], which has 64 bits on the platforms the
    program is built for. *)
Definition int_range (x : Q) : Prop :=
  - 2 ^ 63 <= int_of_float64 x < 2 ^ 63.

(** The body of the loop over [items], threading the [strings.Builder]. *)
Definition m3u8_step (P : PathLib) (outputDir : string)
    (sb : string) (item : QueueItem) : string :=
  if OutputPath item =? "" then sb
  else
    let rel := match Rel P outputDir (OutputPath item) with
               | Some r => r
               | None => OutputPath item
               end in
    let duration := int_of_float64 (Duration item) in
    let duration := if (duration <=? 0)%Z then -1 else duration in
    let trackInfo := if Artist item =? "" then Title item
                     else Artist item ++ " - " ++ Title item in
    (sb ++ ("#EXTINF:" ++ pretty duration ++ "," ++ trackInfo ++ nl))
    ++ (rel ++ nl).

Definition m3u8_content (P : PathLib) (outputDir : string)
    (its : list QueueItem) : string :=
  fold_left (m3u8_step P outputDir) its ("#EXTM3U" ++ nl).

Definition m3u8_path (P : PathLib) (outputDir playlistName : string)
  : string :=
  let safeName := SanitizeFileName P playlistName in
  let safeName := if safeName =? "" then "playlist" else safeName in
  Join P outputDir (safeName ++ ".m3u8").

Definition GenerateM3U8 (P : PathLib) (its : list QueueItem)
    (outputDir playlistName : string) (fs : FileSys)
  : option string * FileSys :=
  if (length its =? 0)%nat then (None, fs)
  else
    match os_MkdirAll outputDir fs with
    | (Some _, fs1) => (Some "failed to create output directory", fs1)
    | (None, fs1) =>
        os_WriteFile (m3u8_path P outputDir playlistName)
                     (m3u8_content P outputDir its) fs1
    end.

(** The playlist in the words of its documentation: a header line, then for
    each item that has an output path one [#EXTINF] line and one path
    line. *)
Definition m3u8_duration (item : QueueItem) : Z :=
  if (int_of_float64 (Duration item) <=? 0)%Z then -1
  else int_of_float64 (Duration item).

Definition m3u8_relpath (P : PathLib) (outputDir : string)
    (item : QueueItem) : string :=
  match Rel P outputDir (OutputPath item) with
  | Some r => r
  | None => OutputPath item
  end.

Definition m3u8_entry (P : PathLib) (outputDir : string)
    (item : QueueItem) : string :=
  "#EXTINF:" ++ pretty (m3u8_duration item) ++ ","
  ++ (if Artist item =? "" then Title item
      else Artist item ++ " - " ++ Title item) ++ nl
  ++ m3u8_relpath P outputDir item ++ nl.

Definition has_output (item : QueueItem) : bool :=
  negb (OutputPath item =? "").

Definition m3u8_documented (P : PathLib) (outputDir : string)
    (its : list QueueItem) : string :=
  "#EXTM3U" ++ nl
  ++ fold_right String.append ""
       (map (m3u8_entry P outputDir) (List.filter has_output its)).

(* ===================================================================== *)
(** * A concrete environment for the examples *)
(* ===================================================================== *)

(** Paths under [/data], joined with a slash; a path below the base
    directory is made relative by dropping the base, any other path has no
    relative form. *)
Fixpoint dirname_aux (s : string) : option string :=
  match s with
  | EmptyString => None
  | String c s' =>
      match dirname_aux s' with
      | Some d => Some (String c d)
      | None => if Ascii.eqb c (Ascii.ascii_of_nat 47)
                then Some EmptyString else None
      end
  end.

Definition dirname (s : string) : string :=
  match dirname_aux s with
  | Some EmptyString => "/"
  | Some d => d
  | None => "."
  end.

Definition demoPaths : PathLib :=
  {| GetDataPath := "/data";
     Join := fun a b => a ++ "/" ++ b;
     Dir := dirname;
     Ext := fun _ => ".mkv";
     Rel := fun base p =>
       if String.prefix (base ++ "/") p
       then Some (substring (String.length base + 1) (String.length p) p)
       else None;
     SanitizeFileName := fun s => s |}.

Definition demoItem (id : string) (st : QueueStatus) : QueueItem :=
  set_Status st
    {| ID := id; VideoURL := "https://youtube.com/watch?v=abc";
       SpotifyURL := ""; Title := "Bohemian Rhapsody"; Artist := "Queen";
       Album := ""; Thumbnail := ""; Duration := 354%Q; PlaylistName := "";
       PlaylistPosition := 0; Status := ""; Progress := 0; Stage := "";
       AudioSource := ""; VideoPath := ""; AudioPath := "";
       OutputPath := ""; AudioOnly := false; Error := "";
       MatchCandidates := []; MatchDiagnostics_ := None; StartedAt := 0;
       CompletedAt := 0; FileSize := 0 |}.

Definition emptyQueue : Queue :=
  {| items := []; config := None; fileIndex := None; history := None |}.

(** A codec that knows one document, ["<queue>"], holding [its]. *)
Definition demoCodec (its : list QueueItem) : JsonCodec :=
  {| MarshalIndent := fun _ => Some "<queue>";
     Unmarshal := fun d =>
       if d =? "<queue>"
       then Some {| qs_Items := its; qs_UpdatedAt := 0 |}
       else None |}.

Definition demoDisk (files : gmap string string) : FileSys :=
  {| fs_files := files; fs_refuses := fun _ => false; fs_log := [] |}.

(** The persistence claims as the design document words them. *)

(** "Any non-terminal status is normalized to pending with progress 0 and a
    stage of resumed; terminal items are loaded unchanged; afterwards no
    item is in flight." *)
Definition load_normalizes_non_terminal
    (persisted loaded : list QueueItem) : Prop :=
  Forall (fun l => in_flight (Status l) = false) loaded /\
  Forall2 (fun p l =>
             if terminal (Status p) then l = p
             else Status l = StatusPending /\ Progress l = 0 /\
                  contains (Stage l) "resumed" = true)
          persisted loaded.

(** "Written atomically (temp file + rename)": the data goes to a file
    other than the target, which is then renamed over the target, and the
    target itself is never written. *)
Definition writes_via_temp_and_rename
    (ops : list FsOp) (target data : string) : Prop :=
  exists tmp, tmp <> target /\
    In (OpWriteFile tmp data) ops /\ In (OpRename tmp target) ops /\
    forall d, ~ In (OpWriteFile target d) ops.

(** "A crash during the save never leaves a partially written file": the
    target holds its old content or the new one. *)
Definition crash_safe_save (ops : list FsOp) (target new : string)
    (files : gmap string string) : Prop :=
  forall files', crash_image ops files files' ->
    files' !! target = files !! target \/ files' !! target = Some new.

Definition demoTracks : list QueueItem :=
  [set_OutputPath "/music/a.mkv" (demoItem "a" StatusComplete);
   demoItem "b" StatusError;
   set_Duration 0%Q
     (set_Artist ""
        (set_OutputPath "/elsewhere/c.flac" (demoItem "c" StatusComplete)))].

(* ===================================================================== *)
(** * Looking items up and updating them in place *)
(* ===================================================================== *)

(** The idiom of the code for reaching an item:
    [for i := range q.items { if q.items[i].ID == id { ...; break } }]. *)
Fixpoint find_item (id : string) (l : list QueueItem) : option QueueItem :=
  match l with
  | [] => None
  | it :: l' => if ID it =? id then Some it else find_item id l'
  end.

Fixpoint update_first (id : string) (f : QueueItem -> QueueItem)
    (l : list QueueItem) : list QueueItem :=
  match l with
  | [] => []
  | it :: l' => if ID it =? id then f it :: l'
                else it :: update_first id f l'
  end.

(** Modelled from the spec: [GetItem] (queue.go) is not among the available
    sources; it is the read view of one item, a copy of the stored item. *)
Definition GetItem (q : Queue) (id : string) : option QueueItem :=
  find_item id (items q).

(* ===================================================================== *)
(** * Retry with override *)
(* ===================================================================== *)

(** The request, with the fields the tests fill in; an empty string is a
    field that was not supplied. *)
Record RetryOverrideRequest := {
  req_Artist   : string;
  req_Title    : string;
  req_MusicURL : string
}.

Definition noOverride : RetryOverrideRequest :=
  {| req_Artist := ""; req_Title := ""; req_MusicURL := "" |}.

(** Modelled from the spec: [RetryWithOverride] (queue.go) is not among the
    available sources, only its tests are.  "Only from error; applies
    overrides, clears error, match_candidates, match_diagnostics, sets
    status = pending, re-dispatches.  (If music_url supplied it overwrites
    the catalog URL; original video URL is preserved.)"  The catalog URL is
    the field [SpotifyURL], as the tests read it back; handing the item to a
    worker again is outside this sequential model. *)
Definition retry_item (req : RetryOverrideRequest) (it : QueueItem)
  : QueueItem :=
  let it := if req_Artist req =? "" then it
            else set_Artist (req_Artist req) it in
  let it := if req_Title req =? "" then it
            else set_Title (req_Title req) it in
  let it := if req_MusicURL req =? "" then it
            else set_SpotifyURL (req_MusicURL req) it in
  set_Status StatusPending
    (set_MatchDiagnostics None (set_MatchCandidates [] (set_Error "" it))).

Definition RetryWithOverride (q : Queue) (id : string)
    (req : RetryOverrideRequest) : (QueueItem + string) * Queue :=
  match find_item id (items q) with
  | None => (inr "item not found", q)
  | Some it =>
      if Status it =? StatusError
      then (inl (retry_item req it),
            set_items (update_first id (retry_item req) (items q)) q)
      else (inr "item is not in error state", q)
  end.

(* ===================================================================== *)
(** * The lucida service *)
(* ===================================================================== *)

Inductive HttpRequest :=
| ReqHead (url : string)
| ReqGet  (url : string)
| ReqPost (url body : string).

(** The answer to a request: a transport failure, or a status code with a
    body ([None] when reading the body fails). *)
Inductive HttpReply :=
| HttpFailure
| HttpResponse (status : Z) (body : option string).

Definition Network := HttpRequest -> HttpReply.

Record LucidaTrack := {
  lt_ID : string; lt_Title : string; lt_Artist : string; lt_Album : string;
  lt_Duration : Q; lt_CoverURL : string; lt_ReleaseDate : string;
  lt_ISRC : string; lt_Platform : string
}.

Record LucidaFormat := {
  lf_Format : string; lf_Quality : string; lf_Size : Z; lf_URL : string
}.

Record LucidaResponse := {
  lr_Success : bool;
  lr_Error   : string;
  lr_Track   : LucidaTrack;
  lr_Formats : list LucidaFormat
}.

Record AudioTrackInfo := {
  ati_ID : string; ati_Title : string; ati_Artist : string;
  ati_Album : string; ati_Duration : Q; ati_ISRC : string;
  ati_Platform : string; ati_CoverURL : string; ati_Quality : string;
  ati_ReleaseDate : string
}.

(** [net/url] and [encoding/json] as the service uses them. *)
Record LucidaLib := {
  form_encode    : string -> string;       (* url.Values{"url": u}.Encode() *)
  request_ok     : string -> bool;         (* http.NewRequest succeeds *)
  parse_response : string -> option LucidaResponse
}.

Definition lucidaAPIBase : string := "https://lucida.to".
Definition lucidaAPIPath : string := "/api/load".

(** [LucidaService]: the HTTP client (a timeout) and the one base URL. *)
Record LucidaService := { baseURL : string }.

Definition NewLucidaService : LucidaService := {| baseURL := lucidaAPIBase |}.

(** Each method returns its result together with the requests it sent. *)
Definition IsAvailable (net : Network) (l : LucidaService)
  : bool * list HttpRequest :=
  let req := ReqHead (baseURL l) in
  match net req with
  | HttpFailure => (false, [req])
  | HttpResponse code _ => ((code <? 500)%Z, [req])
  end.

Definition fetchTrackData (L : LucidaLib) (net : Network)
    (l : LucidaService) (trackURL : string)
  : (LucidaResponse + string) * list HttpRequest :=
  let apiURL := baseURL l ++ lucidaAPIPath in
  let data := form_encode L trackURL in
  if negb (request_ok L apiURL) then (inr "failed to create request", [])
  else
    let req := ReqPost apiURL data in
    match net req with
    | HttpFailure => (inr "API request failed", [req])
    | HttpResponse _ None => (inr "failed to read response", [req])
    | HttpResponse _ (Some body) =>
        match parse_response L body with
        | None => (inr "failed to parse response", [req])
        | Some result =>
            if negb (lr_Success result)
            then (inr ("API error: " ++ lr_Error result), [req])
            else (inl result, [req])
        end
    end.

Definition GetTrackInfo (L : LucidaLib) (net : Network)
    (l : LucidaService) (trackURL : string)
  : (AudioTrackInfo + string) * list HttpRequest :=
  match fetchTrackData L net l trackURL with
  | (inr err, reqs) => (inr err, reqs)
  | (inl resp, reqs) =>
      let t := lr_Track resp in
      (inl {| ati_ID := lt_ID t; ati_Title := lt_Title t;
              ati_Artist := lt_Artist t; ati_Album := lt_Album t;
              ati_Duration := lt_Duration t; ati_ISRC := lt_ISRC t;
              ati_Platform := lt_Platform t; ati_CoverURL := lt_CoverURL t;
              ati_Quality := ""; ati_ReleaseDate := lt_ReleaseDate t |},
       reqs)
  end.

(** The multi-endpoint protocol in the words of the design document and of
    the service's tests: the endpoints are tried in order; a transport
    failure or a 5xx answer moves on to the next one; any other answer is
    final. *)
Fixpoint probe_endpoints (net : Network) (endpoints : list string)
  : bool * list HttpRequest :=
  match endpoints with
  | [] => (false, [])
  | e :: rest =>
      let req := ReqHead e in
      let retry := let '(r, reqs) := probe_endpoints net rest in
                   (r, req :: reqs) in
      match net req with
      | HttpFailure => retry
      | HttpResponse code _ =>
          if (code <? 500)%Z then (true, [req]) else retry
      end
  end.

(** The two test servers of [TestLucidaService_IsAvailable_FallsBackToSecond]
    and [TestLucidaService_GetTrackInfo_EndpointFallback]: the first answers
    every request with a 5xx and no body, the second with 200. *)
Definition demoTrack : LucidaTrack :=
  {| lt_ID := "track123"; lt_Title := "Test Track";
     lt_Artist := "Test Artist"; lt_Album := "Test Album";
     lt_Duration := 240%Q; lt_CoverURL := ""; lt_ReleaseDate := "";
     lt_ISRC := "USABC1234567"; lt_Platform := "tidal" |}.

Definition demoLucidaLib : LucidaLib :=
  {| form_encode := fun u => "url=" ++ u;
     request_ok := fun _ => true;
     parse_response := fun body =>
       if body =? "<success>"
       then Some {| lr_Success := true; lr_Error := "";
                    lr_Track := demoTrack; lr_Formats := [] |}
       else None |}.

Definition request_url (r : HttpRequest) : string :=
  match r with ReqHead u | ReqGet u | ReqPost u _ => u end.

Definition twoServers : Network := fun r =>
  if String.prefix "http://ts1" (request_url r)
  then HttpResponse 503 (Some "")
  else if String.prefix "http://ts2" (request_url r)
  then HttpResponse 200 (Some "<success>")
  else HttpFailure.

(* ===================================================================== *)
(** * The pipeline runner ([processItem]) *)
(* ===================================================================== *)

(** ** Collaborators *)

Record VideoInfo := {
  vi_Title : string; vi_Artist : string; vi_Thumbnail : string;
  vi_Duration : Q
}.

Record Metadata := {
  md_Title : string; md_Artist : string; md_Album : string;
  md_Thumbnail : string; md_Duration : Q; md_Track : Z
}.

(** [links.URLs] of the song.link resolver. *)
Record SongLinks := {
  TidalURL : string; QobuzURL : string; AmazonURL : string;
  DeezerURL : string
}.

Record AudioDownloadResult := {
  adr_FilePath : string; adr_Format : string; adr_Size : Z
}.

Record MuxResult := { mr_OutputPath : string }.

Record Lyrics := { ly_HasSync : bool; ly_PlainText : string }.

(** The three download services the cascade creates. *)
Inductive Service := TidalHifi | Lucida | Orpheus.

Definition service_name (s : Service) : string :=
  match s with
  | TidalHifi => "tidal-hifi"
  | Lucida => "lucida"
  | Orpheus => "orpheus"
  end.

(** The places where [processItem] polls [itemCtx.Done()]. *)
Inductive Checkpoint :=
| CpFetchInfo | CpExisting | CpVideo | CpAudio
| CpSource (iteration : nat)
| CpMux | CpLyrics | CpOrganize.

(** Every call that leaves the queue, with its arguments. *)
Inductive Call :=
| CallMkdirAll (path : string)
| CallRemoveAll (path : string)
| CallParseYouTubeURL (url : string)
| CallGetVideoMetadata (videoID : string)
| CallFindMatch (title artist : string)
| CallCopyFile (src dst : string)
| CallIndexAddEntry (e : FileIndexEntry)
| CallIndexSave
| CallDownloadVideo (videoID quality dir cookies : string)
| CallResolveMusicURL (url : string)
| CallIsAvailable (s : Service)
| CallDownload (s : Service) (url dir format : string)
| CallDownloadBySearch (artist title dir : string)
| CallExtractAudio (videoPath audioPath : string)
| CallCheckFileConflict (path : string)
| CallDownloadPoster (url path : string)
| CallCreateFLAC (audioPath outputPath cover : string)
| CallMuxVideoWithFLAC (videoPath audioPath outputPath cover : string)
| CallFetchLyrics (artist title : string)
| CallEmbedLyricsInFile (path : string)
| CallSaveLRCFile (path : string)
| CallSavePlainLyricsFile (path : string)
| CallGetMediaInfo (path : string)
| CallWriteNFO (path : string)
| CallStat (path : string).

(** The answers of the outside world during one run.  The helpers of the
    repository that are not among the available sources ([ParseYouTubeURL],
    [GetVideoMetadata], [FindMatch], the path generators, the downloaders,
    the muxer, ...) and the operating system are answered here; [copyFile]
    is pure file-system work and is answered by its outcome. *)
Record World := {
  w_paths      : PathLib;
  w_now        : Z;
  w_TempDir    : string;
  w_defaultConfig : Config;
  w_ctxDone    : Checkpoint -> bool;
  w_MkdirAll   : string -> bool;
  w_ParseYouTubeURL  : string -> option string;
  w_GetVideoMetadata : string -> option VideoInfo;
  w_FindMatch  : list FileIndexEntry -> string -> string
                 -> option FileIndexEntry;
  w_GetDefaultOutputDirectory : string;
  w_GeneratePlaylistFilePath : Metadata -> string -> string -> string;
  w_GenerateFilePath : Metadata -> string -> string -> string -> string;
  w_copyFile   : string -> string -> bool;
  w_DownloadVideo : string -> string -> string -> string -> option string;
  w_ResolveMusicURL : string -> option SongLinks;
  w_IsAvailable : Service -> bool;
  w_Download   : Service -> string -> string -> string
                 -> option AudioDownloadResult;
  w_DownloadBySearch : string -> string -> string
                       -> option AudioDownloadResult;
  w_ExtractAudioStream : string -> string -> bool;
  w_CheckFileConflict : string -> bool;
  w_ResolveConflict : string -> string;
  w_DownloadPoster : string -> string -> bool;
  w_CreateFLACWithMetadata : string -> string -> Metadata -> string
                             -> option MuxResult;
  w_MuxVideoWithFLAC : string -> string -> string -> Metadata -> string
                       -> option MuxResult;
  w_FetchLyrics : string -> string -> option Lyrics;
  w_Stat : string -> option Z
}.

(** ** The queue during a run *)

(** A mutator closure [func(item *QueueItem) { item.F = v; ... }] is the
    list of its assignments. *)
Inductive Assign :=
| AStatus (v : QueueStatus)
| AProgress (v : Z)
| AStage (v : string)
| ATitle (v : string)
| AArtist (v : string)
| AThumbnail (v : string)
| ADuration (v : Q)
| AAudioOnly (v : bool)
| AVideoPath (v : string)
| AAudioSource (v : string)
| AAudioPath (v : string)
| AOutputPath (v : string)
| AFileSize (v : Z)
| ACompletedAt (v : Z)
| AError (v : string).

Definition assign (a : Assign) : QueueItem -> QueueItem :=
  match a with
  | AStatus v => set_Status v
  | AProgress v => set_Progress v
  | AStage v => set_Stage v
  | ATitle v => set_Title v
  | AArtist v => set_Artist v
  | AThumbnail v => set_Thumbnail v
  | ADuration v => set_Duration v
  | AAudioOnly v => set_AudioOnly v
  | AVideoPath v => set_VideoPath v
  | AAudioSource v => set_AudioSource v
  | AAudioPath v => set_AudioPath v
  | AOutputPath v => set_OutputPath v
  | AFileSize v => set_FileSize v
  | ACompletedAt v => set_CompletedAt v
  | AError v => set_Error v
  end.

Definition mutate (body : list Assign) (it : QueueItem) : QueueItem :=
  fold_left (fun i a => assign a i) body it.

Record QueueEvent := {
  ev_Type : string; ev_ItemID : string; ev_Item : option QueueItem;
  ev_Progress : Z; ev_Status : QueueStatus
}.

(** The state a run threads: the queue, and three logs kept newest first:
    the events published, the mutators applied through the queue's update
    primitive, and the calls made to the outside. *)
Record RunState := {
  queue     : Queue;
  events    : list QueueEvent;
  mutations : list (string * list Assign);
  calls     : list Call
}.

Definition startRun (q : Queue) : RunState :=
  {| queue := q; events := []; mutations := []; calls := [] |}.

(** How a step of [processItem] ends: it goes on with a value, the function
    returns, or the goroutine panics (a nil item is dereferenced, a slice
    bound is exceeded). *)
Inductive Outcome (A : Type) :=
| Go (a : A)
| Returned
| Panicked.
Arguments Go {A} a.
Arguments Returned {A}.
Arguments Panicked {A}.

Definition M (A : Type) : Type := RunState -> Outcome A * RunState.

Definition ret {A} (a : A) : M A := fun s => (Go a, s).

Definition bind {A B} (m : M A) (k : A -> M B) : M B := fun s =>
  match m s with
  | (Go a, s') => k a s'
  | (Returned, s') => (Returned, s')
  | (Panicked, s') => (Panicked, s')
  end.

Definition return_ {A} : M A := fun s => (Returned, s).
Definition panic {A} : M A := fun s => (Panicked, s).

Declare Scope run_scope.
Delimit Scope run_scope with run.
Notation "x <- m ;; k" := (bind m (fun x => k))
  (at level 100, m at next level, right associativity) : run_scope.
Notation "m ;; k" := (bind m (fun _ => k))
  (at level 100, right associativity) : run_scope.
Local Open Scope run_scope.

Definition call (c : Call) : M unit := fun s =>
  (Go tt, {| queue := queue s; events := events s;
             mutations := mutations s; calls := c :: calls s |}).

Definition emit (e : QueueEvent) : M unit := fun s =>
  (Go tt, {| queue := queue s; events := e :: events s;
             mutations := mutations s; calls := calls s |}).

Definition readQueue : M Queue := fun s => (Go (queue s), s).

Definition getItem (id : string) : M (option QueueItem) := fun s =>
  (Go (GetItem (queue s) id), s).

Definition setQueue (q : Queue) : M unit := fun s =>
  (Go tt, {| queue := q; events := events s;
             mutations := mutations s; calls := calls s |}).

(** [select { case <-itemCtx.Done(): return; default: }]. *)
Definition checkpoint (w : World) (cp : Checkpoint) : M unit := fun s =>
  if w_ctxDone w cp then (Returned, s) else (Go tt, s).

(** Modelled from the spec: [updateItem], [UpdateStatus] and [SetItemError]
    (queue.go) are not among the available sources.  "Status mutations are
    performed through a small updateItem(id, mutator) primitive that holds
    the writer lock for the duration of the mutation and then publishes the
    event"; "UpdateStatus(id, status, progress, stage): transition helper;
    publishes updated event"; "SetItemError(id, err): transitions to error
    and publishes error event". *)
Definition applyMutator (id : string) (body : list Assign) (evType : string)
  : M unit := fun s =>
  let q' := set_items (update_first id (mutate body) (items (queue s)))
                      (queue s) in
  (Go tt,
   {| queue := q';
      events := {| ev_Type := evType; ev_ItemID := id;
                   ev_Item := GetItem q' id; ev_Progress := 0;
                   ev_Status := "" |} :: events s;
      mutations := (id, body) :: mutations s;
      calls := calls s |}).

Definition updateItem (id : string) (body : list Assign) : M unit :=
  applyMutator id body "updated".

Definition UpdateStatus (id : string) (status : QueueStatus) (progress : Z)
    (stage : string) : M unit :=
  applyMutator id [AStatus status; AProgress progress; AStage stage]
               "updated".

Definition SetItemError (id : string) (msg : string) : M unit :=
  applyMutator id [AStatus StatusError; AError msg] "error".

(** Modelled from the spec: [FileIndex.AddEntry] (file_index.go) is not among
    the available sources: "upsert by path". *)
Fixpoint upsert_entry (e : FileIndexEntry) (l : list FileIndexEntry)
  : list FileIndexEntry :=
  match l with
  | [] => [e]
  | x :: l' => if fie_Path x =? fie_Path e then e :: l'
               else x :: upsert_entry e l'
  end.

Definition indexAddEntry (e : FileIndexEntry) : M unit := fun s =>
  let q := queue s in
  (Go tt,
   {| queue := {| items := items q; config := config q;
                  fileIndex := option_map (upsert_entry e) (fileIndex q);
                  history := history q |};
      events := events s; mutations := mutations s;
      calls := CallIndexAddEntry e :: calls s |}).

(** Modelled from the spec: [history.AddFromQueueItem] is not among the
    available sources: the history is an append-only log. *)
Definition historyAdd (it : QueueItem) (outcome : string) : M unit :=
  fun s =>
  let q := queue s in
  (Go tt,
   {| queue := {| items := items q; config := config q;
                  fileIndex := fileIndex q;
                  history := option_map (fun h => (h ++ [(it, outcome)])%list)
                                        (history q) |};
      events := events s; mutations := mutations s; calls := calls s |}).

(** [defer cleanup]: the clean-up runs however the body ends. *)
Definition defer {A} (cleanup : M unit) (body : M A) : M A := fun s =>
  let '(o, s') := body s in (o, (cleanup s').2).

(** ** Stage 1: fetch video info (if not already present) *)

Definition fetchVideoInfo (w : World) (id : string) (item : QueueItem)
  : M (VideoInfo * string) :=
  if Title item =? "" then
    UpdateStatus id StatusFetchingInfo 5 "Parsing URL...";;
    call (CallParseYouTubeURL (VideoURL item));;
    match w_ParseYouTubeURL w (VideoURL item) with
    | None => SetItemError id "invalid YouTube URL";; return_
    | Some videoID =>
        checkpoint w CpFetchInfo;;
        call (CallGetVideoMetadata videoID);;
        match w_GetVideoMetadata w videoID with
        | None => SetItemError id "failed to fetch video info";; return_
        | Some videoInfo =>
            updateItem id [ATitle (vi_Title videoInfo);
                           AArtist (vi_Artist videoInfo);
                           AThumbnail (vi_Thumbnail videoInfo);
                           ADuration (vi_Duration videoInfo)];;
            ret (videoInfo, videoID)
        end
    end
  else
    videoID <- (if negb (VideoURL item =? "") then
                  call (CallParseYouTubeURL (VideoURL item));;
                  ret (match w_ParseYouTubeURL w (VideoURL item) with
                       | Some v => v
                       | None => ""
                       end)
                else ret "");;
    ret ({| vi_Title := Title item; vi_Artist := Artist item;
            vi_Thumbnail := Thumbnail item; vi_Duration := Duration item |},
         videoID).

(** ** Stage 1.5: check for an existing file (skip detection) *)

Definition outputDirOf (w : World) (cfg : Config) : string :=
  if OutputDirectory cfg =? "" then w_GetDefaultOutputDirectory w
  else OutputDirectory cfg.

Definition existingTargetPath (w : World) (cfg : Config)
    (videoInfo : VideoInfo) (item : QueueItem)
    (existingFile : FileIndexEntry) : string :=
  let P := w_paths w in
  let outputDir := outputDirOf w cfg in
  let outputDir :=
    if negb (PlaylistName item =? "")
    then Join P outputDir (SanitizeFileName P (PlaylistName item))
    else outputDir in
  let muxMetadata :=
    {| md_Title := vi_Title videoInfo; md_Artist := vi_Artist videoInfo;
       md_Album := ""; md_Thumbnail := ""; md_Duration := 0%Q;
       md_Track := PlaylistPosition item |} in
  let existingExt := Ext P (fie_Path existingFile) in
  let existingExt := if existingExt =? "" then ".mkv" else existingExt in
  if (PlaylistPosition item >? 0)%Z
  then w_GeneratePlaylistFilePath w muxMetadata outputDir existingExt
  else w_GenerateFilePath w muxMetadata (NamingTemplate cfg) outputDir
                          existingExt.

Definition completedEvent (id : string) : QueueEvent :=
  {| ev_Type := "completed"; ev_ItemID := id; ev_Item := None;
     ev_Progress := 100; ev_Status := StatusComplete |}.

(** The stage yields the local variable [item], which it re-reads from the
    queue once a match is found. *)
Definition checkExistingFile (w : World) (cfg : Config) (id : string)
    (videoInfo : VideoInfo) (item : QueueItem) : M QueueItem :=
  checkpoint w CpExisting;;
  q <- readQueue;;
  match fileIndex q with
  | None => ret item
  | Some index =>
      if vi_Title videoInfo =? "" then ret item
      else
        call (CallFindMatch (vi_Title videoInfo) (vi_Artist videoInfo));;
        match w_FindMatch w index (vi_Title videoInfo) (vi_Artist videoInfo)
        with
        | None => ret item
        | Some existingFile =>
            UpdateStatus id StatusOrganizing 80 "Found existing file...";;
            current <- getItem id;;
            match current with
            | None => panic
            | Some item =>
                let targetPath :=
                  existingTargetPath w cfg videoInfo item existingFile in
                if fie_Path existingFile =? targetPath then
                  updateItem id [AStatus StatusComplete; AProgress 100;
                                 AStage "Skipped (already exists)";
                                 AOutputPath (fie_Path existingFile);
                                 ACompletedAt (w_now w)];;
                  emit (completedEvent id);;
                  return_
                else
                  UpdateStatus id StatusOrganizing 90
                               "Copying existing file...";;
                  call (CallCopyFile (fie_Path existingFile) targetPath);;
                  if w_copyFile w (fie_Path existingFile) targetPath then
                    indexAddEntry
                      {| fie_Path := targetPath;
                         fie_Title := vi_Title videoInfo;
                         fie_Artist := vi_Artist videoInfo;
                         fie_Duration := fie_Duration existingFile;
                         fie_Size := fie_Size existingFile;
                         fie_IndexedAt := w_now w |};;
                    call CallIndexSave;;
                    updateItem id [AStatus StatusComplete; AProgress 100;
                                   AStage "Copied from existing";
                                   AOutputPath targetPath;
                                   ACompletedAt (w_now w)];;
                    emit (completedEvent id);;
                    return_
                  else ret item
            end
        end
  end.

(** ** Stage 2: download the video *)

(** Yields [videoPath] and [audioOnly]. *)
Definition downloadVideo (w : World) (cfg : Config) (id videoID : string)
    (tempDir : string) : M (string * bool) :=
  checkpoint w CpVideo;;
  UpdateStatus id StatusDownloadingVideo 10 "Downloading video...";;
  call (CallDownloadVideo videoID (VideoQuality cfg) tempDir
                          (CookiesBrowser cfg));;
  match w_DownloadVideo w videoID (VideoQuality cfg) tempDir
                        (CookiesBrowser cfg) with
  | None =>
      UpdateStatus id StatusDownloadingAudio 40
                   "Video unavailable, downloading audio only...";;
      updateItem id [AAudioOnly true];;
      ret ("", true)
  | Some videoPath =>
      UpdateStatus id StatusDownloadingVideo 40 "Video downloaded";;
      updateItem id [AVideoPath videoPath];;
      ret (videoPath, false)
  end.

(** ** Stage 3: find and download the audio *)

(** The [switch source] that picks the resolved URL. *)
Definition sourceURL (links : SongLinks) (source : string) : string :=
  if source =? "tidal" then TidalURL links
  else if source =? "qobuz" then QobuzURL links
  else if source =? "amazon" then AmazonURL links
  else if source =? "deezer" then DeezerURL links
  else "".

(** The service cascade for one source: [result] after the three steps. *)
Definition tryServices (w : World) (id source downloadURL tempDir : string)
  : M (option AudioDownloadResult) :=
  (* 1. TidalHifi first, for Tidal URLs *)
  result <- (if source =? "tidal" then
               call (CallIsAvailable TidalHifi);;
               if w_IsAvailable w TidalHifi then
                 UpdateStatus id StatusDownloadingAudio 51
                              "Downloading FLAC from Tidal...";;
                 call (CallDownload TidalHifi downloadURL tempDir "flac");;
                 ret (w_Download w TidalHifi downloadURL tempDir "flac")
               else ret None
             else ret None);;
  (* 2. Lucida, if TidalHifi failed or the source is not Tidal *)
  result <- (match result with
             | Some r => ret (Some r)
             | None =>
                 call (CallDownload Lucida downloadURL tempDir "flac");;
                 ret (w_Download w Lucida downloadURL tempDir "flac")
             end);;
  (* 3. OrpheusDL as last resort *)
  match result with
  | Some r => ret (Some r)
  | None =>
      call (CallIsAvailable Orpheus);;
      if w_IsAvailable w Orpheus then
        UpdateStatus id StatusDownloadingAudio 52
                     ("Trying OrpheusDL for " ++ source ++ "...");;
        call (CallDownload Orpheus downloadURL tempDir "flac");;
        ret (w_Download w Orpheus downloadURL tempDir "flac")
      else ret None
  end.

(** The loop over [config.AudioSourcePriority]; [n] counts the iterations.
    Yields the audio path when a download succeeded. *)
Fixpoint trySources (w : World) (id tempDir : string) (links : SongLinks)
    (sources : list string) (n : nat) : M (option string) :=
  match sources with
  | [] => ret None
  | source :: rest =>
      checkpoint w (CpSource n);;
      let downloadURL := sourceURL links source in
      if downloadURL =? "" then trySources w id tempDir links rest (S n)
      else
        UpdateStatus id StatusDownloadingAudio 50
                     ("Downloading from " ++ source ++ "...");;
        result <- tryServices w id source downloadURL tempDir;;
        match result with
        | Some r =>
            updateItem id [AAudioSource source;
                           AAudioPath (adr_FilePath r)];;
            ret (Some (adr_FilePath r))
        | None => trySources w id tempDir links rest (S n)
        end
  end.

(** Resolution through song.link and the download phase. *)
Definition resolveAndDownload (w : World) (cfg : Config) (id tempDir : string)
    (item : QueueItem) : M (option string) :=
  if negb (SpotifyURL item =? "") || negb (VideoURL item =? "") then
    UpdateStatus id StatusDownloadingAudio 45 "Resolving audio sources...";;
    let source := if negb (SpotifyURL item =? "") then SpotifyURL item
                  else VideoURL item in
    call (CallResolveMusicURL source);;
    match w_ResolveMusicURL w source with
    | Some links =>
        trySources w id tempDir links (AudioSourcePriority cfg) 0%nat
    | None => ret None
    end
  else ret None.

(** The TidalHifi search, tried when nothing was downloaded. *)
Definition searchFallback (w : World) (id tempDir : string)
    (videoInfo : VideoInfo) : M (option string) :=
  if negb (vi_Artist videoInfo =? "") && negb (vi_Title videoInfo =? "") then
    UpdateStatus id StatusDownloadingAudio 55 "Searching Tidal for track...";;
    call (CallIsAvailable TidalHifi);;
    if w_IsAvailable w TidalHifi then
      call (CallDownloadBySearch (vi_Artist videoInfo) (vi_Title videoInfo)
                                 tempDir);;
      match w_DownloadBySearch w (vi_Artist videoInfo) (vi_Title videoInfo)
                               tempDir with
      | Some r =>
          updateItem id [AAudioSource "tidal-search";
                         AAudioPath (adr_FilePath r)];;
          ret (Some (adr_FilePath r))
      | None => ret None
      end
    else ret None
  else ret None.

(** Extraction from the video, or the error when there is no video. *)
Definition extractFallback (w : World) (id tempDir videoPath : string)
  : M string :=
  if negb (videoPath =? "") then
    UpdateStatus id StatusDownloadingAudio 55
                 "Extracting audio from video...";;
    let audioPath := Join (w_paths w) tempDir "audio.mka" in
    call (CallExtractAudio videoPath audioPath);;
    if w_ExtractAudioStream w videoPath audioPath then
      updateItem id [AAudioSource "extracted"; AAudioPath audioPath];;
      ret audioPath
    else SetItemError id "failed to extract audio";; return_
  else
    SetItemError id
      "failed to download audio: no audio source available and video unavailable";;
    return_.

Definition findAndDownloadAudio (w : World) (cfg : Config)
    (id tempDir : string) (videoInfo : VideoInfo) (item : QueueItem)
    (videoPath : string) : M string :=
  checkpoint w CpAudio;;
  UpdateStatus id StatusDownloadingAudio 40 "Finding audio match...";;
  downloaded <- resolveAndDownload w cfg id tempDir item;;
  downloaded <- (match downloaded with
                 | Some p => ret (Some p)
                 | None => searchFallback w id tempDir videoInfo
                 end);;
  match downloaded with
  | Some audioPath => ret audioPath
  | None => extractFallback w id tempDir videoPath
  end.

(** ** Stage 4: mux video and audio *)

(** Yields [outputPath] and the mux result. *)
Definition muxStage (w : World) (cfg : Config) (id tempDir : string)
    (videoInfo : VideoInfo) (audioOnly : bool) : M (string * MuxResult) :=
  checkpoint w CpMux;;
  UpdateStatus id StatusMuxing 70 "Muxing video and audio...";;
  current <- getItem id;;
  match current with
  | None => panic
  | Some item =>
      let P := w_paths w in
      let outputDir := outputDirOf w cfg in
      let outputDir :=
        if negb (PlaylistName item =? "")
        then Join P outputDir (SanitizeFileName P (PlaylistName item))
        else outputDir in
      let muxMetadata :=
        {| md_Title := vi_Title videoInfo; md_Artist := vi_Artist videoInfo;
           md_Album := Album item; md_Thumbnail := vi_Thumbnail videoInfo;
           md_Duration := vi_Duration videoInfo;
           md_Track := PlaylistPosition item |} in
      let outputExt := if audioOnly then ".flac" else ".mkv" in
      let outputPath :=
        if (PlaylistPosition item >? 0)%Z
        then w_GeneratePlaylistFilePath w muxMetadata outputDir outputExt
        else w_GenerateFilePath w muxMetadata (NamingTemplate cfg)
                                outputDir outputExt in
      call (CallMkdirAll (Dir P outputPath));;
      if negb (w_MkdirAll w (Dir P outputPath)) then
        SetItemError id "failed to create output directory";; return_
      else
        call (CallCheckFileConflict outputPath);;
        let outputPath := if w_CheckFileConflict w outputPath
                          then w_ResolveConflict w outputPath
                          else outputPath in
        coverPath <-
          (if EmbedCoverArt cfg && negb (vi_Thumbnail videoInfo =? "") then
             let coverPath := Join P tempDir "cover.jpg" in
             call (CallDownloadPoster (vi_Thumbnail videoInfo) coverPath);;
             ret (if w_DownloadPoster w (vi_Thumbnail videoInfo) coverPath
                  then coverPath else "")
           else ret "");;
        if audioOnly then
          UpdateStatus id StatusMuxing 80 "Creating FLAC file...";;
          call (CallCreateFLAC (AudioPath item) outputPath coverPath);;
          match w_CreateFLACWithMetadata w (AudioPath item) outputPath
                                         muxMetadata coverPath with
          | None => SetItemError id "failed to create FLAC";; return_
          | Some result => ret (outputPath, result)
          end
        else
          UpdateStatus id StatusMuxing 80 "Creating MKV file...";;
          call (CallMuxVideoWithFLAC (VideoPath item) (AudioPath item)
                                     outputPath coverPath);;
          match w_MuxVideoWithFLAC w (VideoPath item) (AudioPath item)
                                   outputPath muxMetadata coverPath with
          | None => SetItemError id "failed to mux";; return_
          | Some result => ret (outputPath, result)
          end
  end.

(** ** Stage 4.5: fetch and embed lyrics *)

(** Modelled from the spec: the [LyricsEmbedMode] constants are not among
    the available sources; the configuration knows [lrc], [embed] and
    [both]. *)
Definition LyricsEmbedLRC  : string := "lrc".
Definition LyricsEmbedFile : string := "embed".
Definition LyricsEmbedBoth : string := "both".

Definition saveLyricsFile (lyrics : Lyrics) (path : string) : M unit :=
  if ly_HasSync lyrics then call (CallSaveLRCFile path)
  else if negb (ly_PlainText lyrics =? "")
       then call (CallSavePlainLyricsFile path)
       else ret tt.

Definition lyricsStage (w : World) (cfg : Config) (id : string)
    (videoInfo : VideoInfo) (result : MuxResult) : M unit :=
  checkpoint w CpLyrics;;
  if LyricsEnabled cfg && negb (vi_Artist videoInfo =? "")
     && negb (vi_Title videoInfo =? "") then
    UpdateStatus id StatusOrganizing 85 "Fetching lyrics...";;
    call (CallFetchLyrics (vi_Artist videoInfo) (vi_Title videoInfo));;
    match w_FetchLyrics w (vi_Artist videoInfo) (vi_Title videoInfo) with
    | None => ret tt
    | Some lyrics =>
        let embedMode := if LyricsEmbedMode cfg =? "" then LyricsEmbedLRC
                         else LyricsEmbedMode cfg in
        if embedMode =? LyricsEmbedFile then
          call (CallEmbedLyricsInFile (mr_OutputPath result))
        else if embedMode =? LyricsEmbedLRC then
          saveLyricsFile lyrics (mr_OutputPath result)
        else if embedMode =? LyricsEmbedBoth then
          saveLyricsFile lyrics (mr_OutputPath result);;
          call (CallEmbedLyricsInFile (mr_OutputPath result))
        else ret tt
    end
  else ret tt.

(** ** Stage 5: organize and generate the NFO *)

(** [outputPath[:len(outputPath)-4]], which panics on a shorter string. *)
Definition dropLast4 (s : string) : option string :=
  if (String.length s <? 4)%nat then None
  else Some (substring 0 (String.length s - 4) s).

Definition organizeStage (w : World) (cfg : Config) (id : string)
    (videoInfo : VideoInfo) (outputPath : string) (result : MuxResult)
  : M unit :=
  checkpoint w CpOrganize;;
  UpdateStatus id StatusOrganizing 90 "Organizing files...";;
  (if GenerateNFO cfg then
     match dropLast4 outputPath with
     | None => panic
     | Some base =>
         call (CallGetMediaInfo (mr_OutputPath result));;
         call (CallWriteNFO (base ++ ".nfo"))
     end
   else ret tt);;
  if negb (vi_Thumbnail videoInfo =? "") then
    match dropLast4 outputPath with
    | None => panic
    | Some base =>
        call (CallDownloadPoster (vi_Thumbnail videoInfo)
                                 (base ++ "-poster.jpg"))
    end
  else ret tt.

(** ** Completion *)

Definition statSize (w : World) (path : string) : Z :=
  match w_Stat w path with
  | Some n => n
  | None => 0
  end.

Definition completeStage (w : World) (id : string) (videoInfo : VideoInfo)
    (result : MuxResult) : M unit :=
  q <- readQueue;;
  (match fileIndex q with
   | None => ret tt
   | Some _ =>
       call (CallStat (mr_OutputPath result));;
       indexAddEntry
         {| fie_Path := mr_OutputPath result;
            fie_Title := vi_Title videoInfo;
            fie_Artist := vi_Artist videoInfo;
            fie_Duration := vi_Duration videoInfo;
            fie_Size := statSize w (mr_OutputPath result);
            fie_IndexedAt := w_now w |};;
       call CallIndexSave
   end);;
  call (CallStat (mr_OutputPath result));;
  updateItem id [AStatus StatusComplete; AProgress 100; AStage "Complete";
                 AOutputPath (mr_OutputPath result);
                 AFileSize (statSize w (mr_OutputPath result));
                 ACompletedAt (w_now w)];;
  q <- readQueue;;
  (match history q with
   | None => ret tt
   | Some _ =>
       current <- getItem id;;
       match current with
       | None => ret tt
       | Some item => historyAdd item "complete"
       end
   end);;
  emit (completedEvent id).

(** ** The whole function *)

(** The locked loop at the head of [processItem]: an item that is not
    pending ends the call; a pending one is claimed. *)
Definition claimItem (w : World) (id : string) : M unit := fun s =>
  match find_item id (items (queue s)) with
  | None => (Go tt, s)
  | Some it =>
      if negb (Status it =? StatusPending) then (Returned, s)
      else
        (Go tt,
         {| queue :=
              set_items
                (update_first id
                   (fun i => set_Stage "Fetching video info..."
                               (set_StartedAt (w_now w)
                                  (set_Status StatusFetchingInfo i)))
                   (items (queue s)))
                (queue s);
            events := events s; mutations := mutations s;
            calls := calls s |})
  end.

(** Stages 2 to 6, once the video is known. *)
Definition downloadAndFinish (w : World) (cfg : Config)
    (id tempDir videoID : string) (videoInfo : VideoInfo)
    (item : QueueItem) : M unit :=
  video <- downloadVideo w cfg id videoID tempDir;;
  let '(videoPath, audioOnly) := video in
  _audioPath <- findAndDownloadAudio w cfg id tempDir videoInfo item
                                     videoPath;;
  muxed <- muxStage w cfg id tempDir videoInfo audioOnly;;
  let '(outputPath, result) := muxed in
  lyricsStage w cfg id videoInfo result;;
  organizeStage w cfg id videoInfo outputPath result;;
  completeStage w id videoInfo result.

Definition stages (w : World) (cfg : Config) (id tempDir : string)
    (item : QueueItem) : M unit :=
  info <- fetchVideoInfo w id item;;
  let '(videoInfo, videoID) := info in
  item <- checkExistingFile w cfg id videoInfo item;;
  downloadAndFinish w cfg id tempDir videoID videoInfo item.

Definition processItem (w : World) (id : string) : M unit :=
  claimItem w id;;
  current <- getItem id;;
  match current with
  | None => return_
  | Some item =>
      emit {| ev_Type := "updated"; ev_ItemID := id; ev_Item := Some item;
              ev_Progress := 0; ev_Status := "" |};;
      q <- readQueue;;
      let cfg := match config q with
                 | Some c => c
                 | None => w_defaultConfig w
                 end in
      let tempDir := Join (w_paths w)
                          (Join (w_paths w) (w_TempDir w) "youflac") id in
      call (CallMkdirAll tempDir);;
      if negb (w_MkdirAll w tempDir) then
        SetItemError id "failed to create temp dir";; return_
      else
        defer (call (CallRemoveAll tempDir)) (stages w cfg id tempDir item)
  end.

(** One run on a queue, from empty logs. *)
Definition runItem (w : World) (id : string) (q : Queue) : RunState :=
  (processItem w id (startRun q)).2.



Definition calls_in_order (s : RunState) : list Call := rev (calls s).

(* ===================================================================== *)
(** * Scenarios for the examples *)
(* ===================================================================== *)

Definition demoConfig : Config :=
  {| OutputDirectory := "/music"; VideoQuality := "best";
     NamingTemplate := "{artist} - {title}";
     AudioSourcePriority := ["tidal"; "qobuz"; "amazon"; "deezer"];
     GenerateNFO := true; EmbedCoverArt := true; LyricsEnabled := false;
     LyricsEmbedMode := ""; CookiesBrowser := "" |}.

(** What the outside world answers in an example run. *)
Record Scenario := {
  sc_priority  : list string;
  sc_existing  : option FileIndexEntry;   (* the hit of FindMatch *)
  sc_copy      : bool;                    (* copyFile succeeds *)
  sc_video     : bool;                    (* DownloadVideo succeeds *)
  sc_links     : option SongLinks;        (* ResolveMusicURL *)
  sc_available : Service -> bool;
  sc_download  : Service -> bool;         (* Download succeeds *)
  sc_search    : bool;                    (* DownloadBySearch succeeds *)
  sc_extract   : bool;
  sc_mux       : bool                     (* the muxer / FLAC writer *)
}.

Definition demoWorld (sc : Scenario) : World :=
  {| w_paths := demoPaths;
     w_now := 1000;
     w_TempDir := "/tmp";
     w_defaultConfig :=
       {| OutputDirectory := "/music"; VideoQuality := "best";
          NamingTemplate := "{artist} - {title}";
          AudioSourcePriority := sc_priority sc;
          GenerateNFO := true; EmbedCoverArt := true;
          LyricsEnabled := false; LyricsEmbedMode := "";
          CookiesBrowser := "" |};
     w_ctxDone := fun _ => false;
     w_MkdirAll := fun _ => true;
     w_ParseYouTubeURL := fun _ => Some "abc";
     w_GetVideoMetadata := fun _ =>
       Some {| vi_Title := "Bohemian Rhapsody"; vi_Artist := "Queen";
               vi_Thumbnail := ""; vi_Duration := 354%Q |};
     w_FindMatch := fun _ _ _ => sc_existing sc;
     w_GetDefaultOutputDirectory := "/music";
     w_GeneratePlaylistFilePath := fun m dir ext =>
       dir ++ "/" ++ md_Artist m ++ " - " ++ md_Title m ++ ext;
     w_GenerateFilePath := fun m _ dir ext =>
       dir ++ "/" ++ md_Artist m ++ " - " ++ md_Title m ++ ext;
     w_copyFile := fun _ _ => sc_copy sc;
     w_DownloadVideo := fun _ _ dir _ =>
       if sc_video sc then Some (dir ++ "/video.mkv") else None;
     w_ResolveMusicURL := fun _ => sc_links sc;
     w_IsAvailable := sc_available sc;
     w_Download := fun s _ dir _ =>
       if sc_download sc s
       then Some {| adr_FilePath := dir ++ "/" ++ service_name s ++ ".flac";
                    adr_Format := "flac"; adr_Size := 1024 |}
       else None;
     w_DownloadBySearch := fun _ _ dir =>
       if sc_search sc
       then Some {| adr_FilePath := dir ++ "/search.flac";
                    adr_Format := "flac"; adr_Size := 1024 |}
       else None;
     w_ExtractAudioStream := fun _ _ => sc_extract sc;
     w_CheckFileConflict := fun _ => false;
     w_ResolveConflict := fun p => p;
     w_DownloadPoster := fun _ _ => true;
     w_CreateFLACWithMetadata := fun _ out _ _ =>
       if sc_mux sc then Some {| mr_OutputPath := out |} else None;
     w_MuxVideoWithFLAC := fun _ _ out _ _ =>
       if sc_mux sc then Some {| mr_OutputPath := out |} else None;
     w_FetchLyrics := fun _ _ => None;
     w_Stat := fun _ => Some 4096 |}.

(** Everything works: the resolver knows the track on all four platforms
    and every service is up. *)
Definition allLinks : SongLinks :=
  {| TidalURL := "https://tidal.com/track/1";
     QobuzURL := "https://qobuz.com/track/1";
     AmazonURL := "https://amazon.com/track/1";
     DeezerURL := "https://deezer.com/track/1" |}.

Definition sunnyDay : Scenario :=
  {| sc_priority := ["tidal"; "qobuz"; "amazon"; "deezer"];
     sc_existing := None; sc_copy := true; sc_video := true;
     sc_links := Some allLinks;
     sc_available := fun _ => true; sc_download := fun _ => true;
     sc_search := true; sc_extract := true; sc_mux := true |}.

(** A queue holding one pending item, with or without a file index. *)
Definition demoQueue (index : option (list FileIndexEntry)) : Queue :=
  {| items := [set_Title "" (set_Artist "" (demoItem "job-1" StatusPending))];
     config := None; fileIndex := index; history := None |}.

(* ===================================================================== *)
(** * Vocabulary of the statements *)
(* ===================================================================== *)





(** A specification of a step: from a state satisfying [P], the step ends
    with an outcome and a state satisfying [Q]. *)
Definition hoare {A} (P : RunState -> Prop) (m : M A)
    (Q : Outcome A -> RunState -> Prop) : Prop :=
  forall s, P s -> Q (m s).1 (m s).2.



(** An older copy of the track lies elsewhere in the library, copying it
    fails, and no download service delivers; the Tidal search does. *)
Definition oldCopy : FileIndexEntry :=
  {| fie_Path := "/library/Queen - Bohemian Rhapsody.mkv";
     fie_Title := "Bohemian Rhapsody"; fie_Artist := "Queen";
     fie_Duration := 354%Q; fie_Size := 4096; fie_IndexedAt := 1 |}.


(** Only Qobuz knows the track; lucida does not answer its health probe
    but serves the download; the other services are down. *)
Definition lucidaProbeDown : Scenario :=
  {| sc_priority := ["tidal"; "qobuz"; "amazon"; "deezer"];
     sc_existing := None; sc_copy := true; sc_video := true;
     sc_links := Some {| TidalURL := "";
                         QobuzURL := "https://qobuz.com/track/1";
                         AmazonURL := ""; DeezerURL := "" |};
     sc_available := fun _ => false;
     sc_download := fun s => match s with Lucida => true | _ => false end;
     sc_search := false; sc_extract := true; sc_mux := true |}.

(** The existing file already lies where the naming template puts it. *)
Definition inPlace : FileIndexEntry :=
  {| fie_Path := "/music/Queen - Bohemian Rhapsody.mkv";
     fie_Title := "Bohemian Rhapsody"; fie_Artist := "Queen";
     fie_Duration := 354%Q; fie_Size := 4096; fie_IndexedAt := 1 |}.

Definition alreadyInPlace : Scenario :=
  {| sc_priority := ["tidal"; "qobuz"; "amazon"; "deezer"];
     sc_existing := Some inPlace; sc_copy := true; sc_video := true;
     sc_links := Some allLinks;
     sc_available := fun _ => true; sc_download := fun _ => true;
     sc_search := true; sc_extract := true; sc_mux := true |}.

Definition copyWorks : Scenario :=
  {| sc_priority := ["tidal"; "qobuz"; "amazon"; "deezer"];
     sc_existing := Some oldCopy; sc_copy := true; sc_video := true;
     sc_links := Some allLinks;
     sc_available := fun _ => true; sc_download := fun _ => true;
     sc_search := true; sc_extract := true; sc_mux := true |}.


(** The video cannot be downloaded and no audio service delivers. *)
Definition nothingWorks : Scenario :=
  {| sc_priority := ["tidal"; "qobuz"; "amazon"; "deezer"];
     sc_existing := None; sc_copy := true; sc_video := false;
     sc_links := Some allLinks;
     sc_available := fun _ => true; sc_download := fun _ => false;
     sc_search := false; sc_extract := true; sc_mux := true |}.


(** ** Vocabulary for the audio-only fall-back *)

Definition noAudioMessage : string :=
  "failed to download audio: no audio source available and video unavailable".

(** A download call that yielded no file. *)
Definition failed_call (w : World) (c : Call) : Prop :=
  match c with
  | CallDownload svc url dir fmt => w_Download w svc url dir fmt = None
  | CallDownloadBySearch a t d => w_DownloadBySearch w a t d = None
  | _ => True
  end.

(** Every download attempted since the log was [base] yielded no file. *)
Definition downloads_failed_since (w : World) (base l : list Call) : Prop :=
  exists new, l = (new ++ base)%list /\ Forall (failed_call w) new.











(** The second end-to-end scenario: the resolver knows the track on Amazon
    and Deezer only. *)
Definition onlyAmazon : Scenario :=
  {| sc_priority := ["tidal"; "qobuz"; "amazon"; "deezer"];
     sc_existing := None; sc_copy := true; sc_video := true;
     sc_links := Some {| TidalURL := ""; QobuzURL := "";
                         AmazonURL := "https://amazon.com/track/1";
                         DeezerURL := "https://deezer.com/track/1" |};
     sc_available := fun _ => true; sc_download := fun _ => true;
     sc_search := true; sc_extract := true; sc_mux := true |}.

(** The third end-to-end scenario: every service fails, the video is
    there. *)
Definition servicesFail : Scenario :=
  {| sc_priority := ["tidal"; "qobuz"; "amazon"; "deezer"];
     sc_existing := None; sc_copy := true; sc_video := true;
     sc_links := Some allLinks;
     sc_available := fun _ => true; sc_download := fun _ => false;
     sc_search := false; sc_extract := true; sc_mux := true |}.
(* ===================================================================== *)
(** * Counting items by status *)
(* ===================================================================== *)

(** The number of items whose status satisfies [p]. *)
Definition count_status (p : QueueStatus -> bool) (l : list QueueItem) : Z :=
  Z.of_nat (length (List.filter (fun it => p (Status it)) l)).

(** A status that is one of the nine constants. *)
Definition is_defined (s : QueueStatus) : bool :=
  existsb (String.eqb s) defined_statuses.

(** The five classes of the [switch] in [GetStats], in the order of its
    cases, and what it is for a status to belong to exactly one of them. *)
Definition status_classes (s : QueueStatus) : list bool :=
  [s =? StatusPending; in_flight s; s =? StatusComplete; s =? StatusError;
   s =? StatusCancelled].

Definition in_one_class (s : QueueStatus) : Prop :=
  length (List.filter (fun b : bool => b) (status_classes s)) = 1%nat.

(* ===================================================================== *)
(** * What a run of [processItem] keeps *)
(* ===================================================================== *)

(** The fields of an item no step of the pipeline assigns. *)
Definition same_identity (a b : QueueItem) : Prop :=
  ID b = ID a /\ VideoURL b = VideoURL a /\ SpotifyURL b = SpotifyURL a /\
  Album b = Album a /\ PlaylistName b = PlaylistName a /\
  PlaylistPosition b = PlaylistPosition a /\
  MatchCandidates b = MatchCandidates a /\
  MatchDiagnostics_ b = MatchDiagnostics_ a.

(** The audio sources the pipeline records. *)
Definition pipeline_sources : list string :=
  ["tidal"; "qobuz"; "amazon"; "deezer"; "tidal-search"; "extracted"].

(** The item [b] the pipeline has made of the item [a]: the identity is
    kept, the audio source and the progress are untouched or among the
    values the pipeline assigns, and the audio-only mark is never taken
    back. *)
Definition item_kept (a b : QueueItem) : Prop :=
  same_identity a b /\
  (AudioSource b = AudioSource a \/ In (AudioSource b) pipeline_sources) /\
  (Progress b = Progress a \/ 5 <= Progress b <= 100) /\
  (AudioOnly a = true -> AudioOnly b = true).

(** The assignments that keep an item in this sense. *)
Definition assign_ok (a : Assign) : Prop :=
  match a with
  | AProgress p => 5 <= p <= 100
  | AAudioSource v => In v pipeline_sources
  | AAudioOnly v => v = true
  | _ => True
  end.

(** The item list [l] is [items0] with the first item of the given ID
    replaced by a kept version of it. *)
Definition run_frame (id : string) (items0 l : list QueueItem) : Prop :=
  exists f, (forall it, item_kept it (f it)) /\ l = update_first id f items0.

(** The messages [processItem] hands to [SetItemError], without the wrapped
    cause. *)
Definition pipeline_errors : list string :=
  ["failed to create temp dir"; "invalid YouTube URL";
   "failed to fetch video info"; "failed to extract audio";
   "failed to download audio: no audio source available and video unavailable";
   "failed to create output directory"; "failed to create FLAC";
   "failed to mux"].

Definition is_completed (e : QueueEvent) : bool := ev_Type e =? "completed".

Definition completed_events (s : RunState) : list QueueEvent :=
  List.filter is_completed (events s).

(** During a run the item is in flight and no completion has been
    published. *)
Definition running (id : string) (s : RunState) : Prop :=
  match GetItem (queue s) id with
  | Some it => in_flight (Status it) = true
  | None => True
  end /\ completed_events s = [].

(** How a run leaves its item: still in flight (the run was cancelled at a
    checkpoint or panicked), complete with progress 100 and exactly one
    completion published, or in error with one of the pipeline's messages
    and no completion published. *)
Definition item_ended (w : World) (id : string) (it : QueueItem)
    (s : RunState) : Prop :=
  (in_flight (Status it) = true /\ completed_events s = [])
  \/ (Status it = StatusComplete /\ Progress it = 100 /\
      CompletedAt it = w_now w /\ completed_events s = [completedEvent id])
  \/ (Status it = StatusError /\ In (Error it) pipeline_errors /\
      completed_events s = []).

Definition ended (w : World) (id : string) (s : RunState) : Prop :=
  match GetItem (queue s) id with
  | Some it => item_ended w id it s
  | None => True
  end.

(** The discipline of the calls of a run with the temporary directory
    [tempDir]: the health of lucida is never probed; every download asks for
    FLAC, into [tempDir], with a non-empty URL; the search is made with an
    artist and a title; the audio is extracted only from a video file, into
    [tempDir]; only [tempDir] is removed. *)
Definition call_ok (w : World) (tempDir : string) (c : Call) : Prop :=
  match c with
  | CallIsAvailable svc => svc <> Lucida
  | CallDownload _ url dir fmt => url <> "" /\ dir = tempDir /\ fmt = "flac"
  | CallDownloadBySearch a t dir => a <> "" /\ t <> "" /\ dir = tempDir
  | CallExtractAudio v a =>
      v <> "" /\ a = Join (w_paths w) tempDir "audio.mka"
  | CallDownloadVideo _ _ dir _ => dir = tempDir
  | CallRemoveAll p => p = tempDir
  | _ => True
  end.

(** The calls made since the log was [base] keep the discipline. *)
Definition calls_since (w : World) (tempDir : string) (base l : list Call)
  : Prop :=
  exists new, l = (new ++ base)%list /\ Forall (call_ok w tempDir) new.

(** What every step of a run maintains. *)
Definition run_base (w : World) (id tempDir : string) (q0 : Queue)
    (base : list Call) (s : RunState) : Prop :=
  run_frame id (items q0) (items (queue s)) /\
  config (queue s) = config q0 /\
  calls_since w tempDir base (calls s).

Definition run_going (w : World) (id tempDir : string) (q0 : Queue)
    (base : list Call) (s : RunState) : Prop :=
  run_base w id tempDir q0 base s /\ running id s.

Definition run_over (w : World) (id tempDir : string) (q0 : Queue)
    (base : list Call) (s : RunState) : Prop :=
  run_base w id tempDir q0 base s /\ ended w id s.

(** A step goes on in a state satisfying [I] or ends the run in a state
    satisfying [E]. *)
Definition inv_post {A} (I E : RunState -> Prop) (o : Outcome A)
    (s : RunState) : Prop :=
  match o with
  | Go _ => I s
  | _ => E s
  end.

(** The temporary directory of a run. *)
Definition tempDirOf (w : World) (id : string) : string :=
  Join (w_paths w) (Join (w_paths w) (w_TempDir w) "youflac") id.

(** The claim of a pending item at the head of [processItem], and the state
    in which the stages start: the item claimed, the first event published,
    the creation of the temporary directory attempted. *)
Definition claimed (w : World) (it : QueueItem) : QueueItem :=
  set_Stage "Fetching video info..."
    (set_StartedAt (w_now w) (set_Status StatusFetchingInfo it)).

Definition afterClaim (w : World) (id : string) (s0 : RunState)
    (item : QueueItem) : RunState :=
  {| queue := set_items (update_first id (claimed w) (items (queue s0)))
                        (queue s0);
     events := {| ev_Type := "updated"; ev_ItemID := id;
                  ev_Item := Some item; ev_Progress := 0;
                  ev_Status := "" |} :: events s0;
     mutations := mutations s0;
     calls := CallMkdirAll (tempDirOf w id) :: calls s0 |}.

(** The calls a run makes before its first checkpoint, and its clean-up. *)
Definition local_call (c : Call) : Prop :=
  match c with
  | CallMkdirAll _ | CallParseYouTubeURL _ | CallRemoveAll _ => True
  | _ => False
  end.

(* ===================================================================== *)
(** * Files at the level of handles ([copyFile], [downloadFile]) *)
(* ===================================================================== *)

(** The calls of [os], [io] and [os/exec] that work on files. *)
Inductive SysOp :=
| SysOpen     (path : string)               (* os.Open *)
| SysMkdirAll (path : string)               (* os.MkdirAll *)
| SysCreate   (path : string)               (* os.Create *)
| SysCopy     (path : string)               (* io.Copy into the open file *)
| SysSync     (path : string)               (* File.Sync *)
| SysRemove   (path : string)               (* os.Remove *)
| SysRename   (oldpath newpath : string)    (* os.Rename *)
| SysStat     (path : string)               (* os.Stat *)
| SysCreateTemp (pattern : string)          (* os.CreateTemp *)
| SysWriteString (path : string)            (* File.WriteString *)
| SysLookPath (file : string)               (* exec.LookPath *)
| SysRun      (program : string) (args : list string). (* exec.Cmd.Run *)

(** The machine: the files, the calls that fail, what an interrupted copy
    has written by the time it fails, the programs found on the search
    path, the names chosen for temporary files, what a program does to the
    files, and the log of the calls made. *)
Record Machine := {
  m_files    : gmap string string;
  m_fails    : SysOp -> bool;
  m_torn     : option string -> string;
  m_lookPath : string -> option string;
  m_tempName : string -> string;
  m_exec     : string -> list string -> gmap string string
               -> gmap string string;
  m_log      : list SysOp
}.

Definition sys_issue (op : SysOp) (files : gmap string string) (m : Machine)
  : Machine :=
  {| m_files := files; m_fails := m_fails m; m_torn := m_torn m;
     m_lookPath := m_lookPath m; m_tempName := m_tempName m;
     m_exec := m_exec m; m_log := m_log m ++ [op] |}.

(** [os.Open]: the file must exist. *)
Definition sys_Open (path : string) (m : Machine) : bool * Machine :=
  let op := SysOpen path in
  (match m_files m !! path with
   | Some _ => negb (m_fails m op)
   | None => false
   end, sys_issue op (m_files m) m).

Definition sys_MkdirAll (path : string) (m : Machine) : bool * Machine :=
  let op := SysMkdirAll path in
  (negb (m_fails m op), sys_issue op (m_files m) m).

(** [os.Create]: the file is created, or truncated if it exists. *)
Definition sys_Create (path : string) (m : Machine) : bool * Machine :=
  let op := SysCreate path in
  if m_fails m op then (false, sys_issue op (m_files m) m)
  else (true, sys_issue op (<[path := ""]> (m_files m)) m).

(** [io.Copy] into the file just created at [path]; [data] is what the
    reader delivers, [None] when reading fails on the way.  A failed copy
    leaves what it had written. *)
Definition sys_Copy (path : string) (data : option string) (m : Machine)
  : bool * Machine :=
  let op := SysCopy path in
  match data with
  | Some d =>
      if m_fails m op
      then (false, sys_issue op (<[path := m_torn m data]> (m_files m)) m)
      else (true, sys_issue op (<[path := d]> (m_files m)) m)
  | None => (false, sys_issue op (<[path := m_torn m data]> (m_files m)) m)
  end.

Definition sys_Sync (path : string) (m : Machine) : bool * Machine :=
  let op := SysSync path in
  (negb (m_fails m op), sys_issue op (m_files m) m).

Definition sys_Remove (path : string) (m : Machine) : bool * Machine :=
  let op := SysRemove path in
  match m_files m !! path with
  | Some _ =>
      if m_fails m op then (false, sys_issue op (m_files m) m)
      else (true, sys_issue op (delete path (m_files m)) m)
  | None => (false, sys_issue op (m_files m) m)
  end.

(** [os.Stat]: the size of the file, when there is one. *)
Definition sys_Stat (path : string) (m : Machine) : option Z * Machine :=
  let op := SysStat path in
  (match m_files m !! path with
   | Some d => if m_fails m op then None
               else Some (Z.of_nat (String.length d))
   | None => None
   end, sys_issue op (m_files m) m).

(** What a reader opened on [path] delivers now. *)
Definition read_handle (path : string) (m : Machine) : option string :=
  m_files m !! path.

(** [copyFile] (queue_persistence.go).  The error names the call that
    failed. *)
Definition copyFile (P : PathLib) (src dst : string) (m : Machine)
  : option string * Machine :=
  match sys_Open src m with
  | (false, m1) => (Some "open", m1)
  | (true, m1) =>
      match sys_MkdirAll (Dir P dst) m1 with
      | (false, m2) => (Some "mkdir", m2)
      | (true, m2) =>
          match sys_Create dst m2 with
          | (false, m3) => (Some "create", m3)
          | (true, m3) =>
              match sys_Copy dst (read_handle src m3) m3 with
              | (false, m4) => (Some "copy", m4)
              | (true, m4) =>
                  match sys_Sync dst m4 with
                  | (false, m5) => (Some "sync", m5)
                  | (true, m5) => (None, m5)
                  end
              end
          end
      end
  end.

(** [copyFile] on a machine where a file may go by several paths (links,
    [.] and [..], doubled slashes): [file p] is the file the path [p]
    names, the files are kept under these names, and each call works on the
    file its path names.  [copyFile] above is the case in which every path
    is the name of its file. *)
Definition copyFile_on (file : string -> string) (P : PathLib)
    (src dst : string) (m : Machine) : option string * Machine :=
  match sys_Open (file src) m with
  | (false, m1) => (Some "open", m1)
  | (true, m1) =>
      match sys_MkdirAll (Dir P dst) m1 with
      | (false, m2) => (Some "mkdir", m2)
      | (true, m2) =>
          match sys_Create (file dst) m2 with
          | (false, m3) => (Some "create", m3)
          | (true, m3) =>
              match sys_Copy (file dst) (read_handle (file src) m3) m3 with
              | (false, m4) => (Some "copy", m4)
              | (true, m4) =>
                  match sys_Sync (file dst) m4 with
                  | (false, m5) => (Some "sync", m5)
                  | (true, m5) => (None, m5)
                  end
              end
          end
      end
  end.

(** A directory in which [/music/./a.mkv] is another spelling of
    [/music/a.mkv]. *)
Definition demoFile (p : string) : string :=
  if p =? "/music/./a.mkv" then "/music/a.mkv" else p.

(** A machine on which nothing fails, without [mkvpropedit]; programs
    leave the files alone. *)
Definition demoMachine (files : gmap string string) : Machine :=
  {| m_files := files; m_fails := fun _ => false;
     m_torn := fun _ => ""; m_lookPath := fun _ => None;
     m_tempName := fun pattern => "/tmp/" ++ pattern;
     m_exec := fun _ _ files => files; m_log := [] |}.

(** The same machine with a disk on which no copy gets through. *)
Definition fullDisk (files : gmap string string) : Machine :=
  {| m_files := files;
     m_fails := fun op => match op with
                          | SysCopy _ => true
                          | _ => false
                          end;
     m_torn := fun _ => "<vi"; m_lookPath := fun _ => None;
     m_tempName := fun pattern => "/tmp/" ++ pattern;
     m_exec := fun _ _ files => files; m_log := [] |}.

(* ===================================================================== *)
(** * Downloading through lucida ([Download], [downloadFile]) *)
(* ===================================================================== *)

(** [strings.ToLower]. *)
Record GoStrings := { ToLower : string -> string }.

(** [LucidaService.SupportsFormat]. *)
Definition SupportsFormat (G : GoStrings) (l : LucidaService)
    (format : string) : bool :=
  let supported := ["flac"; "mp3"; "wav"; "aac"; "ogg"] in
  let format := ToLower G format in
  existsb (fun f => f =? format) supported.

(** The four variables [Download] fills in while it looks for a format:
    [downloadURL], [downloadFormat], [downloadSize], [quality]. *)
Record Selection := {
  sel_URL : string; sel_Format : string; sel_Size : Z; sel_Quality : string
}.

Definition noSelection : Selection :=
  {| sel_URL := ""; sel_Format := ""; sel_Size := 0; sel_Quality := "" |}.

Definition select (f : LucidaFormat) : Selection :=
  {| sel_URL := lf_URL f; sel_Format := lf_Format f; sel_Size := lf_Size f;
     sel_Quality := lf_Quality f |}.

(** [for _, f := range resp.Formats { if strings.ToLower(f.Format) == fmt
    { ...; break } }]: the variables are taken from the first entry of the
    format, and left alone when there is none. *)
Fixpoint first_of (G : GoStrings) (fmt : string)
    (formats : list LucidaFormat) (sel : Selection) : Selection :=
  match formats with
  | [] => sel
  | f :: rest => if ToLower G (lf_Format f) =? fmt then select f
                 else first_of G fmt rest sel
  end.

(** The loop over [priorities], left as soon as a URL is there. *)
Fixpoint fallback (G : GoStrings) (priorities : list string)
    (formats : list LucidaFormat) (sel : Selection) : Selection :=
  match priorities with
  | [] => sel
  | pf :: rest =>
      let sel := first_of G pf formats sel in
      if negb (sel_URL sel =? "") then sel
      else fallback G rest formats sel
  end.

(** The part of [Download] that picks the format; [format] has been put in
    lower case. *)
Definition chooseFormat (G : GoStrings) (format : string)
    (formats : list LucidaFormat) : Selection + string :=
  let sel := first_of G format formats noSelection in
  let sel := if (sel_URL sel =? "") && (format =? "flac")
             then fallback G ["flac"; "wav"; "mp3"] formats sel
             else sel in
  if sel_URL sel =? ""
  then inr ("format " ++ format ++ " not available for this track")
  else inl sel.

(** [downloadFile]: the error, the request sent, the machine afterwards. *)
Definition downloadFile (net : Network) (downloadURL outputPath : string)
    (m : Machine) : option string * list HttpRequest * Machine :=
  let req := ReqGet downloadURL in
  match net req with
  | HttpFailure => (Some "failed to start download", [req], m)
  | HttpResponse code body =>
      if negb (code =? 200)%Z
      then (Some ("download server returned " ++ pretty code), [req], m)
      else
        match sys_Create outputPath m with
        | (false, m1) => (Some "failed to create file", [req], m1)
        | (true, m1) =>
            match sys_Copy outputPath body m1 with
            | (false, m2) =>
                (Some "download interrupted", [req],
                 (sys_Remove outputPath m2).2)
            | (true, m2) => (None, [req], m2)
            end
        end
  end.

(** [AudioDownloadResult] with the track it carries. *)
Record DownloadedAudio := {
  da_FilePath : string;
  da_Track    : AudioTrackInfo;
  da_Format   : string;
  da_Size     : Z
}.

(** [LucidaService.Download]. *)
Definition Download (L : LucidaLib) (G : GoStrings) (P : PathLib)
    (net : Network) (l : LucidaService)
    (trackURL outputDir format : string) (m : Machine)
  : (DownloadedAudio + string) * list HttpRequest * Machine :=
  match fetchTrackData L net l trackURL with
  | (inr err, reqs) => (inr err, reqs, m)
  | (inl resp, reqs) =>
      let format := ToLower G format in
      match chooseFormat G format (lr_Formats resp) with
      | inr err => (inr err, reqs, m)
      | inl sel =>
          match sys_MkdirAll outputDir m with
          | (false, m1) =>
              (inr "failed to create output directory", reqs, m1)
          | (true, m1) =>
              let t := lr_Track resp in
              let safeTitle :=
                SanitizeFileName P (lt_Artist t ++ " - " ++ lt_Title t) in
              let outputPath :=
                Join P outputDir
                     (safeTitle ++ "." ++ ToLower G (sel_Format sel)) in
              match downloadFile net (sel_URL sel) outputPath m1 with
              | (Some _, reqs', m2) =>
                  (inr "download failed", (reqs ++ reqs')%list, m2)
              | (None, reqs', m2) =>
                  let '(stat, m3) := sys_Stat outputPath m2 in
                  let downloadSize := match stat with
                                      | Some n => n
                                      | None => sel_Size sel
                                      end in
                  (inl {| da_FilePath := outputPath;
                          da_Track :=
                            {| ati_ID := lt_ID t; ati_Title := lt_Title t;
                               ati_Artist := lt_Artist t;
                               ati_Album := lt_Album t;
                               ati_Duration := lt_Duration t;
                               ati_ISRC := lt_ISRC t;
                               ati_Platform := lt_Platform t;
                               ati_CoverURL := lt_CoverURL t;
                               ati_Quality := sel_Quality sel;
                               ati_ReleaseDate := lt_ReleaseDate t |};
                          da_Format := sel_Format sel;
                          da_Size := downloadSize |},
                   (reqs ++ reqs')%list, m3)
              end
          end
      end
  end.

(** The format list in the words of the fall-back comment: the first entry
    of each of the formats asked for, in the order of preference. *)
Definition first_entry (G : GoStrings) (fmt : string)
    (formats : list LucidaFormat) : option LucidaFormat :=
  List.find (fun f => ToLower G (lf_Format f) =? fmt) formats.

Definition usable (f : LucidaFormat) : bool := negb (lf_URL f =? "").

(** ASCII lower case, for the examples. *)
Definition lower_ascii (c : Ascii.ascii) : Ascii.ascii :=
  let n := Ascii.nat_of_ascii c in
  if ((65 <=? n) && (n <=? 90))%nat then Ascii.ascii_of_nat (n + 32) else c.

Fixpoint to_lower (s : string) : string :=
  match s with
  | EmptyString => EmptyString
  | String c s' => String (lower_ascii c) (to_lower s')
  end.

Definition asciiStrings : GoStrings := {| ToLower := to_lower |}.

(** The entry a request for FLAC settles on, in the words of the comments of
    [Download]: the first entry of FLAC, else of WAV, else of MP3, that
    comes with a URL. *)
Definition preferred_entry (G : GoStrings) (formats : list LucidaFormat)
  : option LucidaFormat :=
  List.find usable
    (flat_map (fun pf => match first_entry G pf formats with
                         | Some f => [f]
                         | None => []
                         end)
              ["flac"; "wav"; "mp3"]).

Definition notAvailable (format : string) : string :=
  "format " ++ format ++ " not available for this track".

(** A lucida that offers one track as WAV and as MP3, and the server the
    files lie on. *)
Definition offerLib : LucidaLib :=
  {| form_encode := fun u => "url=" ++ u;
     request_ok := fun _ => true;
     parse_response := fun body =>
       if body =? "<offer>"
       then Some {| lr_Success := true; lr_Error := "";
                    lr_Track := demoTrack;
                    lr_Formats :=
                      [{| lf_Format := "MP3"; lf_Quality := "320";
                          lf_Size := 10; lf_URL := "http://cdn/1.mp3" |};
                       {| lf_Format := "WAV"; lf_Quality := "lossless";
                          lf_Size := 40; lf_URL := "http://cdn/1.wav" |}] |}
       else None |}.

Definition offerNet : Network := fun r =>
  match r with
  | ReqPost _ _ => HttpResponse 200 (Some "<offer>")
  | ReqGet u => if u =? "http://cdn/1.wav"
                then HttpResponse 200 (Some "RIFF....WAVE")
                else HttpResponse 404 (Some "")
  | ReqHead _ => HttpResponse 200 (Some "")
  end.

(* ===================================================================== *)
(** * Metadata, cover art and chapters of a finished file
      (ffmpeg_metadata.go) *)
(* ===================================================================== *)

Definition sys_LookPath (file : string) (m : Machine)
  : option string * Machine :=
  let op := SysLookPath file in
  (m_lookPath m file, sys_issue op (m_files m) m).

(** [cmd.Run()]: the program does to the files what it does, and may fail
    all the same. *)
Definition sys_Run (program : string) (args : list string) (m : Machine)
  : bool * Machine :=
  let op := SysRun program args in
  (negb (m_fails m op),
   sys_issue op (m_exec m program args (m_files m)) m).

Definition sys_Rename (oldpath newpath : string) (m : Machine)
  : bool * Machine :=
  let op := SysRename oldpath newpath in
  match m_files m !! oldpath with
  | Some d =>
      if m_fails m op then (false, sys_issue op (m_files m) m)
      else (true,
            sys_issue op (<[newpath := d]> (delete oldpath (m_files m))) m)
  | None => (false, sys_issue op (m_files m) m)
  end.

(** [_, err := os.Stat(path); os.IsNotExist(err)]: only the absence of the
    file counts, no other failure of [Stat]. *)
Definition sys_NotExist (path : string) (m : Machine) : bool * Machine :=
  let op := SysStat path in
  (match m_files m !! path with
   | Some _ => false
   | None => true
   end, sys_issue op (m_files m) m).

(** [os.CreateTemp("", pattern)]: yields the name of the new, empty file. *)
Definition sys_CreateTemp (pattern : string) (m : Machine)
  : option string * Machine :=
  let op := SysCreateTemp pattern in
  if m_fails m op then (None, sys_issue op (m_files m) m)
  else (Some (m_tempName m pattern),
        sys_issue op (<[m_tempName m pattern := ""]> (m_files m)) m).

(** [File.WriteString] on a file that was just created. *)
Definition sys_WriteString (path data : string) (m : Machine)
  : bool * Machine :=
  let op := SysWriteString path in
  if m_fails m op
  then (false, sys_issue op (<[path := m_torn m (Some data)]> (m_files m)) m)
  else (true, sys_issue op (<[path := data]> (m_files m)) m).

(** A Go map is ranged over in an order the runtime chooses: [metadata] is
    the list of its entries in the order of the iteration. *)
Definition mkvpropedit_step (G : GoStrings) (args : list string)
    (kv : string * string) : list string :=
  let '(key, value) := kv in
  if negb (value =? "") then
    if ToLower G key =? "title"
    then let setting := "title=" ++ value in
         (args ++ ["--set"; setting])%list
    else args
  else args.

Definition embedMetadataMkvpropedit (G : GoStrings) (mkvPath : string)
    (metadata : list (string * string)) (mkvpropeditPath : string)
    (m : Machine) : option string * Machine :=
  let args := fold_left (mkvpropedit_step G) metadata
                        [mkvPath; "--edit"; "info"] in
  match sys_Run mkvpropeditPath args m with
  | (false, m1) => (Some "mkvpropedit failed", m1)
  | (true, m1) => (None, m1)
  end.

Definition ffmpeg_step (args : list string) (kv : string * string)
  : list string :=
  let '(key, value) := kv in
  if negb (value =? "")
  then let setting := key ++ "=" ++ value in
       (args ++ ["-metadata"; setting])%list
  else args.

(** [GetFFmpegPath] is not among the available sources: the path it yields
    is the argument [ffmpeg]. *)
Definition embedMetadataFFmpeg (ffmpeg mkvPath : string)
    (metadata : list (string * string)) (m : Machine)
  : option string * Machine :=
  let tempPath := mkvPath ++ ".tmp" in
  let args := fold_left ffmpeg_step metadata
                        ["-y"; "-i"; mkvPath; "-c"; "copy"] in
  let args := (args ++ [tempPath])%list in
  match sys_Run ffmpeg args m with
  | (false, m1) =>
      (Some "ffmpeg metadata failed", (sys_Remove tempPath m1).2)
  | (true, m1) =>
      match sys_Rename tempPath mkvPath m1 with
      | (false, m2) =>
          (Some "failed to replace file", (sys_Remove tempPath m2).2)
      | (true, m2) => (None, m2)
      end
  end.

Definition EmbedMetadata (G : GoStrings) (ffmpeg mkvPath : string)
    (metadata : list (string * string)) (m : Machine)
  : option string * Machine :=
  match sys_NotExist mkvPath m with
  | (true, m1) => (Some ("file not found: " ++ mkvPath), m1)
  | (false, m1) =>
      match sys_LookPath "mkvpropedit" m1 with
      | (Some mkvpropeditPath, m2) =>
          embedMetadataMkvpropedit G mkvPath metadata mkvpropeditPath m2
      | (None, m2) => embedMetadataFFmpeg ffmpeg mkvPath metadata m2
      end
  end.

Definition embedCoverMkvpropedit (mkvPath coverPath mkvpropeditPath : string)
    (m : Machine) : option string * Machine :=
  let args := [mkvPath; "--add-attachment"; coverPath] in
  match sys_Run mkvpropeditPath args m with
  | (false, m1) => (Some "mkvpropedit cover failed", m1)
  | (true, m1) => (None, m1)
  end.

Definition embedCoverFFmpeg (ffmpeg mkvPath coverPath : string)
    (m : Machine) : option string * Machine :=
  let tempPath := mkvPath ++ ".tmp" in
  let args := ["-y"; "-i"; mkvPath; "-i"; coverPath; "-map"; "0";
               "-map"; "1:0"; "-c"; "copy"; "-c:v:1"; "mjpeg";
               "-disposition:v:1"; "attached_pic"; tempPath] in
  match sys_Run ffmpeg args m with
  | (false, m1) => (Some "ffmpeg cover failed", (sys_Remove tempPath m1).2)
  | (true, m1) =>
      match sys_Rename tempPath mkvPath m1 with
      | (false, m2) =>
          (Some "failed to replace file", (sys_Remove tempPath m2).2)
      | (true, m2) => (None, m2)
      end
  end.

(** [EmbedCoverArt]; the name without the underscore is the field of the
    configuration. *)
Definition EmbedCoverArt_ (ffmpeg mkvPath coverPath : string) (m : Machine)
  : option string * Machine :=
  match sys_NotExist mkvPath m with
  | (true, m1) => (Some ("mkv file not found: " ++ mkvPath), m1)
  | (false, m1) =>
      match sys_NotExist coverPath m1 with
      | (true, m2) => (Some ("cover file not found: " ++ coverPath), m2)
      | (false, m2) =>
          match sys_LookPath "mkvpropedit" m2 with
          | (Some mkvpropeditPath, m3) =>
              embedCoverMkvpropedit mkvPath coverPath mkvpropeditPath m3
          | (None, m3) => embedCoverFFmpeg ffmpeg mkvPath coverPath m3
          end
      end
  end.

(** A chapter, with the fields [AddChapters] reads; the times are in
    seconds. *)
Record Chapter := {
  ch_Title : string; ch_StartTime : Q; ch_EndTime : Q
}.

Definition dq : string := String (Ascii.ascii_of_nat 34) EmptyString.

Definition chapters_header : string :=
  "<?xml version=" ++ dq ++ "1.0" ++ dq ++ " encoding=" ++ dq ++ "UTF-8"
  ++ dq ++ "?>" ++ nl
  ++ "<!DOCTYPE Chapters SYSTEM " ++ dq ++ "matroskachapters.dtd" ++ dq
  ++ ">" ++ nl
  ++ "<Chapters>" ++ nl
  ++ "  <EditionEntry>" ++ nl.

Definition chapters_footer : string :=
  "  </EditionEntry>" ++ nl ++ "</Chapters>" ++ nl.

(** The [fmt.Sprintf] of one chapter; [uid] is [i+1]. *)
Definition chapter_atom (uid startNs endNs : Z) (title : string) : string :=
  "    <ChapterAtom>" ++ nl
  ++ "      <ChapterUID>" ++ pretty uid ++ "</ChapterUID>" ++ nl
  ++ "      <ChapterTimeStart>" ++ pretty startNs ++ "</ChapterTimeStart>"
  ++ nl
  ++ "      <ChapterTimeEnd>" ++ pretty endNs ++ "</ChapterTimeEnd>" ++ nl
  ++ "      <ChapterDisplay>" ++ nl
  ++ "        <ChapterString>" ++ title ++ "</ChapterString>" ++ nl
  ++ "        <ChapterLanguage>eng</ChapterLanguage>" ++ nl
  ++ "      </ChapterDisplay>" ++ nl
  ++ "    </ChapterAtom>" ++ nl.

(** The loop [for i, ch := range chapters], threading the builder and the
    index; [nanos x] is [int64(x * 1e9)] on floats. *)
Definition chapters_step (nanos : Q -> Z) (acc : string * Z) (ch : Chapter)
  : string * Z :=
  let '(xml, i) := acc in
  let startNs := nanos (ch_StartTime ch) in
  let endNs := nanos (ch_EndTime ch) in
  (xml ++ chapter_atom (i + 1) startNs endNs (ch_Title ch), i + 1).

Definition chapters_xml (nanos : Q -> Z) (chapters : list Chapter) : string :=
  (fold_left (chapters_step nanos) chapters (chapters_header, 0)).1
  ++ chapters_footer.

(** The multiplication of two floats: the product, rounded to a float.  A
    product that is a whole number of magnitude at most 2^53 is a float, so
    it is returned as it is. *)
Record FloatMul := {
  fmul : Q -> Q -> Q;
  fmul_exact : forall (x y : Q) (n : Z),
    (x * y == inject_Z n)%Q -> Z.abs n <= 2 ^ 53 ->
    (fmul x y == inject_Z n)%Q
}.

(** [int64(x * 1e9)]. *)
Definition nanoseconds (F : FloatMul) (x : Q) : Z :=
  int_of_float64 (fmul F x 1000000000).

(** The chapter file in the words of its format: the header, one atom for
    each chapter in the order given, numbered from 1, and the footer. *)
Definition chapters_documented (F : FloatMul) (chapters : list Chapter)
  : string :=
  chapters_header
  ++ fold_right String.append ""
       (imap (fun i ch =>
                chapter_atom (Z.of_nat i + 1)
                  (nanoseconds F (ch_StartTime ch))
                  (nanoseconds F (ch_EndTime ch)) (ch_Title ch))
             chapters)
  ++ chapters_footer.

(** [AddChapters]; the deferred [os.Remove] runs on every return after the
    temporary file was created. *)
Definition AddChapters (nanos : Q -> Z) (mkvPath : string)
    (chapters : list Chapter) (m : Machine) : option string * Machine :=
  if (length chapters =? 0)%nat then (None, m)
  else
    match sys_CreateTemp "chapters-*.xml" m with
    | (None, m1) => (Some "failed to create chapters file", m1)
    | (Some name, m1) =>
        let '(err, m2) :=
          match sys_WriteString name (chapters_xml nanos chapters) m1 with
          | (false, m2) => (Some "write", m2)
          | (true, m2) =>
              match sys_LookPath "mkvpropedit" m2 with
              | (None, m3) =>
                  (Some "mkvpropedit not found, chapters require mkvtoolnix",
                   m3)
              | (Some mkvpropeditPath, m3) =>
                  let args := [mkvPath; "--chapters"; name] in
                  match sys_Run mkvpropeditPath args m3 with
                  | (false, m4) => (Some "mkvpropedit chapters failed", m4)
                  | (true, m4) => (None, m4)
                  end
              end
          end in
        (err, (sys_Remove name m2).2)
    end.

(** A machine with [mkvpropedit] installed. *)
Definition mkvMachine (files : gmap string string) : Machine :=
  {| m_files := files; m_fails := fun _ => false;
     m_torn := fun _ => "";
     m_lookPath := fun f => if f =? "mkvpropedit"
                            then Some "/usr/bin/mkvpropedit" else None;
     m_tempName := fun pattern => "/tmp/" ++ pattern;
     m_exec := fun _ _ files => files; m_log := [] |}.

(** Floats multiplied without rounding, for the examples. *)
Definition exactMul : FloatMul :=
  {| fmul := Qmult; fmul_exact := fun x y n H _ => H |}.

(** A machine without it, on which ffmpeg writes its output file. *)
Definition ffmpegMachine (files : gmap string string) : Machine :=
  {| m_files := files; m_fails := fun _ => false;
     m_torn := fun _ => "";
     m_lookPath := fun _ => None;
     m_tempName := fun pattern => "/tmp/" ++ pattern;
     m_exec := fun _ args files =>
       match last args with
       | Some out => <[out := "<remuxed>"]> files
       | None => files
       end;
     m_log := [] |}.

(** The arguments in the words of the code's comments: [--edit info], then
    a [--set title=...] for every entry whose key is "title" in any case
    and whose value is not empty; for ffmpeg, a [-metadata key=value] for
    every entry with a value. *)
Definition mkvpropedit_args (G : GoStrings) (mkvPath : string)
    (metadata : list (string * string)) : list string :=
  ([mkvPath; "--edit"; "info"]
   ++ flat_map (fun kv : string * string =>
                  if negb (kv.2 =? "") && (ToLower G kv.1 =? "title")
                  then ["--set"; "title=" ++ kv.2]%string
                  else [])
               metadata)%list.

Definition ffmpeg_metadata_args (mkvPath : string)
    (metadata : list (string * string)) : list string :=
  (["-y"; "-i"; mkvPath; "-c"; "copy"]
   ++ flat_map (fun kv : string * string =>
                  if negb (kv.2 =? "")
                  then ["-metadata"; kv.1 ++ "=" ++ kv.2]%string
                  else [])
               metadata
   ++ [mkvPath ++ ".tmp"]%string)%list.

(* ===================================================================== *)
(** * The queue item in the user interface (QueueItem.tsx) *)
(* ===================================================================== *)

(** [getStatusBadge]: the label and the class of the badge. *)
Definition getStatusBadge (status : string) : string * string :=
  if status =? "pending" then ("Pending", "badge-neutral")
  else if status =? "fetching_info" then ("Fetching", "badge-info")
  else if status =? "downloading_video" then ("Video", "badge-info")
  else if status =? "downloading_audio" then ("Audio", "badge-accent")
  else if status =? "muxing" then ("Muxing", "badge-accent")
  else if status =? "organizing" then ("Finalizing", "badge-accent")
  else if status =? "complete" then ("Complete", "badge-success")
  else if status =? "error" then ("Error", "badge-error")
  else if status =? "cancelled" then ("Cancelled", "badge-neutral")
  else ("Unknown", "badge-neutral").

(** [![...].includes(status)]: the progress bar and the Cancel button are
    shown for it. *)
Definition isProcessing (status : string) : bool :=
  negb (existsb (String.eqb status)
                ["complete"; "error"; "cancelled"; "pending"]).

(** The condition of the Remove button. *)
Definition showsRemove (status : string) : bool :=
  existsb (String.eqb status) ["complete"; "error"; "cancelled"].

(* ===================================================================== *)
(** * Periodic saving ([AutoSave]) *)
(* ===================================================================== *)

(** What wakes the goroutine of [AutoSave] from its [select]: the ticker,
    or the cancellation of the queue's context. *)
Inductive Wakeup := WakeTick | WakeDone.

(** The goroutine, run over the wake-ups it gets; each comes with the queue
    and the time at that moment.  The result of [SaveQueue] is dropped.
    Yields whether the goroutine has returned. *)
Fixpoint AutoSave (P : PathLib) (J : JsonCodec)
    (wakeups : list (Wakeup * Queue * Z)) (fs : FileSys) : bool * FileSys :=
  match wakeups with
  | [] => (false, fs)
  | (WakeDone, q, now) :: _ => (true, (SaveQueue P J now q fs).2)
  | (WakeTick, q, now) :: rest =>
      AutoSave P J rest (SaveQueue P J now q fs).2
  end.

(** The saves of a list of ticks, one after the other. *)
Definition save_all (P : PathLib) (J : JsonCodec)
    (ticks : list (Queue * Z)) (fs : FileSys) : FileSys :=
  fold_left (fun fs t => (SaveQueue P J t.2 t.1 fs).2) ticks fs.

(* ===================================================================== *)
(** * Theorems *)
(* ===================================================================== *)

(* --------------------------------------------------------------------- *)
(** ** Statistics *)

Lemma stats_step_Total st it : Total (stats_step st it) = Total st.
Proof.
  unfold stats_step.
  repeat (match goal with |- context [if ?b then _ else _] =>
            destruct b end); reflexivity.
Qed.

Lemma stats_step_defined st it :
  In (Status it) defined_statuses ->
  classified (stats_step st it) = classified st + 1.
Proof.
  unfold defined_statuses, stats_step, classified; simpl.
  intros H; repeat (destruct H as [H|H]; [rewrite <- H; simpl; lia|]).
  contradiction.
Qed.

Lemma fold_stats_Total l st :
  Total (fold_left stats_step l st) = Total st.
Proof.
  revert st; induction l as [|it l IH]; intros st; simpl; [reflexivity|].
  rewrite IH. apply stats_step_Total.
Qed.

Lemma fold_stats_classified l st :
  Forall (fun it => In (Status it) defined_statuses) l ->
  classified (fold_left stats_step l st)
  = classified st + Z.of_nat (length l).
Proof.
  intros H; revert st; induction H as [|it l Hit _ IH]; intros st.
  - simpl. lia.
  - cbn [fold_left length]. rewrite IH, stats_step_defined by assumption.
    lia.
Qed.

Lemma count_status_cons p it l :
  count_status p (it :: l)
  = (if p (Status it) then 1 else 0) + count_status p l.
Proof.
  unfold count_status. cbn [List.filter].
  destruct (p (Status it)); cbn [length]; lia.
Qed.

Lemma stats_step_counts st it :
  let s := Status it in
  Pending (stats_step st it)
  = Pending st + (if s =? StatusPending then 1 else 0) /\
  Active (stats_step st it)
  = Active st + (if in_flight s then 1 else 0) /\
  Completed (stats_step st it)
  = Completed st + (if s =? StatusComplete then 1 else 0) /\
  Failed (stats_step st it)
  = Failed st + (if s =? StatusError then 1 else 0) /\
  Cancelled (stats_step st it)
  = Cancelled st + (if s =? StatusCancelled then 1 else 0) /\
  classified (stats_step st it)
  = classified st + (if is_defined s then 1 else 0).
Proof.
  unfold stats_step, in_flight, is_defined, classified, defined_statuses.
  generalize (Status it). intros s. cbv zeta. cbn [existsb].
  destruct (String.eqb_spec s StatusPending) as [->|_];
    [simpl; lia|].
  destruct (String.eqb_spec s StatusFetchingInfo) as [->|_];
    [simpl; lia|].
  destruct (String.eqb_spec s StatusDownloadingVideo) as [->|_];
    [simpl; lia|].
  destruct (String.eqb_spec s StatusDownloadingAudio) as [->|_];
    [simpl; lia|].
  destruct (String.eqb_spec s StatusMuxing) as [->|_];
    [simpl; lia|].
  destruct (String.eqb_spec s StatusOrganizing) as [->|_];
    [simpl; lia|].
  destruct (String.eqb_spec s StatusComplete) as [->|_];
    [simpl; lia|].
  destruct (String.eqb_spec s StatusError) as [->|_];
    [simpl; lia|].
  destruct (String.eqb_spec s StatusCancelled) as [->|_];
    simpl; lia.
Qed.

Lemma fold_stats_counts l st :
  let r := fold_left stats_step l st in
  Pending r = Pending st + count_status (String.eqb StatusPending) l /\
  Active r = Active st + count_status in_flight l /\
  Completed r = Completed st + count_status (String.eqb StatusComplete) l /\
  Failed r = Failed st + count_status (String.eqb StatusError) l /\
  Cancelled r = Cancelled st + count_status (String.eqb StatusCancelled) l /\
  classified r = classified st + count_status is_defined l.
Proof.
  revert st; induction l as [|it l IH]; intros st.
  - unfold count_status; simpl. lia.
  - cbn [fold_left]. cbv zeta.
    specialize (IH (stats_step st it)). cbv zeta in IH.
    destruct IH as (I1 & I2 & I3 & I4 & I5 & I6).
    destruct (stats_step_counts st it) as (S1 & S2 & S3 & S4 & S5 & S6).
    rewrite !count_status_cons.
    rewrite (String.eqb_sym StatusPending), (String.eqb_sym StatusComplete),
      (String.eqb_sym StatusError), (String.eqb_sym StatusCancelled).
    lia.
Qed.

Lemma defined_in_one_class s :
  In s defined_statuses -> in_one_class s.
Proof.
  unfold defined_statuses. cbn [In].
  intros H; repeat (destruct H as [H|H]; [rewrite <- H; reflexivity|]).
  contradiction.
Qed.

(** C9. When every item carries one of the nine defined statuses, [GetStats]
    classifies every item into exactly one of its five counters: each item
    belongs to exactly one of the classes pending, active (the five
    in-flight statuses), completed, failed and cancelled, and each counter
    is the number of items of its class.  [Total] is the length of the
    slice, so it is the sum of [Pending], [Active], [Completed], [Failed]
    and [Cancelled]. *)
Theorem GetStats_total_is_sum (q : Queue) :
  Forall (fun it => In (Status it) defined_statuses) (items q) ->
  let st := GetStats q in
  Forall (fun it => in_one_class (Status it)) (items q) /\
  Pending st = count_status (String.eqb StatusPending) (items q) /\
  Active st = count_status in_flight (items q) /\
  Completed st = count_status (String.eqb StatusComplete) (items q) /\
  Failed st = count_status (String.eqb StatusError) (items q) /\
  Cancelled st = count_status (String.eqb StatusCancelled) (items q) /\
  Total st = Z.of_nat (length (items q)) /\
  Total st
  = Pending st + Active st + Completed st + Failed st + Cancelled st.
Proof.
  intros H. cbv zeta. unfold GetStats.
  set (st0 := {| Total := _ |}).
  destruct (fold_stats_counts (items q) st0) as (I1 & I2 & I3 & I4 & I5 & _).
  pose proof (fold_stats_classified (items q) st0 H) as E.
  rewrite fold_stats_Total.
  split.
  { apply List.Forall_forall. intros it Hit.
    apply defined_in_one_class.
    exact (proj1 (List.Forall_forall _ _) H it Hit). }
  repeat (split; [assumption|]).
  split; [reflexivity|].
  unfold classified in E. unfold st0 in E |- *. simpl in E |- *. lia.
Qed.

Lemma GetStats_total_is_sum_witness :
  let q := set_items [demoItem "a" StatusPending; demoItem "b" StatusMuxing;
                      demoItem "c" StatusError; demoItem "d" StatusComplete;
                      demoItem "e" StatusOrganizing] emptyQueue in
  let st := GetStats q in
  Forall (fun it => in_one_class (Status it)) (items q) /\
  Pending st = count_status (String.eqb StatusPending) (items q) /\
  Active st = count_status in_flight (items q) /\
  Completed st = count_status (String.eqb StatusComplete) (items q) /\
  Failed st = count_status (String.eqb StatusError) (items q) /\
  Cancelled st = count_status (String.eqb StatusCancelled) (items q) /\
  Total st = Z.of_nat (length (items q)) /\
  Total st
  = Pending st + Active st + Completed st + Failed st + Cancelled st.
Proof.
  intros q. apply (GetStats_total_is_sum q).
  repeat constructor; simpl; tauto.
Defined.

Example GetStats_demo :
  GetStats (set_items [demoItem "a" StatusPending; demoItem "b" StatusMuxing;
                       demoItem "c" StatusError; demoItem "d" StatusComplete;
                       demoItem "e" StatusOrganizing;
                       demoItem "f" "paused"] emptyQueue)
  = {| Total := 6; Pending := 1; Active := 2; Completed := 1; Failed := 1;
       Cancelled := 0 |}.
Proof. reflexivity. Qed.

(* --------------------------------------------------------------------- *)
(** ** Strings *)

Lemma append_String ch (a b : string) :
  String ch a ++ b = String ch (a ++ b).
Proof. reflexivity. Qed.

Lemma append_assoc (a b c : string) : (a ++ b) ++ c = a ++ (b ++ c).
Proof.
  induction a as [|ch a IH]; [reflexivity|].
  rewrite !append_String. f_equal. exact IH.
Qed.

Lemma append_nil_r (a : string) : a ++ "" = a.
Proof.
  induction a as [|ch a IH]; [reflexivity|].
  rewrite append_String. f_equal. exact IH.
Qed.

Lemma prefix_append (a b : string) : String.prefix a (a ++ b) = true.
Proof.
  induction a as [|ch a IH].
  - now destruct b.
  - rewrite append_String. simpl.
    destruct (Ascii.ascii_dec ch ch); [assumption | contradiction].
Qed.

(* --------------------------------------------------------------------- *)
(** ** Loading the queue *)

Lemma resume_item_not_in_flight it : in_flight (Status (resume_item it)) = false.
Proof.
  unfold resume_item.
  destruct (_ || _) eqn:E; [reflexivity | exact E].
Qed.

Lemma resume_item_cases it :
  if in_flight (Status it)
  then resume_item it
       = set_Stage "Waiting... (resumed)"
           (set_Progress 0 (set_Status StatusPending it))
  else resume_item it = it.
Proof. unfold resume_item, in_flight. now destruct (_ || _). Qed.

Lemma LoadQueue_reads P J q fs data state :
  fs_files fs !! GetQueueFilePath P = Some data ->
  fs_refuses fs (OpReadFile (GetQueueFilePath P)) = false ->
  Unmarshal J data = Some state ->
  LoadQueue P J q fs
  = (None, set_items (map resume_item (qs_Items state)) q,
     fs_issue (OpReadFile (GetQueueFilePath P)) (fs_files fs) fs).
Proof.
  intros Hf Hr Hu. unfold LoadQueue, os_ReadFile.
  rewrite Hf, Hr, Hu. reflexivity.
Qed.

(** C5 (as amended). After [LoadQueue] has read a persisted state, no item
    is in flight: every item persisted in one of the five in-flight statuses
    is reset to pending with progress 0 and the stage "Waiting... (resumed)",
    and every other item, pending ones included, is loaded unchanged. *)
Theorem LoadQueue_resumes_in_flight P J q fs data state :
  fs_files fs !! GetQueueFilePath P = Some data ->
  fs_refuses fs (OpReadFile (GetQueueFilePath P)) = false ->
  Unmarshal J data = Some state ->
  let loaded := items (LoadQueue P J q fs).1.2 in
  (LoadQueue P J q fs).1.1 = None /\
  Forall (fun l => in_flight (Status l) = false) loaded /\
  Forall2 (fun p l =>
             if in_flight (Status p)
             then l = set_Stage "Waiting... (resumed)"
                        (set_Progress 0 (set_Status StatusPending p))
                  /\ Status l = StatusPending /\ Progress l = 0
                  /\ contains (Stage l) "resumed" = true
             else l = p)
          (qs_Items state) loaded.
Proof.
  intros Hf Hr Hu. rewrite (LoadQueue_reads _ _ _ _ _ _ Hf Hr Hu). simpl.
  split; [reflexivity|]. split.
  - apply List.Forall_forall. intros l Hl.
    apply in_map_iff in Hl as [p [<- _]]. apply resume_item_not_in_flight.
  - induction (qs_Items state) as [|p ps IH]; simpl; constructor; [|exact IH].
    pose proof (resume_item_cases p) as Hc.
    destruct (in_flight (Status p)); [|exact Hc].
    rewrite Hc. repeat split.
Qed.

Lemma LoadQueue_resumes_in_flight_witness :
  let its := [demoItem "a" StatusMuxing; demoItem "b" StatusPending;
              demoItem "c" StatusComplete] in
  let fs := demoDisk {[ "/data/queue.json" := "<queue>" ]} in
  let loaded :=
    items (LoadQueue demoPaths (demoCodec its) emptyQueue fs).1.2 in
  (LoadQueue demoPaths (demoCodec its) emptyQueue fs).1.1 = None /\
  Forall (fun l => in_flight (Status l) = false) loaded /\
  Forall2 (fun p l =>
             if in_flight (Status p)
             then l = set_Stage "Waiting... (resumed)"
                        (set_Progress 0 (set_Status StatusPending p))
                  /\ Status l = StatusPending /\ Progress l = 0
                  /\ contains (Stage l) "resumed" = true
             else l = p)
          its loaded.
Proof.
  intros its fs.
  exact (LoadQueue_resumes_in_flight demoPaths (demoCodec its)
           emptyQueue fs "<queue>"
           {| qs_Items := its; qs_UpdatedAt := 0 |}
           eq_refl eq_refl eq_refl).
Defined.

(** C5, as worded, fails on an item persisted as pending: it is not a
    terminal status, yet the item is loaded as it was, and its stage does not
    mention the resumption. *)
Lemma LoadQueue_pending_not_normalized :
  let its := [set_Stage "Waiting..." (demoItem "b" StatusPending)] in
  let fs := demoDisk {[ "/data/queue.json" := "<queue>" ]} in
  ~ load_normalizes_non_terminal its
      (items (LoadQueue demoPaths (demoCodec its) emptyQueue fs).1.2).
Proof.
  intros its fs H. destruct H as [_ H].
  inversion H as [|p l ps ls Hp _]; subst.
  vm_compute in Hp. destruct Hp as [_ [_ Hc]]. discriminate Hc.
Qed.

(* --------------------------------------------------------------------- *)
(** ** Saving the queue *)

Lemma SaveQueue_success P J now q fs :
  (SaveQueue P J now q fs).1 = None ->
  exists data,
    MarshalIndent J {| qs_Items := items q; qs_UpdatedAt := now |}
    = Some data /\
    (SaveQueue P J now q fs).2
    = fs_issue (OpWriteFile (GetQueueFilePath P) data)
        (<[GetQueueFilePath P := data]> (fs_files fs))
        (fs_issue (OpMkdirAll (Dir P (GetQueueFilePath P)))
           (fs_files fs) fs).
Proof.
  unfold SaveQueue, os_MkdirAll, os_WriteFile.
  destruct (MarshalIndent J _) as [data|]; [|discriminate].
  destruct (fs_refuses fs (OpMkdirAll _)); [discriminate|].
  cbn [fs_issue fs_refuses fs_files fs_log].
  destruct (fs_refuses fs (OpWriteFile _ _)); [discriminate|].
  intros _. exists data. split; reflexivity.
Qed.

Lemma SaveQueue_never_renames P J now q fs a b :
  In (OpRename a b) (fs_log (SaveQueue P J now q fs).2) ->
  In (OpRename a b) (fs_log fs).
Proof.
  unfold SaveQueue, os_MkdirAll, os_WriteFile.
  destruct (MarshalIndent J _) as [data|]; [|trivial].
  destruct (fs_refuses fs (OpMkdirAll _));
    cbn [fs_issue fs_refuses fs_files fs_log fst snd].
  - rewrite in_app_iff. intros [H|[H|[]]]; [exact H | discriminate H].
  - destruct (fs_refuses fs (OpWriteFile _ _));
      cbn [fs_issue fs_refuses fs_files fs_log fst snd];
      rewrite !in_app_iff;
      intros [[H|[H|[]]]|[H|[]]]; try discriminate H; exact H.
Qed.

(** C7 (as amended). A successful [SaveQueue] marshals the full item list
    with the current time and writes the result straight into
    [<data_dir>/queue.json] with one [os.WriteFile], after creating the
    directory: these are its only two file-system operations, the file then
    holds the marshalled state, and no rename is ever issued. *)
Theorem SaveQueue_writes_in_place P J now q fs :
  (SaveQueue P J now q fs).1 = None ->
  exists data,
    MarshalIndent J {| qs_Items := items q; qs_UpdatedAt := now |}
    = Some data /\
    fs_log (SaveQueue P J now q fs).2
    = (fs_log fs ++ [OpMkdirAll (Dir P (GetQueueFilePath P));
                     OpWriteFile (GetQueueFilePath P) data])%list /\
    fs_files (SaveQueue P J now q fs).2
    = <[GetQueueFilePath P := data]> (fs_files fs) /\
    forall a b, In (OpRename a b) (fs_log (SaveQueue P J now q fs).2) ->
                In (OpRename a b) (fs_log fs).
Proof.
  intros Hok. destruct (SaveQueue_success _ _ _ _ _ Hok) as [data [Hm Hs]].
  exists data. split; [exact Hm|].
  split; [rewrite Hs; simpl; now rewrite <- app_assoc|].
  split; [rewrite Hs; reflexivity|].
  intros a b. apply SaveQueue_never_renames.
Qed.

Lemma SaveQueue_writes_in_place_witness :
  let q := set_items [demoItem "a" StatusPending] emptyQueue in
  let fs := demoDisk {[ "/data/queue.json" := "<old>" ]} in
  exists data,
    MarshalIndent (demoCodec []) {| qs_Items := items q; qs_UpdatedAt := 7 |}
    = Some data /\
    fs_log (SaveQueue demoPaths (demoCodec []) 7 q fs).2
    = (fs_log fs
       ++ [OpMkdirAll (Dir demoPaths (GetQueueFilePath demoPaths));
           OpWriteFile (GetQueueFilePath demoPaths) data])%list /\
    fs_files (SaveQueue demoPaths (demoCodec []) 7 q fs).2
    = <[GetQueueFilePath demoPaths := data]> (fs_files fs) /\
    forall a b,
      In (OpRename a b) (fs_log (SaveQueue demoPaths (demoCodec []) 7 q fs).2)
      -> In (OpRename a b) (fs_log fs).
Proof.
  intros q fs.
  exact (SaveQueue_writes_in_place demoPaths (demoCodec []) 7 q fs eq_refl).
Defined.

(** C7, as worded, fails: the save of a one-item queue over an existing
    queue file neither goes through a temporary file and a rename, nor
    survives a crash, which can leave the truncated, still empty file. *)
Lemma SaveQueue_not_atomic :
  let q := set_items [demoItem "a" StatusPending] emptyQueue in
  let fs := demoDisk {[ "/data/queue.json" := "<old>" ]} in
  let ops := fs_log (SaveQueue demoPaths (demoCodec []) 7 q fs).2 in
  ~ writes_via_temp_and_rename ops "/data/queue.json" "<queue>" /\
  ~ crash_safe_save ops "/data/queue.json" "<queue>" (fs_files fs).
Proof.
  intros q fs ops.
  assert (Hops : ops = [OpMkdirAll "/data";
                        OpWriteFile "/data/queue.json" "<queue>"])
    by reflexivity.
  rewrite Hops. split.
  - intros [tmp [Hne [Hw _]]].
    destruct Hw as [Hw|[Hw|[]]]; [discriminate Hw|].
    injection Hw as Htmp. apply Hne. symmetry. exact Htmp.
  - intros Hsafe.
    specialize (Hsafe (<["/data/queue.json" := ""]> (fs_files fs))).
    destruct Hsafe as [H|H].
    + apply crash_later. simpl. apply crash_here.
      apply (crash_write _ "<queue>" ""). reflexivity.
    + rewrite lookup_insert_eq in H. simpl in H.
      rewrite lookup_singleton_eq in H. discriminate H.
    + rewrite lookup_insert_eq in H. discriminate H.
Qed.

(* --------------------------------------------------------------------- *)
(** ** Playlist files *)

Lemma m3u8_step_entry P dir sb item :
  m3u8_step P dir sb item
  = if has_output item then sb ++ m3u8_entry P dir item else sb.
Proof.
  unfold m3u8_step, has_output, m3u8_entry, m3u8_duration, m3u8_relpath.
  destruct (OutputPath item =? ""); simpl; [reflexivity|].
  now rewrite !append_assoc.
Qed.

Lemma m3u8_fold P dir its sb :
  fold_left (m3u8_step P dir) its sb
  = sb ++ fold_right String.append ""
            (map (m3u8_entry P dir) (List.filter has_output its)).
Proof.
  revert sb; induction its as [|item its IH]; intros sb; simpl.
  - now rewrite append_nil_r.
  - rewrite IH, m3u8_step_entry.
    destruct (has_output item); simpl; [|reflexivity].
    now rewrite append_assoc.
Qed.

Lemma m3u8_content_documented P dir its :
  m3u8_content P dir its = m3u8_documented P dir its.
Proof.
  unfold m3u8_content, m3u8_documented.
  now rewrite m3u8_fold, append_assoc.
Qed.

Lemma int_of_float64_nonpos (x : Q) :
  (x <= 0)%Q -> int_of_float64 x <= 0.
Proof.
  unfold Qle, int_of_float64; simpl. intros H.
  apply Z.quot_le_upper_bound; lia.
Qed.

(** C10. [GenerateM3U8] on an empty slice returns [nil] and touches no file.
    On any other slice it creates the output directory and writes the
    playlist: it returns [nil] exactly when neither of the two operations
    is refused, and then these are its two operations and the playlist file
    holds the content; whether it succeeds or not, the only file it writes
    is the playlist.  The content starts with [#EXTM3U] and has, in order,
    one [#EXTINF] line and one path line for each item with a non-empty
    [OutputPath] and nothing for the others; a non-positive duration is
    printed as [-1], and the path line is the relative path whenever
    [filepath.Rel] yields one.  The durations are taken within the range of
    [int], where the conversion of a float is defined. *)
Theorem GenerateM3U8_playlist P its outputDir playlistName fs :
  (its = [] -> GenerateM3U8 P its outputDir playlistName fs = (None, fs)) /\
  (its <> [] ->
   Forall (fun it => int_range (Duration it)) its ->
   let r := GenerateM3U8 P its outputDir playlistName fs in
   let path := m3u8_path P outputDir playlistName in
   let content := m3u8_documented P outputDir its in
   (r.1 = None <->
    fs_refuses fs (OpMkdirAll outputDir) = false /\
    fs_refuses fs (OpWriteFile path content) = false) /\
   (r.1 = None ->
    fs_files r.2 = <[path := content]> (fs_files fs) /\
    fs_log r.2
    = (fs_log fs ++ [OpMkdirAll outputDir; OpWriteFile path content])%list) /\
   (forall p data,
      In (OpWriteFile p data) (fs_log r.2) ->
      In (OpWriteFile p data) (fs_log fs) \/
      (p = path /\ data = content))) /\
  String.prefix "#EXTM3U" (m3u8_documented P outputDir its) = true /\
  (forall item, int_range (Duration item) -> (Duration item <= 0)%Q ->
                m3u8_duration item = -1) /\
  (forall item r, Rel P outputDir (OutputPath item) = Some r ->
                  m3u8_relpath P outputDir item = r).
Proof.
  split; [intros ->; reflexivity|]. split; [|split; [|split]].
  - intros Hne _. cbv zeta. unfold GenerateM3U8.
    destruct its as [|i0 its']; [contradiction|].
    change (length (i0 :: its') =? 0)%nat with false. cbv iota.
    rewrite m3u8_content_documented.
    unfold os_MkdirAll, os_WriteFile.
    destruct (fs_refuses fs (OpMkdirAll outputDir));
      cbn [fs_issue fs_refuses fs_files fs_log fst snd].
    + split; [split; [discriminate | intros [H _]; discriminate H]|].
      split; [discriminate|].
      intros p data. rewrite in_app_iff.
      intros [H|[H|[]]]; [now left | discriminate H].
    + destruct (fs_refuses fs (OpWriteFile _ _));
        cbn [fs_issue fs_refuses fs_files fs_log fst snd].
      * split; [split; [discriminate | intros [_ H]; discriminate H]|].
        split; [discriminate|].
        intros p data. rewrite !in_app_iff.
        intros [[H|[H|[]]]|[H|[]]]; [now left | discriminate H |].
        injection H as <- <-. now right.
      * split; [split; [intros _; split; reflexivity | reflexivity]|].
        split; [intros _; split; [reflexivity | now rewrite <- app_assoc]|].
        intros p data. rewrite !in_app_iff.
        intros [[H|[H|[]]]|[H|[]]]; [now left | discriminate H |].
        injection H as <- <-. now right.
  - unfold m3u8_documented. apply prefix_append.
  - intros item _ H. unfold m3u8_duration.
    apply int_of_float64_nonpos in H.
    apply Z.leb_le in H. now rewrite H.
  - intros item r H. unfold m3u8_relpath. now rewrite H.
Qed.

Example m3u8_demo :
  m3u8_content demoPaths "/music" demoTracks
  = "#EXTM3U" ++ nl
    ++ "#EXTINF:354,Queen - Bohemian Rhapsody" ++ nl ++ "a.mkv" ++ nl
    ++ "#EXTINF:-1,Bohemian Rhapsody" ++ nl ++ "/elsewhere/c.flac" ++ nl.
Proof. reflexivity. Qed.

Lemma GenerateM3U8_playlist_witness :
  let r := GenerateM3U8 demoPaths demoTracks "/music" "mix" (demoDisk ∅) in
  let path := m3u8_path demoPaths "/music" "mix" in
  let content := m3u8_documented demoPaths "/music" demoTracks in
  (r.1 = None <->
   fs_refuses (demoDisk ∅) (OpMkdirAll "/music") = false /\
   fs_refuses (demoDisk ∅) (OpWriteFile path content) = false) /\
  (r.1 = None ->
   fs_files r.2 = <[path := content]> (fs_files (demoDisk ∅)) /\
   fs_log r.2
   = (fs_log (demoDisk ∅)
      ++ [OpMkdirAll "/music"; OpWriteFile path content])%list) /\
  (forall p data,
     In (OpWriteFile p data) (fs_log r.2) ->
     In (OpWriteFile p data) (fs_log (demoDisk ∅)) \/
     (p = path /\ data = content)).
Proof.
  apply (proj1 (proj2 (GenerateM3U8_playlist demoPaths demoTracks
                         "/music" "mix" (demoDisk ∅)))).
  - discriminate.
  - repeat constructor; vm_compute; discriminate.
Defined.

(* --------------------------------------------------------------------- *)
(** ** Retry with override *)

Lemma find_item_ID id l it : find_item id l = Some it -> ID it = id.
Proof.
  induction l as [|x l IH]; simpl; [discriminate|].
  destruct (ID x =? id) eqn:E; [|exact IH].
  intros [= <-]. now apply String.eqb_eq.
Qed.

Lemma find_update_first id f l it :
  (forall x, ID (f x) = ID x) ->
  find_item id l = Some it ->
  find_item id (update_first id f l) = Some (f it).
Proof.
  intros Hf. induction l as [|x l IH]; simpl; [discriminate|].
  destruct (ID x =? id) eqn:E; simpl.
  - intros [= <-]. now rewrite Hf, E.
  - rewrite E. exact IH.
Qed.

Lemma find_update_first_none id f l :
  find_item id l = None -> update_first id f l = l.
Proof.
  induction l as [|x l IH]; simpl; [reflexivity|].
  destruct (ID x =? id); [discriminate|]. intros H. now rewrite IH.
Qed.

Lemma retry_item_ID req it : ID (retry_item req it) = ID it.
Proof.
  unfold retry_item.
  destruct (req_Artist req =? ""), (req_Title req =? ""),
    (req_MusicURL req =? ""); reflexivity.
Qed.

(** C4. On an item in status error, [RetryWithOverride] sets the status to
    pending, clears [Error], [MatchCandidates] and [MatchDiagnostics],
    replaces artist, title and catalog URL by the supplied (non-empty)
    overrides only, and leaves every other field, the video URL among them,
    as it was; with the empty override the item changes in nothing but its
    status and the three cleared fields. *)
Theorem RetryWithOverride_frame q id it req :
  find_item id (items q) = Some it ->
  Status it = StatusError ->
  let r := RetryWithOverride q id req in
  exists it',
    r.1 = inl it' /\ GetItem r.2 id = Some it' /\
    Status it' = StatusPending /\ Error it' = "" /\
    MatchCandidates it' = [] /\ MatchDiagnostics_ it' = None /\
    Artist it' = (if req_Artist req =? "" then Artist it
                  else req_Artist req) /\
    Title it' = (if req_Title req =? "" then Title it else req_Title req) /\
    SpotifyURL it' = (if req_MusicURL req =? "" then SpotifyURL it
                      else req_MusicURL req) /\
    (ID it' = ID it /\ VideoURL it' = VideoURL it /\ Album it' = Album it /\
     Thumbnail it' = Thumbnail it /\ Duration it' = Duration it /\
     PlaylistName it' = PlaylistName it /\
     PlaylistPosition it' = PlaylistPosition it /\
     Progress it' = Progress it /\ Stage it' = Stage it /\
     AudioSource it' = AudioSource it /\ VideoPath it' = VideoPath it /\
     AudioPath it' = AudioPath it /\ OutputPath it' = OutputPath it /\
     AudioOnly it' = AudioOnly it /\ StartedAt it' = StartedAt it /\
     CompletedAt it' = CompletedAt it /\ FileSize it' = FileSize it) /\
    (req = noOverride ->
     it' = set_Status StatusPending
             (set_MatchDiagnostics None
                (set_MatchCandidates [] (set_Error "" it)))).
Proof.
  intros Hfind Herr r. subst r. unfold RetryWithOverride, GetItem.
  rewrite Hfind, Herr. change (StatusError =? StatusError) with true.
  cbv iota. exists (retry_item req it). cbn [fst snd items set_items].
  split; [reflexivity|]. split.
  { apply find_update_first; [apply retry_item_ID | exact Hfind]. }
  unfold retry_item.
  destruct (req_Artist req =? "") eqn:Ea, (req_Title req =? "") eqn:Et,
    (req_MusicURL req =? "") eqn:Em; cbn;
    repeat split; try reflexivity;
    intros ->; discriminate.
Qed.

Lemma RetryWithOverride_frame_witness :
  let it := set_MatchCandidates
              [{| cand_Platform := "tidal";
                  cand_URL := "https://tidal.com/track/1";
                  cand_Title := "Title"; cand_Artist := "Artist";
                  cand_Album := ""; cand_Duration := 0%Q; cand_ISRC := "";
                  cand_Quality := ""; cand_Priority := 1 |}]
              (set_Error "download failed" (demoItem "test-id-2" StatusError))
  in
  let q := set_items [demoItem "other" StatusPending; it] emptyQueue in
  let req := {| req_Artist := ""; req_Title := "";
                req_MusicURL := "https://tidal.com/track/999" |} in
  exists it',
    (RetryWithOverride q "test-id-2" req).1 = inl it' /\
    Status it' = StatusPending /\ MatchCandidates it' = [] /\
    SpotifyURL it' = "https://tidal.com/track/999" /\
    VideoURL it' = "https://youtube.com/watch?v=abc".
Proof.
  intros it q req.
  destruct (RetryWithOverride_frame q "test-id-2" it req eq_refl eq_refl)
    as [it' [H1 [_ [H3 [_ [H5 [_ [_ [_ [H9 [[_ [H11 _]] _]]]]]]]]]]].
  exists it'. repeat split; assumption.
Defined.

(* --------------------------------------------------------------------- *)
(** ** The lucida service *)

Lemma IsAvailable_one_request net l :
  (IsAvailable net l).2 = [ReqHead (baseURL l)].
Proof. unfold IsAvailable. now destruct (net _). Qed.

Lemma fetchTrackData_one_endpoint L net l u r :
  In r (fetchTrackData L net l u).2 ->
  r = ReqPost (baseURL l ++ lucidaAPIPath) (form_encode L u).
Proof.
  unfold fetchTrackData.
  destruct (request_ok L _); simpl; [|contradiction].
  destruct (net _) as [|code [body|]]; simpl;
    [| destruct (parse_response L body) as [res|];
       [destruct (lr_Success res)|] |];
    simpl; intros [H|[]]; now symmetry.
Qed.

(** C8, on the code: a [LucidaService] holds one base URL.  With the two
    servers of the fall-back tests, the first answering 503, the probe sends
    its single request to the first server and reports the service
    unavailable, and the track-data fetch fails on the first server's empty
    body; the second server is never contacted, although the documented
    protocol over the same two endpoints reaches it and succeeds. *)
Theorem lucida_no_endpoint_fallback :
  let svc := {| baseURL := "http://ts1" |} in
  IsAvailable twoServers svc = (false, [ReqHead "http://ts1"]) /\
  GetTrackInfo demoLucidaLib twoServers svc "https://tidal.com/browse/track/1"
  = (inr "failed to parse response",
     [ReqPost "http://ts1/api/load"
              "url=https://tidal.com/browse/track/1"]) /\
  probe_endpoints twoServers ["http://ts1"; "http://ts2"]
  = (true, [ReqHead "http://ts1"; ReqHead "http://ts2"]).
Proof. repeat split. Qed.

(* --------------------------------------------------------------------- *)
(** ** Reasoning about runs *)

Lemma hoare_bind {A B} (P : RunState -> Prop) (m : M A) (k : A -> M B)
    (R : A -> RunState -> Prop) (Q : Outcome B -> RunState -> Prop) :
  hoare P m (fun o s => match o with
                        | Go a => R a s
                        | Returned => Q Returned s
                        | Panicked => Q Panicked s
                        end) ->
  (forall a, hoare (R a) (k a) Q) ->
  hoare P (bind m k) Q.
Proof.
  intros Hm Hk s HP. specialize (Hm s HP). unfold bind.
  destruct (m s) as [[a| |] s']; simpl in *; try assumption.
  apply Hk. exact Hm.
Qed.



(* --------------------------------------------------------------------- *)
(** ** Progress *)









(** Runs a loop-free step symbolically, splitting on every answer of the
    world it consults. *)
Ltac run_unfold :=
  cbv [bind ret return_ panic call emit readQueue getItem setQueue
       checkpoint applyMutator updateItem UpdateStatus SetItemError
       indexAddEntry historyAdd saveLyricsFile];
  cbn [fst snd queue events mutations calls].

Ltac run_cases :=
  run_unfold;
  repeat (match goal with
          | |- context [match ?c with _ => _ end] =>
              lazymatch c with
              | context [match _ with _ => _ end] => fail
              | _ => destruct c eqn:?
              end
          end; run_unfold).





















(* --------------------------------------------------------------------- *)
(** ** The service cascade *)

(** For a source other than Tidal the cascade starts with the lucida
    download, whatever lucida's health probe would say: the probe is not
    consulted. *)
Lemma tryServices_lucida_unguarded w id source url tempDir s r :
  (source =? "tidal") = false ->
  w_Download w Lucida url tempDir "flac" = Some r ->
  (tryServices w id source url tempDir s).1 = Go (Some r) /\
  calls (tryServices w id source url tempDir s).2
  = CallDownload Lucida url tempDir "flac" :: calls s.
Proof.
  intros Hs Hd. unfold tryServices. rewrite Hs. run_unfold.
  rewrite Hd. split; reflexivity.
Qed.

(** The order of the cascade for a Tidal source with every service up and
    failing: TidalHifi, then lucida, then OrpheusDL. *)
Lemma tryServices_order w id url tempDir s :
  w_IsAvailable w TidalHifi = true ->
  w_IsAvailable w Orpheus = true ->
  (forall svc, w_Download w svc url tempDir "flac" = None) ->
  (tryServices w id "tidal" url tempDir s).1 = Go None /\
  calls_in_order (tryServices w id "tidal" url tempDir s).2
  = (calls_in_order s
     ++ [CallIsAvailable TidalHifi;
         CallDownload TidalHifi url tempDir "flac";
         CallDownload Lucida url tempDir "flac";
         CallIsAvailable Orpheus;
         CallDownload Orpheus url tempDir "flac"])%list.
Proof.
  intros Ht Ho Hd. unfold tryServices, calls_in_order.
  change ("tidal" =? "tidal") with true. run_unfold.
  rewrite Ht. run_unfold. rewrite !Hd. run_unfold. rewrite Ho. run_unfold.
  rewrite ?Hd. split; [reflexivity|]. simpl.
  now rewrite <- !app_assoc.
Qed.

(** The loop stops at the first source that delivers: the source is
    recorded as the item's audio source and the sources after it are not
    looked at. *)
Lemma trySources_stops_at_first_success
    w id tempDir links source rest n s s2 r :
  w_ctxDone w (CpSource n) = false ->
  (sourceURL links source =? "") = false ->
  tryServices w id source (sourceURL links source) tempDir
    (UpdateStatus id StatusDownloadingAudio 50
       ("Downloading from " ++ source ++ "...") s).2
  = (Go (Some r), s2) ->
  trySources w id tempDir links (source :: rest) n s
  = (Go (Some (adr_FilePath r)),
     (updateItem id [AAudioSource source; AAudioPath (adr_FilePath r)]
                 s2).2).
Proof.
  intros Hctx Hurl Hres. simpl trySources.
  unfold bind, checkpoint. rewrite Hctx, Hurl.
  unfold UpdateStatus, applyMutator in *. cbn [snd] in Hres.
  rewrite Hres. reflexivity.
Qed.

(** C1, on the code: with only a Qobuz URL resolved and a lucida whose
    health probe fails while its download works, the run downloads through
    lucida without ever probing it, records [audio_source = qobuz] and
    completes; a cascade that skipped unavailable services would not have
    called lucida. *)
Theorem cascade_calls_unavailable_lucida :
  let w := demoWorld lucidaProbeDown in
  let s := runItem w "job-1" (demoQueue None) in
  w_IsAvailable w Lucida = false /\
  In (CallDownload Lucida "https://qobuz.com/track/1" "/tmp/youflac/job-1"
                   "flac") (calls s) /\
  ~ In (CallIsAvailable Lucida) (calls s) /\
  exists it, GetItem (queue s) "job-1" = Some it /\
             AudioSource it = "qobuz" /\
             AudioPath it = "/tmp/youflac/job-1/lucida.flac" /\
             Status it = StatusComplete.
Proof.
  intros w s. split; [reflexivity|].
  eassert (Ec : calls s = _) by (vm_compute; reflexivity).
  rewrite Ec. split; [|split].
  - simpl. tauto.
  - intros H.
    repeat (destruct H as [H|H]; [discriminate H|]). exact H.
  - eexists. split; [vm_compute; reflexivity|]. repeat split.
Qed.

(* --------------------------------------------------------------------- *)
(** ** Skip detection *)

Lemma assign_ID a it : ID (assign a it) = ID it.
Proof. destruct a; reflexivity. Qed.

Lemma mutate_ID body it : ID (mutate body it) = ID it.
Proof.
  unfold mutate. revert it.
  induction body as [|a body IH]; intros it; simpl; [reflexivity|].
  now rewrite IH, assign_ID.
Qed.

Lemma find_update_first_eq id f l :
  (forall x, ID (f x) = ID x) ->
  find_item id (update_first id f l) = option_map f (find_item id l).
Proof.
  intros Hf. induction l as [|x l IH]; simpl; [reflexivity|].
  destruct (ID x =? id) eqn:E; simpl.
  - now rewrite Hf, E.
  - now rewrite E.
Qed.

Lemma find_mutated id body l :
  find_item id (update_first id (mutate body) l)
  = option_map (mutate body) (find_item id l).
Proof. apply find_update_first_eq. intros x. apply mutate_ID. Qed.

Lemma bind_Returned {A B} (m : M A) (k : A -> M B) s :
  (m s).1 = Returned -> bind m k s = (Returned, (m s).2).
Proof. unfold bind. destruct (m s) as [[a| |] s']; simpl; congruence. Qed.

Lemma bind_Go {A B} (m : M A) (k : A -> M B) s a :
  (m s).1 = Go a -> bind m k s = k a (m s).2.
Proof. unfold bind. destruct (m s) as [[a'| |] s']; simpl; congruence. Qed.



(* --------------------------------------------------------------------- *)
(** ** The audio-only fall-back *)





Lemma dfs_rebase w c base l :
  failed_call w c -> downloads_failed_since w (c :: base) l ->
  downloads_failed_since w base l.
Proof.
  intros Hc [new [-> Hall]]. exists (new ++ [c])%list.
  split; [now rewrite <- app_assoc|].
  apply Forall_app. split; [exact Hall | repeat constructor; exact Hc].
Qed.






















(** The fourth end-to-end scenario: the video download fails and no audio
    service delivers. *)
Example nothing_works_run :
  let s := runItem (demoWorld nothingWorks) "job-1" (demoQueue None) in
  exists it, GetItem (queue s) "job-1" = Some it /\
             Status it = StatusError /\ Error it = noAudioMessage /\
             AudioOnly it = true.
Proof. eexists. split; [vm_compute; reflexivity|]. repeat split. Qed.



(** The fifth end-to-end scenario, on whole runs: an existing file in place
    is skipped, one elsewhere is copied; neither run downloads anything. *)
Example skipped_run :
  let s := runItem (demoWorld alreadyInPlace) "job-1"
                   (demoQueue (Some [inPlace])) in
  option_map (fun it => (Status it, Progress it, Stage it))
             (GetItem (queue s) "job-1")
  = Some (StatusComplete, 100, "Skipped (already exists)") /\
  calls_in_order s
  = [CallMkdirAll "/tmp/youflac/job-1";
     CallParseYouTubeURL "https://youtube.com/watch?v=abc";
     CallGetVideoMetadata "abc";
     CallFindMatch "Bohemian Rhapsody" "Queen";
     CallRemoveAll "/tmp/youflac/job-1"].
Proof. split; vm_compute; reflexivity. Qed.

Example copied_run :
  let s := runItem (demoWorld copyWorks) "job-1"
                   (demoQueue (Some [oldCopy])) in
  option_map (fun it => (Status it, Progress it, Stage it, OutputPath it))
             (GetItem (queue s) "job-1")
  = Some (StatusComplete, 100, "Copied from existing",
          "/music/Queen - Bohemian Rhapsody.mkv") /\
  Forall (fun c => match c with
                   | CallDownloadVideo _ _ _ _ | CallDownload _ _ _ _
                   | CallDownloadBySearch _ _ _ => False
                   | _ => True
                   end) (calls s).
Proof. split; [vm_compute; reflexivity|]. vm_compute. repeat constructor. Qed.

(** The first three end-to-end scenarios, on whole runs. *)
Example tidal_run :
  let s := runItem (demoWorld sunnyDay) "job-1" (demoQueue None) in
  option_map (fun it => (Status it, AudioSource it, AudioOnly it,
                         OutputPath it))
             (GetItem (queue s) "job-1")
  = Some (StatusComplete, "tidal", false,
          "/music/Queen - Bohemian Rhapsody.mkv").
Proof. vm_compute. reflexivity. Qed.

Example amazon_run :
  let s := runItem (demoWorld onlyAmazon) "job-1" (demoQueue None) in
  option_map (fun it => (Status it, AudioSource it))
             (GetItem (queue s) "job-1")
  = Some (StatusComplete, "amazon").
Proof. vm_compute. reflexivity. Qed.

Example extracted_run :
  let s := runItem (demoWorld servicesFail) "job-1" (demoQueue None) in
  option_map (fun it => (Status it, AudioSource it, AudioOnly it))
             (GetItem (queue s) "job-1")
  = Some (StatusComplete, "extracted", false).
Proof. vm_compute. reflexivity. Qed.
(* ===================================================================== *)
(** * Further properties of the persistence layer *)
(* ===================================================================== *)

(** X1. Each counter of [GetStats] is the number of items of its class:
    [Pending], [Completed], [Failed] and [Cancelled] count the items with
    that status, [Active] those in one of the five in-flight statuses, and
    [Total] is the length of the slice.  An item whose status is none of the
    nine constants falls through the [switch]: it is counted in [Total] and
    in no other counter. *)
Theorem GetStats_counts (q : Queue) :
  let st := GetStats q in
  Total st = Z.of_nat (length (items q)) /\
  Pending st = count_status (String.eqb StatusPending) (items q) /\
  Active st = count_status in_flight (items q) /\
  Completed st = count_status (String.eqb StatusComplete) (items q) /\
  Failed st = count_status (String.eqb StatusError) (items q) /\
  Cancelled st = count_status (String.eqb StatusCancelled) (items q) /\
  Total st
  = classified st
    + count_status (fun s => negb (is_defined s)) (items q).
Proof.
  cbv zeta. unfold GetStats.
  set (st0 := {| Total := _ |}).
  destruct (fold_stats_counts (items q) st0) as (I1 & I2 & I3 & I4 & I5 & I6).
  rewrite fold_stats_Total.
  repeat split; try assumption.
  rewrite I6. unfold st0, classified; simpl.
  clear. induction (items q) as [|it l IH]; [reflexivity|].
  rewrite !count_status_cons. cbn [length].
  destruct (is_defined (Status it)); simpl negb; cbv iota; lia.
Qed.

Lemma resume_item_idempotent it : resume_item (resume_item it) = resume_item it.
Proof.
  pose proof (resume_item_cases (resume_item it)) as H.
  now rewrite resume_item_not_in_flight in H.
Qed.

Lemma resume_item_fixed it :
  resume_item it = it <-> in_flight (Status it) = false.
Proof.
  split; intros H.
  - rewrite <- H. apply resume_item_not_in_flight.
  - pose proof (resume_item_cases it) as Hc. now rewrite H in Hc.
Qed.

(** X2. The normalisation [LoadQueue] applies to the persisted items is
    idempotent, and the item lists it leaves as they are are exactly those
    without an in-flight item. *)
Theorem resume_items_fixpoint (l : list QueueItem) :
  map resume_item (map resume_item l) = map resume_item l /\
  (map resume_item l = l
   <-> Forall (fun it => in_flight (Status it) = false) l).
Proof.
  split.
  - rewrite map_map. apply map_ext. intros it. apply resume_item_idempotent.
  - induction l as [|it l IH]; cbn [map].
    + split; [constructor | reflexivity].
    + split.
      * intros H. injection H as H1 H2. constructor.
        -- now apply resume_item_fixed.
        -- now apply IH.
      * intros H. inversion H as [|? ? H1 H2]; subst. f_equal.
        -- now apply resume_item_fixed.
        -- now apply IH.
Qed.

Lemma resume_items_fixpoint_witness :
  let l := [demoItem "a" StatusPending; demoItem "b" StatusError] in
  map resume_item l = l.
Proof.
  intros l. apply (proj2 (resume_items_fixpoint l)).
  repeat constructor.
Defined.

(** X3. Saving and loading again: when the codec decodes what it encoded,
    the save succeeds and the read is not refused, [LoadQueue] on the disk
    [SaveQueue] left returns no error and fills the queue with the saved
    items, those in flight reset to pending; the configuration, file index
    and history of the loading queue are not touched.  A queue without
    in-flight items comes back item for item. *)
Theorem SaveQueue_LoadQueue_roundtrip P J now q q' fs :
  let state := {| qs_Items := items q; qs_UpdatedAt := now |} in
  (forall data, MarshalIndent J state = Some data ->
                Unmarshal J data = Some state) ->
  (SaveQueue P J now q fs).1 = None ->
  fs_refuses fs (OpReadFile (GetQueueFilePath P)) = false ->
  let r := LoadQueue P J q' (SaveQueue P J now q fs).2 in
  r.1.1 = None /\
  r.1.2 = set_items (map resume_item (items q)) q' /\
  (Forall (fun it => in_flight (Status it) = false) (items q) ->
   items r.1.2 = items q).
Proof.
  intros state Hcodec Hok Hread.
  destruct (SaveQueue_success _ _ _ _ _ Hok) as [data [Hm Hs]].
  rewrite Hs. cbv zeta.
  erewrite LoadQueue_reads; [| | exact Hread | exact (Hcodec _ Hm)].
  - cbn [fst snd qs_Items]. split; [reflexivity|]. split; [reflexivity|].
    cbn [items set_items]. change (qs_Items state) with (items q).
    generalize (items q) as l. intros l Hnf.
    induction Hnf as [|it l Hit _ IH]; cbn [map]; [reflexivity|].
    f_equal; [now apply resume_item_fixed | exact IH].
  - cbn [fs_files fs_issue]. apply lookup_insert_eq.
Qed.

Lemma SaveQueue_LoadQueue_roundtrip_witness :
  let its := [demoItem "a" StatusMuxing; demoItem "b" StatusComplete] in
  let q := set_items its emptyQueue in
  let r := LoadQueue demoPaths (demoCodec its) emptyQueue
             (SaveQueue demoPaths (demoCodec its) 0 q (demoDisk ∅)).2 in
  r.1.1 = None /\
  r.1.2 = set_items (map resume_item (items q)) emptyQueue /\
  (Forall (fun it => in_flight (Status it) = false) (items q) ->
   items r.1.2 = items q).
Proof.
  intros its q.
  apply (SaveQueue_LoadQueue_roundtrip demoPaths (demoCodec its) 0 q
           emptyQueue (demoDisk ∅)).
  - intros data H. injection H as <-. reflexivity.
  - reflexivity.
  - reflexivity.
Defined.

(** X4. [LoadQueue] only reads: whatever happens it issues the one read of
    the queue file and leaves every file as it was.  The queue is replaced
    only when the file was read and decoded: a missing file is no error and
    leaves the queue as it is, and whenever an error is returned the queue
    is unchanged; the configuration, file index and history are never
    touched. *)
Theorem LoadQueue_read_only P J q fs :
  let r := LoadQueue P J q fs in
  fs_files r.2 = fs_files fs /\
  fs_log r.2 = (fs_log fs ++ [OpReadFile (GetQueueFilePath P)])%list /\
  (fs_files fs !! GetQueueFilePath P = None -> r.1 = (None, q)) /\
  (r.1.1 <> None -> r.1.2 = q) /\
  config r.1.2 = config q /\ fileIndex r.1.2 = fileIndex q /\
  history r.1.2 = history q.
Proof.
  cbv zeta. unfold LoadQueue, os_ReadFile.
  destruct (fs_files fs !! GetQueueFilePath P) as [data|];
    [destruct (fs_refuses fs _); [|destruct (Unmarshal J data)]|];
    cbn [fst snd fs_issue fs_files fs_log set_items config fileIndex history];
    repeat split; try reflexivity; try discriminate; try congruence.
Qed.

Lemma LoadQueue_read_only_witness :
  let q := set_items [demoItem "a" StatusPending] emptyQueue in
  (LoadQueue demoPaths (demoCodec []) q (demoDisk ∅)).1 = (None, q).
Proof.
  intros q.
  apply (proj1 (proj2 (proj2
           (LoadQueue_read_only demoPaths (demoCodec []) q (demoDisk ∅))))).
  reflexivity.
Defined.

(** X5. [SaveQueue] touches no file other than the queue file.  When the
    state cannot be marshalled it returns its error before any file-system
    operation; when the directory cannot be created it returns its error
    after that one operation, without attempting the write. *)
Theorem SaveQueue_failures P J now q fs :
  let r := SaveQueue P J now q fs in
  let state := {| qs_Items := items q; qs_UpdatedAt := now |} in
  let path := GetQueueFilePath P in
  (forall p, p <> path -> fs_files r.2 !! p = fs_files fs !! p) /\
  (MarshalIndent J state = None ->
   r = (Some "failed to marshal queue", fs)) /\
  (MarshalIndent J state <> None ->
   fs_refuses fs (OpMkdirAll (Dir P path)) = true ->
   r.1 = Some "failed to create queue directory" /\
   fs_files r.2 = fs_files fs /\
   fs_log r.2 = (fs_log fs ++ [OpMkdirAll (Dir P path)])%list).
Proof.
  cbv zeta. unfold SaveQueue, os_MkdirAll, os_WriteFile.
  destruct (MarshalIndent J _) as [data|].
  - destruct (fs_refuses fs (OpMkdirAll _)) eqn:Hd;
      cbn [fs_issue fs_refuses fs_files fs_log fst snd].
    + repeat split; try reflexivity; discriminate.
    + destruct (fs_refuses fs (OpWriteFile _ _));
        cbn [fs_issue fs_refuses fs_files fs_log fst snd].
      * repeat split; try reflexivity; discriminate.
      * split; [|split; discriminate].
        intros p Hp. now apply lookup_insert_ne.
  - split; [reflexivity|]. split; [reflexivity|].
    intros Hx; contradiction.
Qed.

Lemma SaveQueue_failures_witness :
  let q := set_items [demoItem "a" StatusPending] emptyQueue in
  let fs := {| fs_files := {[ "/data/queue.json" := "<old>" ]};
               fs_refuses := fun op => match op with
                                       | OpMkdirAll _ => true
                                       | _ => false
                                       end;
               fs_log := [] |} in
  let r := SaveQueue demoPaths (demoCodec []) 7 q fs in
  r.1 = Some "failed to create queue directory" /\
  fs_files r.2 = fs_files fs /\
  fs_log r.2
  = (fs_log fs ++ [OpMkdirAll (Dir demoPaths (GetQueueFilePath demoPaths))])%list.
Proof.
  intros q fs.
  apply (proj2 (proj2 (SaveQueue_failures demoPaths (demoCodec []) 7 q fs))).
  - discriminate.
  - reflexivity.
Defined.

(* ===================================================================== *)
(** * Further properties of the playlist writer *)
(* ===================================================================== *)

Lemma m3u8_content_no_output P dir its :
  Forall (fun it => OutputPath it = "") its ->
  m3u8_content P dir its = "#EXTM3U" ++ nl.
Proof.
  intros H. unfold m3u8_content. generalize ("#EXTM3U" ++ nl).
  induction H as [|it l Hit _ IH]; intros sb; [reflexivity|].
  cbn [fold_left]. unfold m3u8_step at 2. rewrite Hit. apply IH.
Qed.

(** X6. [GenerateM3U8] on a non-empty slice whose items all lack an output
    path still writes the playlist file: it holds the header line alone. *)
Theorem GenerateM3U8_header_only P its outputDir playlistName fs :
  its <> [] ->
  Forall (fun it => OutputPath it = "") its ->
  fs_refuses fs (OpMkdirAll outputDir) = false ->
  fs_refuses fs (OpWriteFile (m3u8_path P outputDir playlistName)
                   ("#EXTM3U" ++ nl)) = false ->
  let r := GenerateM3U8 P its outputDir playlistName fs in
  r.1 = None /\
  fs_files r.2
  = <[m3u8_path P outputDir playlistName := "#EXTM3U" ++ nl]> (fs_files fs).
Proof.
  intros Hne Hall Hd Hw. cbv zeta. unfold GenerateM3U8.
  destruct its as [|i0 its']; [contradiction|].
  change (length (i0 :: its') =? 0)%nat with false. cbv iota.
  rewrite (m3u8_content_no_output _ _ _ Hall).
  unfold os_MkdirAll, os_WriteFile. rewrite Hd.
  cbn [fs_issue fs_refuses fs_files fs_log fst snd]. rewrite Hw.
  split; reflexivity.
Qed.

Lemma GenerateM3U8_header_only_witness :
  let its := [demoItem "a" StatusError; demoItem "b" StatusPending] in
  let r := GenerateM3U8 demoPaths its "/music" "mix" (demoDisk ∅) in
  r.1 = None /\
  fs_files r.2
  = <[m3u8_path demoPaths "/music" "mix" := "#EXTM3U" ++ nl]>
      (fs_files (demoDisk ∅)).
Proof.
  intros its.
  apply (GenerateM3U8_header_only demoPaths its "/music" "mix" (demoDisk ∅)).
  - discriminate.
  - repeat constructor.
  - reflexivity.
  - reflexivity.
Defined.

(** X7. [GenerateM3U8] on a non-empty slice returns [nil] exactly when
    neither the creation of the output directory nor the write of the
    playlist is refused.  When the directory cannot be created it returns
    its error after that one operation: no write is attempted and no file
    is changed. *)
Theorem GenerateM3U8_mkdir_fails P its outputDir playlistName fs :
  its <> [] ->
  let r := GenerateM3U8 P its outputDir playlistName fs in
  (r.1 = None <->
   fs_refuses fs (OpMkdirAll outputDir) = false /\
   fs_refuses fs (OpWriteFile (m3u8_path P outputDir playlistName)
                    (m3u8_content P outputDir its)) = false) /\
  (fs_refuses fs (OpMkdirAll outputDir) = true ->
   r.1 = Some "failed to create output directory" /\
   fs_files r.2 = fs_files fs /\
   fs_log r.2 = (fs_log fs ++ [OpMkdirAll outputDir])%list).
Proof.
  intros Hne. cbv zeta. unfold GenerateM3U8.
  destruct its as [|i0 its']; [contradiction|].
  change (length (i0 :: its') =? 0)%nat with false. cbv iota.
  unfold os_MkdirAll, os_WriteFile.
  destruct (fs_refuses fs (OpMkdirAll outputDir));
    cbn [fs_issue fs_refuses fs_files fs_log fst snd].
  - split; [|intros _; repeat split].
    split; [discriminate | intros [H _]; discriminate H].
  - destruct (fs_refuses fs (OpWriteFile _ _));
      cbn [fs_issue fs_refuses fs_files fs_log fst snd];
      (split; [|discriminate]).
    + split; [discriminate | intros [_ H]; discriminate H].
    + split; [intros _; split; reflexivity | reflexivity].
Qed.

Lemma GenerateM3U8_mkdir_fails_witness :
  let fs := {| fs_files := ∅;
               fs_refuses := fun op => match op with
                                       | OpMkdirAll _ => true
                                       | _ => false
                                       end;
               fs_log := [] |} in
  let r := GenerateM3U8 demoPaths demoTracks "/music" "mix" fs in
  r.1 = Some "failed to create output directory" /\
  fs_files r.2 = fs_files fs /\
  fs_log r.2 = (fs_log fs ++ [OpMkdirAll "/music"])%list.
Proof.
  intros fs.
  apply (proj2 (GenerateM3U8_mkdir_fails demoPaths demoTracks "/music" "mix"
                  fs ltac:(discriminate))).
  reflexivity.
Defined.

(* ===================================================================== *)
(** * What every run of the pipeline maintains *)
(* ===================================================================== *)

Lemma same_identity_refl it : same_identity it it.
Proof. repeat split. Qed.

Lemma item_kept_refl it : item_kept it it.
Proof.
  split; [apply same_identity_refl|]. split; [now left|].
  split; [now left | auto].
Qed.

Lemma item_kept_trans a b c : item_kept a b -> item_kept b c -> item_kept a c.
Proof.
  intros ((A1 & A2 & A3 & A4 & A5 & A6 & A7 & A8) & As & Ap & Ao)
         ((B1 & B2 & B3 & B4 & B5 & B6 & B7 & B8) & Bs & Bp & Bo).
  split; [|split; [|split]].
  - repeat split; congruence.
  - destruct Bs as [Bs|Bs]; [|now right].
    destruct As as [As|As]; [left; congruence | right; now rewrite Bs].
  - destruct Bp as [Bp|Bp]; [|now right].
    destruct Ap as [Ap|Ap]; [left; congruence | right; now rewrite Bp].
  - auto.
Qed.

Lemma item_kept_assign a it : assign_ok a -> item_kept it (assign a it).
Proof.
  destruct a; cbn [assign_ok assign]; intros H;
    (split; [repeat split|]); cbn;
    (split; [first [now left | now right]|]);
    (split; [first [now left | now right]|]); auto.
Qed.

Lemma item_kept_mutate body it :
  Forall assign_ok body -> item_kept it (mutate body it).
Proof.
  unfold mutate. intros H. revert it.
  induction H as [|a body Ha _ IH]; intros it; cbn [fold_left].
  - apply item_kept_refl.
  - eapply item_kept_trans; [apply item_kept_assign, Ha | apply IH].
Qed.

Lemma item_kept_ID a b : item_kept a b -> ID b = ID a.
Proof. intros [[H _] _]. exact H. Qed.

Lemma update_first_twice id f g l :
  (forall it, ID (f it) = ID it) ->
  update_first id g (update_first id f l)
  = update_first id (fun it => g (f it)) l.
Proof.
  intros Hf. induction l as [|x l IH]; simpl; [reflexivity|].
  destruct (ID x =? id) eqn:E; simpl.
  - now rewrite Hf, E.
  - rewrite E. now f_equal.
Qed.

Lemma run_frame_refl id l : run_frame id l l.
Proof.
  exists (fun it => it). split; [apply item_kept_refl|].
  induction l as [|x l IH]; simpl; [reflexivity|].
  destruct (ID x =? id); [reflexivity | now f_equal].
Qed.

Lemma run_frame_update id items0 l g :
  (forall it, item_kept it (g it)) ->
  run_frame id items0 l -> run_frame id items0 (update_first id g l).
Proof.
  intros Hg [f [Hf ->]]. exists (fun it => g (f it)). split.
  - intros it. eapply item_kept_trans; [apply Hf | apply Hg].
  - apply update_first_twice. intros it. apply item_kept_ID, Hf.
Qed.

Lemma run_frame_step id items0 l body :
  Forall assign_ok body ->
  run_frame id items0 l ->
  run_frame id items0 (update_first id (mutate body) l).
Proof.
  intros Hb. apply run_frame_update. intros it. now apply item_kept_mutate.
Qed.

Lemma calls_since_cons w tempDir base c l :
  call_ok w tempDir c -> calls_since w tempDir base l ->
  calls_since w tempDir base (c :: l).
Proof.
  intros Hc [new [-> Hall]]. exists (c :: new). split; [reflexivity|].
  constructor; assumption.
Qed.

Lemma calls_since_refl w tempDir base : calls_since w tempDir base base.
Proof. exists []. split; [reflexivity | constructor]. Qed.

Lemma completed_updated id it p st l :
  List.filter is_completed
    ({| ev_Type := "updated"; ev_ItemID := id; ev_Item := it;
        ev_Progress := p; ev_Status := st |} :: l)
  = List.filter is_completed l.
Proof. reflexivity. Qed.

Lemma completed_error id it p st l :
  List.filter is_completed
    ({| ev_Type := "error"; ev_ItemID := id; ev_Item := it;
        ev_Progress := p; ev_Status := st |} :: l)
  = List.filter is_completed l.
Proof. reflexivity. Qed.

Lemma completed_completed id l :
  List.filter is_completed (completedEvent id :: l)
  = completedEvent id :: List.filter is_completed l.
Proof. reflexivity. Qed.

Lemma sourceURL_known links source :
  sourceURL links source <> "" -> In source pipeline_sources.
Proof.
  unfold sourceURL, pipeline_sources.
  destruct (String.eqb_spec source "tidal") as [->|_]; [simpl; tauto|].
  destruct (String.eqb_spec source "qobuz") as [->|_]; [simpl; tauto|].
  destruct (String.eqb_spec source "amazon") as [->|_]; [simpl; tauto|].
  destruct (String.eqb_spec source "deezer") as [->|_]; [simpl; tauto|].
  intros H. now contradiction H.
Qed.

Lemma hoare_bind_inv {A B} (P I I' E : RunState -> Prop)
    (m : M A) (k : A -> M B) :
  hoare P m (inv_post I E) ->
  (forall a, hoare I (k a) (inv_post I' E)) ->
  hoare P (bind m k) (inv_post I' E).
Proof.
  intros Hm Hk. eapply hoare_bind; [|exact Hk].
  intros s HP. specialize (Hm s HP). unfold inv_post in *.
  destruct (m s).1; exact Hm.
Qed.

(** The checks at the leaves of a symbolically run step. *)
Ltac assign_check :=
  repeat match goal with
         | |- Forall _ (_ :: _) => constructor
         | |- Forall _ [] => constructor
         end;
  cbn [assign_ok];
  first [ exact I | lia | reflexivity | assumption
        | unfold pipeline_sources; simpl; tauto ].

Ltac frame_solve :=
  cbn [queue items set_items];
  repeat (apply run_frame_step; [solve [assign_check]|]);
  assumption.

Ltac call_check :=
  cbn [call_ok];
  first [ exact I | discriminate | reflexivity | assumption
        | repeat split;
          first [ reflexivity | assumption
                | apply String.eqb_neq; assumption
                | match goal with
                  | H : negb (?x =? "") = true |- ?x <> "" =>
                      apply String.eqb_neq;
                      apply negb_true_iff in H; exact H
                  end ] ].

Ltac calls_solve :=
  cbn [calls];
  repeat (apply calls_since_cons; [solve [call_check]|]);
  assumption.

Ltac events_solve Hev :=
  unfold completed_events in *; cbn [events];
  repeat first [ rewrite completed_updated | rewrite completed_error
               | rewrite completed_completed ];
  rewrite ?Hev; reflexivity.

Ltac status_value :=
  match goal with
  | |- context [Status ?x] =>
      lazymatch x with
      | mutate _ _ =>
          let v := eval cbn in (Status x) in
          change (Status x) with v
      end
  end.

Ltac base_solve Hf Hc Hcalls :=
  unfold run_base; cbn [queue config set_items];
  split; [frame_solve | split; [exact Hc | calls_solve]].

Ltac item_status Hit :=
  try status_value; first [reflexivity | exact Hit].

Ltac in_list :=
  cbn; solve [repeat first [left; reflexivity | right]].

Ltac running_solve Hit Hev :=
  unfold running; split;
  [ unfold GetItem in *; cbn [queue items set_items];
    rewrite ?find_mutated;
    destruct (find_item _ _) as [?it0|]; cbn [option_map];
    [item_status Hit | exact I]
  | events_solve Hev ].

Ltac ended_solve Hit Hev :=
  unfold ended, item_ended;
  unfold GetItem in *; cbn [queue items set_items];
  rewrite ?find_mutated;
  destruct (find_item _ _) as [?it0|]; cbn [option_map]; [|exact I];
  first
    [ solve [left; split; [item_status Hit | events_solve Hev]]
    | solve [right; left; split; [reflexivity|];
             split; [reflexivity|]; split; [reflexivity|];
             events_solve Hev]
    | solve [right; right; split; [reflexivity|];
             split; [in_list | events_solve Hev]] ].

Ltac run_leaf Hf Hc Hcalls Hit Hev :=
  lazymatch goal with
  | |- run_going _ _ _ _ _ _ =>
      split; [base_solve Hf Hc Hcalls | running_solve Hit Hev]
  | |- run_over _ _ _ _ _ _ =>
      split; [base_solve Hf Hc Hcalls | ended_solve Hit Hev]
  end.

Lemma fetchVideoInfo_inv w id tempDir q0 base item :
  hoare (run_going w id tempDir q0 base)
        (fetchVideoInfo w id item)
        (inv_post (run_going w id tempDir q0 base)
                  (run_over w id tempDir q0 base)).
Proof.
  intros s [(Hf & Hc & Hcalls) [Hit Hev]].
  unfold fetchVideoInfo, inv_post. run_cases; run_leaf Hf Hc Hcalls Hit Hev.
Qed.

Ltac step_going :=
  match goal with
  | |- hoare (run_going ?w ?id ?t ?q ?b) _ _ =>
      eapply (hoare_bind_inv _ (run_going w id t q b))
  end.

Lemma checkExistingFile_inv w cfg id tempDir q0 base videoInfo item :
  hoare (run_going w id tempDir q0 base)
        (checkExistingFile w cfg id videoInfo item)
        (inv_post (run_going w id tempDir q0 base)
                  (run_over w id tempDir q0 base)).
Proof.
  intros s [(Hf & Hc & Hcalls) [Hit Hev]].
  unfold checkExistingFile, inv_post.
  run_cases; run_leaf Hf Hc Hcalls Hit Hev.
Qed.

Lemma downloadVideo_inv w cfg id videoID tempDir q0 base :
  hoare (run_going w id tempDir q0 base)
        (downloadVideo w cfg id videoID tempDir)
        (inv_post (run_going w id tempDir q0 base)
                  (run_over w id tempDir q0 base)).
Proof.
  intros s [(Hf & Hc & Hcalls) [Hit Hev]].
  unfold downloadVideo, inv_post.
  run_cases; run_leaf Hf Hc Hcalls Hit Hev.
Qed.

Lemma tryServices_inv w id source url tempDir q0 base :
  url <> "" ->
  hoare (run_going w id tempDir q0 base)
        (tryServices w id source url tempDir)
        (inv_post (run_going w id tempDir q0 base)
                  (run_over w id tempDir q0 base)).
Proof.
  intros Hurl s [(Hf & Hc & Hcalls) [Hit Hev]].
  unfold tryServices, inv_post.
  run_cases; run_leaf Hf Hc Hcalls Hit Hev.
Qed.

Lemma trySources_inv w id tempDir q0 base links sources :
  forall n,
  hoare (run_going w id tempDir q0 base)
        (trySources w id tempDir links sources n)
        (inv_post (run_going w id tempDir q0 base)
                  (run_over w id tempDir q0 base)).
Proof.
  induction sources as [|source rest IH]; intros n; simpl trySources.
  - intros s H. exact H.
  - step_going.
    { intros s [(Hf & Hc & Hcalls) [Hit Hev]]. unfold inv_post.
      run_cases; run_leaf Hf Hc Hcalls Hit Hev. }
    intros _. destruct (sourceURL links source =? "") eqn:Hurl; [apply IH|].
    apply String.eqb_neq in Hurl.
    pose proof (sourceURL_known _ _ Hurl) as Hsrc.
    step_going.
    { intros s [(Hf & Hc & Hcalls) [Hit Hev]]. unfold inv_post.
      run_cases; run_leaf Hf Hc Hcalls Hit Hev. }
    intros _. step_going; [apply tryServices_inv, Hurl|].
    intros [r|]; [|apply IH].
    intros s [(Hf & Hc & Hcalls) [Hit Hev]]. unfold inv_post.
    run_cases; run_leaf Hf Hc Hcalls Hit Hev.
Qed.

Lemma resolveAndDownload_inv w cfg id tempDir q0 base item :
  hoare (run_going w id tempDir q0 base)
        (resolveAndDownload w cfg id tempDir item)
        (inv_post (run_going w id tempDir q0 base)
                  (run_over w id tempDir q0 base)).
Proof.
  unfold resolveAndDownload.
  destruct (_ || _).
  - step_going.
    { intros s [(Hf & Hc & Hcalls) [Hit Hev]]. unfold inv_post.
      run_cases; run_leaf Hf Hc Hcalls Hit Hev. }
    intros _. step_going.
    { intros s [(Hf & Hc & Hcalls) [Hit Hev]]. unfold inv_post.
      run_cases; run_leaf Hf Hc Hcalls Hit Hev. }
    intros _. destruct (w_ResolveMusicURL w _); [apply trySources_inv|].
    intros s H. exact H.
  - intros s H. exact H.
Qed.

Lemma searchFallback_inv w id tempDir q0 base videoInfo :
  hoare (run_going w id tempDir q0 base)
        (searchFallback w id tempDir videoInfo)
        (inv_post (run_going w id tempDir q0 base)
                  (run_over w id tempDir q0 base)).
Proof.
  intros s [(Hf & Hc & Hcalls) [Hit Hev]].
  unfold searchFallback, inv_post.
  destruct (negb (vi_Artist videoInfo =? "")) eqn:Ha;
    destruct (negb (vi_Title videoInfo =? "")) eqn:Ht; cbn [andb];
    run_cases; run_leaf Hf Hc Hcalls Hit Hev.
Qed.

Lemma extractFallback_inv w id tempDir q0 base videoPath :
  hoare (run_going w id tempDir q0 base)
        (extractFallback w id tempDir videoPath)
        (inv_post (run_going w id tempDir q0 base)
                  (run_over w id tempDir q0 base)).
Proof.
  intros s [(Hf & Hc & Hcalls) [Hit Hev]].
  unfold extractFallback, inv_post.
  run_cases; run_leaf Hf Hc Hcalls Hit Hev.
Qed.

Lemma findAndDownloadAudio_inv w cfg id tempDir q0 base videoInfo item
    videoPath :
  hoare (run_going w id tempDir q0 base)
        (findAndDownloadAudio w cfg id tempDir videoInfo item videoPath)
        (inv_post (run_going w id tempDir q0 base)
                  (run_over w id tempDir q0 base)).
Proof.
  unfold findAndDownloadAudio.
  step_going.
  { intros s [(Hf & Hc & Hcalls) [Hit Hev]]. unfold inv_post.
    run_cases; run_leaf Hf Hc Hcalls Hit Hev. }
  intros _. step_going.
  { intros s [(Hf & Hc & Hcalls) [Hit Hev]]. unfold inv_post.
    run_cases; run_leaf Hf Hc Hcalls Hit Hev. }
  intros _. step_going; [apply resolveAndDownload_inv|].
  intros downloaded. step_going.
  { destruct downloaded as [p|]; [|apply searchFallback_inv].
    intros s H. exact H. }
  intros [p|]; [|apply extractFallback_inv].
  intros s H. exact H.
Qed.

Lemma muxStage_inv w cfg id tempDir q0 base videoInfo audioOnly :
  hoare (run_going w id tempDir q0 base)
        (muxStage w cfg id tempDir videoInfo audioOnly)
        (inv_post (run_going w id tempDir q0 base)
                  (run_over w id tempDir q0 base)).
Proof.
  intros s [(Hf & Hc & Hcalls) [Hit Hev]].
  unfold muxStage, inv_post.
  run_cases; run_leaf Hf Hc Hcalls Hit Hev.
Qed.

Lemma lyricsStage_inv w cfg id tempDir q0 base videoInfo result :
  hoare (run_going w id tempDir q0 base)
        (lyricsStage w cfg id videoInfo result)
        (inv_post (run_going w id tempDir q0 base)
                  (run_over w id tempDir q0 base)).
Proof.
  intros s [(Hf & Hc & Hcalls) [Hit Hev]].
  unfold lyricsStage, inv_post.
  run_cases; run_leaf Hf Hc Hcalls Hit Hev.
Qed.

Lemma organizeStage_inv w cfg id tempDir q0 base videoInfo outputPath
    result :
  hoare (run_going w id tempDir q0 base)
        (organizeStage w cfg id videoInfo outputPath result)
        (inv_post (run_going w id tempDir q0 base)
                  (run_over w id tempDir q0 base)).
Proof.
  intros s [(Hf & Hc & Hcalls) [Hit Hev]].
  unfold organizeStage, inv_post.
  run_cases; run_leaf Hf Hc Hcalls Hit Hev.
Qed.

Lemma completeStage_inv w id tempDir q0 base videoInfo result :
  hoare (run_going w id tempDir q0 base)
        (completeStage w id videoInfo result)
        (inv_post (run_over w id tempDir q0 base)
                  (run_over w id tempDir q0 base)).
Proof.
  intros s [(Hf & Hc & Hcalls) [Hit Hev]].
  unfold completeStage, inv_post.
  run_cases; run_leaf Hf Hc Hcalls Hit Hev.
Qed.

Lemma downloadAndFinish_inv w cfg id tempDir q0 base videoID videoInfo
    item :
  hoare (run_going w id tempDir q0 base)
        (downloadAndFinish w cfg id tempDir videoID videoInfo item)
        (inv_post (run_over w id tempDir q0 base)
                  (run_over w id tempDir q0 base)).
Proof.
  unfold downloadAndFinish.
  step_going; [apply downloadVideo_inv|].
  intros [videoPath audioOnly].
  step_going; [apply findAndDownloadAudio_inv|].
  intros _. step_going; [apply muxStage_inv|].
  intros [outputPath result].
  step_going; [apply lyricsStage_inv|].
  intros _. step_going; [apply organizeStage_inv|].
  intros _. apply completeStage_inv.
Qed.

Lemma stages_inv w cfg id tempDir q0 base item :
  hoare (run_going w id tempDir q0 base)
        (stages w cfg id tempDir item)
        (inv_post (run_over w id tempDir q0 base)
                  (run_over w id tempDir q0 base)).
Proof.
  unfold stages.
  step_going; [apply fetchVideoInfo_inv|].
  intros [videoInfo videoID].
  step_going; [apply checkExistingFile_inv|].
  intros item'. apply downloadAndFinish_inv.
Qed.

Lemma processItem_claimed w id s0 it :
  find_item id (items (queue s0)) = Some it ->
  Status it = StatusPending ->
  processItem w id s0
  = let tempDir := tempDirOf w id in
    let cfg := match config (queue s0) with
               | Some c => c
               | None => w_defaultConfig w
               end in
    let s2 := afterClaim w id s0 (claimed w it) in
    if negb (w_MkdirAll w tempDir)
    then (SetItemError id "failed to create temp dir";; return_) s2
    else defer (call (CallRemoveAll tempDir))
               (stages w cfg id tempDir (claimed w it)) s2.
Proof.
  intros Hfind Hpend. cbv zeta.
  unfold processItem. unfold bind at 1. unfold claimItem.
  rewrite Hfind, Hpend.
  change (negb (StatusPending =? StatusPending)) with false. cbv iota.
  unfold bind at 1. unfold getItem, GetItem. cbn [queue items set_items].
  rewrite find_update_first_eq by reflexivity. rewrite Hfind.
  cbn [option_map]. unfold bind, emit, readQueue, call, tempDirOf.
  cbn [queue config set_items].
  destruct (w_MkdirAll w _); reflexivity.
Qed.

Lemma afterClaim_going w id s0 it :
  find_item id (items (queue s0)) = Some it ->
  completed_events s0 = [] ->
  run_going w id (tempDirOf w id) (queue s0)
    (CallMkdirAll (tempDirOf w id) :: calls s0)
    (afterClaim w id s0 (claimed w it)).
Proof.
  intros Hfind Hev. split; [split; [|split]|split].
  - cbn [afterClaim queue items set_items].
    apply run_frame_update; [|apply run_frame_refl].
    intros x. split; [repeat split|].
    split; [now left|]. split; [now left | auto].
  - reflexivity.
  - apply calls_since_refl.
  - unfold GetItem. cbn [afterClaim queue items set_items].
    rewrite find_update_first_eq by reflexivity. rewrite Hfind.
    reflexivity.
  - unfold completed_events in *. cbn [afterClaim events].
    rewrite completed_updated. exact Hev.
Qed.

Lemma processItem_run w id s0 it :
  find_item id (items (queue s0)) = Some it ->
  Status it = StatusPending ->
  completed_events s0 = [] ->
  let tempDir := tempDirOf w id in
  let s := (processItem w id s0).2 in
  run_frame id (items (queue s0)) (items (queue s)) /\
  config (queue s) = config (queue s0) /\
  ended w id s /\
  (if w_MkdirAll w tempDir
   then exists new,
          calls s = (CallRemoveAll tempDir :: new
                     ++ CallMkdirAll tempDir :: calls s0)%list /\
          Forall (call_ok w tempDir) new
   else calls s = CallMkdirAll tempDir :: calls s0 /\
        exists it', GetItem (queue s) id = Some it' /\
                    Status it' = StatusError /\
                    Error it' = "failed to create temp dir").
Proof.
  intros Hfind Hpend Hev. cbv zeta.
  rewrite (processItem_claimed w id s0 it Hfind Hpend). cbv zeta.
  pose proof (afterClaim_going w id s0 it Hfind Hev) as Hgo.
  destruct (w_MkdirAll w (tempDirOf w id)); cbn [negb].
  - set (cfg := match config (queue s0) with
                | Some c => c
                | None => w_defaultConfig w
                end).
    pose proof (stages_inv w cfg id (tempDirOf w id) (queue s0) _
                  (claimed w it) _ Hgo) as Hst.
    unfold defer.
    destruct (stages w cfg id (tempDirOf w id) (claimed w it) _)
      as [o s'].
    cbn [fst snd] in *.
    assert (Hover : run_over w id (tempDirOf w id) (queue s0)
                      (CallMkdirAll (tempDirOf w id) :: calls s0) s')
      by (destruct o; exact Hst).
    destruct Hover as [(Hf & Hc & [new [Hcalls Hall]]) Hend].
    unfold call. cbn [snd queue calls].
    split; [exact Hf|]. split; [exact Hc|]. split.
    + unfold ended, item_ended, completed_events in *.
      cbn [queue events]. exact Hend.
    + exists new. split; [now rewrite Hcalls | exact Hall].
  - destruct Hgo as [(Hf & Hc & Hcalls) [Hit Hev']].
    run_unfold.
    split; [frame_solve|]. split; [exact Hc|]. split.
    + clear Hfind.
      remember (afterClaim w id s0 (claimed w it)) as s2 eqn:Hs2.
      clear Hs2. ended_solve Hit Hev'.
    + split; [reflexivity|].
      unfold GetItem. cbn [afterClaim queue items set_items].
      rewrite find_mutated, find_update_first_eq by reflexivity.
      rewrite Hfind. cbn [option_map].
      eexists. split; [reflexivity|]. split; reflexivity.
Qed.

Lemma runItem_idle w id q :
  (forall it, find_item id (items q) = Some it ->
              Status it <> StatusPending) ->
  runItem w id q = startRun q.
Proof.
  intros H. unfold runItem.
  assert (E : processItem w id (startRun q) = (Returned, startRun q)).
  { unfold processItem, bind, claimItem, getItem, GetItem.
    change (items (queue (startRun q))) with (items q).
    destruct (find_item id (items q)) as [it|] eqn:Hfind.
    - destruct (String.eqb_spec (Status it) StatusPending) as [E|_].
      + now contradiction (H it eq_refl).
      + reflexivity.
    - change (items (queue (startRun q))) with (items q).
      rewrite Hfind. reflexivity. }
  now rewrite E.
Qed.

Lemma find_run_frame id items0 l it :
  run_frame id items0 l -> find_item id items0 = Some it ->
  exists it', find_item id l = Some it' /\ item_kept it it'.
Proof.
  intros [f [Hf ->]] Hfind. exists (f it). split; [|apply Hf].
  rewrite find_update_first_eq by (intros x; apply item_kept_ID, Hf).
  now rewrite Hfind.
Qed.

(** X8. [processItem] works on pending items only: called for an ID that is
    not in the queue, or whose item is in any status other than pending, it
    returns at once; the queue is untouched, nothing is published and no
    call is made. *)
Theorem processItem_only_pending w id s :
  (forall it, find_item id (items (queue s)) = Some it ->
              Status it <> StatusPending) ->
  processItem w id s = (Returned, s).
Proof.
  intros H. unfold processItem, bind, claimItem, getItem, GetItem.
  destruct (find_item id (items (queue s))) as [it|] eqn:Hfind.
  - destruct (String.eqb_spec (Status it) StatusPending) as [E|_].
    + now contradiction (H it eq_refl).
    + reflexivity.
  - rewrite Hfind. reflexivity.
Qed.

Lemma processItem_only_pending_witness :
  let s := startRun (set_items [demoItem "job-1" StatusComplete] emptyQueue) in
  processItem (demoWorld sunnyDay) "job-1" s = (Returned, s).
Proof.
  intros s. apply (processItem_only_pending (demoWorld sunnyDay) "job-1" s).
  intros it H. injection H as <-. discriminate.
Defined.

(** X9. A run of [processItem] adds, removes and reorders no item and
    changes at most the first item carrying the ID it was called for; of
    that item it keeps the ID, the video and catalogue URLs, the album, the
    playlist name and position, the match candidates and diagnostics; the
    audio source and the progress are left alone or set to one of the
    pipeline's sources and to a value from 5 to 100; the audio-only mark is
    never taken back.  The configuration of the queue is not touched. *)
Theorem processItem_frame w id q :
  let s := runItem w id q in
  (exists f, (forall it, item_kept it (f it)) /\
             items (queue s) = update_first id f (items q)) /\
  config (queue s) = config q.
Proof.
  cbv zeta.
  destruct (find_item id (items q)) as [it|] eqn:Hfind.
  - destruct (String.eqb_spec (Status it) StatusPending) as [E|E].
    + destruct (processItem_run w id (startRun q) it Hfind E eq_refl)
        as (Hf & Hc & _). split; [exact Hf | exact Hc].
    + rewrite runItem_idle by congruence.
      split; [apply run_frame_refl | reflexivity].
  - rewrite runItem_idle by congruence.
    split; [apply run_frame_refl | reflexivity].
Qed.

(** X10. A run of [processItem] on a pending item leaves the item in one of
    three conditions: still in flight, with no completion published (the
    run was cancelled at a checkpoint, or panicked); complete, with progress
    100, the completion time set, and exactly one completion event
    published; or in error, with one of the eight messages of the pipeline
    and no completion published.  It is never left pending. *)
Theorem processItem_ends w id q it :
  find_item id (items q) = Some it ->
  Status it = StatusPending ->
  let s := runItem w id q in
  exists it', GetItem (queue s) id = Some it' /\
    ((in_flight (Status it') = true /\ completed_events s = [])
     \/ (Status it' = StatusComplete /\ Progress it' = 100 /\
         CompletedAt it' = w_now w /\
         completed_events s = [completedEvent id])
     \/ (Status it' = StatusError /\ In (Error it') pipeline_errors /\
         completed_events s = [])).
Proof.
  intros Hfind Hpend. cbv zeta. unfold runItem.
  destruct (processItem_run w id (startRun q) it Hfind Hpend eq_refl)
    as (Hf & _ & Hend & _).
  destruct (find_run_frame _ _ _ _ Hf Hfind) as [it' [Hit' _]].
  exists it'. split; [exact Hit'|].
  unfold ended, GetItem in Hend. rewrite Hit' in Hend. exact Hend.
Qed.

Lemma processItem_ends_witness :
  let w := demoWorld sunnyDay in
  let s := runItem w "job-1" (demoQueue None) in
  exists it', GetItem (queue s) "job-1" = Some it' /\
    ((in_flight (Status it') = true /\ completed_events s = [])
     \/ (Status it' = StatusComplete /\ Progress it' = 100 /\
         CompletedAt it' = w_now w /\
         completed_events s = [completedEvent "job-1"])
     \/ (Status it' = StatusError /\ In (Error it') pipeline_errors /\
         completed_events s = [])).
Proof.
  intros w.
  exact (processItem_ends w "job-1" (demoQueue None)
           (set_Title "" (set_Artist "" (demoItem "job-1" StatusPending)))
           eq_refl eq_refl).
Defined.

(** X11. The temporary directory of a run on a pending item: the first call
    of the run creates it.  If that fails, it is the only call and the item
    ends in error with "failed to create temp dir".  If it succeeds, the
    last call of the run removes the directory again, however the run ends:
    completed, failed, cancelled or panicked. *)
Theorem processItem_temp_dir w id q it :
  find_item id (items q) = Some it ->
  Status it = StatusPending ->
  let tempDir := tempDirOf w id in
  let s := runItem w id q in
  if w_MkdirAll w tempDir
  then exists mid,
         calls_in_order s
         = (CallMkdirAll tempDir :: mid ++ [CallRemoveAll tempDir])%list
  else calls_in_order s = [CallMkdirAll tempDir] /\
       exists it', GetItem (queue s) id = Some it' /\
                   Status it' = StatusError /\
                   Error it' = "failed to create temp dir".
Proof.
  intros Hfind Hpend. cbv zeta. unfold runItem, calls_in_order.
  destruct (processItem_run w id (startRun q) it Hfind Hpend eq_refl)
    as (_ & _ & _ & Hcalls). cbv zeta in Hcalls.
  destruct (w_MkdirAll w (tempDirOf w id)).
  - destruct Hcalls as [new [-> _]]. exists (rev new).
    cbn [startRun calls rev]. rewrite rev_app_distr. reflexivity.
  - destruct Hcalls as [-> Hit]. split; [reflexivity | exact Hit].
Qed.

Lemma processItem_temp_dir_witness :
  let w := demoWorld sunnyDay in
  let s := runItem w "job-1" (demoQueue None) in
  exists mid,
    calls_in_order s
    = (CallMkdirAll (tempDirOf w "job-1") :: mid
       ++ [CallRemoveAll (tempDirOf w "job-1")])%list.
Proof.
  intros w.
  exact (processItem_temp_dir w "job-1" (demoQueue None)
           (set_Title "" (set_Artist "" (demoItem "job-1" StatusPending)))
           eq_refl eq_refl).
Defined.

(** X12. The discipline of the calls of a run, whatever the world answers:
    the health of lucida is never probed; every download asks for FLAC, into
    the run's temporary directory, and never with an empty URL; the Tidal
    search is only made with an artist and a title; audio is only extracted
    from a video that was downloaded, into [audio.mka] of the temporary
    directory; the video is downloaded into the temporary directory; and no
    directory other than the temporary one is removed. *)
Theorem processItem_call_discipline w id q :
  Forall (call_ok w (tempDirOf w id)) (calls (runItem w id q)).
Proof.
  destruct (find_item id (items q)) as [it|] eqn:Hfind.
  - destruct (String.eqb_spec (Status it) StatusPending) as [E|E].
    + unfold runItem.
      destruct (processItem_run w id (startRun q) it Hfind E eq_refl)
        as (_ & _ & _ & Hcalls). cbv zeta in Hcalls.
      destruct (w_MkdirAll w (tempDirOf w id)).
      * destruct Hcalls as [new [-> Hall]].
        constructor; [reflexivity|].
        apply Forall_app. split; [exact Hall|].
        repeat constructor.
      * destruct Hcalls as [-> _]. repeat constructor.
    + rewrite runItem_idle by congruence. constructor.
  - rewrite runItem_idle by congruence. constructor.
Qed.

(** X13. A run whose context is already cancelled still claims its pending
    item, but stops at the first checkpoint: besides creating and removing
    the temporary directory it does nothing but parse the video URL; no
    metadata is fetched, nothing is downloaded, copied or muxed.  The item
    is left in [fetching_info], unless the URL was found invalid or the
    temporary directory could not be created before the checkpoint was
    reached. *)
Theorem processItem_cancelled w id q it :
  find_item id (items q) = Some it ->
  Status it = StatusPending ->
  (forall cp, w_ctxDone w cp = true) ->
  let s := runItem w id q in
  Forall local_call (calls s) /\
  exists it', GetItem (queue s) id = Some it' /\
    (Status it' = StatusFetchingInfo
     \/ (Status it' = StatusError /\
         (Error it' = "invalid YouTube URL"
          \/ Error it' = "failed to create temp dir"))).
Proof.
  intros Hfind Hpend Hdone. cbv zeta. unfold runItem.
  rewrite (processItem_claimed w id (startRun q) it Hfind Hpend). cbv zeta.
  unfold defer, stages, fetchVideoInfo, checkExistingFile, afterClaim.
  run_cases;
    try match goal with
        | H : w_ctxDone _ _ = false |- _ => rewrite Hdone in H; discriminate H
        end;
    (split; [cbn [calls startRun]; repeat constructor|]);
    unfold GetItem; cbn [queue items set_items startRun];
    rewrite ?find_mutated, find_update_first_eq by reflexivity;
    rewrite Hfind; cbn [option_map];
    (eexists; split; [reflexivity|]);
    first [ left; reflexivity
          | right; split; [reflexivity|];
            first [left; reflexivity | right; reflexivity] ].
Qed.

Lemma processItem_cancelled_witness :
  let w := {| w_paths := demoPaths; w_now := 1000; w_TempDir := "/tmp";
              w_defaultConfig := demoConfig;
              w_ctxDone := fun _ => true;
              w_MkdirAll := fun _ => true;
              w_ParseYouTubeURL := fun _ => Some "abc";
              w_GetVideoMetadata := fun _ => None;
              w_FindMatch := fun _ _ _ => None;
              w_GetDefaultOutputDirectory := "/music";
              w_GeneratePlaylistFilePath := fun _ dir _ => dir;
              w_GenerateFilePath := fun _ _ dir _ => dir;
              w_copyFile := fun _ _ => true;
              w_DownloadVideo := fun _ _ _ _ => None;
              w_ResolveMusicURL := fun _ => None;
              w_IsAvailable := fun _ => true;
              w_Download := fun _ _ _ _ => None;
              w_DownloadBySearch := fun _ _ _ => None;
              w_ExtractAudioStream := fun _ _ => true;
              w_CheckFileConflict := fun _ => false;
              w_ResolveConflict := fun p => p;
              w_DownloadPoster := fun _ _ => true;
              w_CreateFLACWithMetadata := fun _ _ _ _ => None;
              w_MuxVideoWithFLAC := fun _ _ _ _ _ => None;
              w_FetchLyrics := fun _ _ => None;
              w_Stat := fun _ => None |} in
  let s := runItem w "job-1" (demoQueue None) in
  Forall local_call (calls s) /\
  exists it', GetItem (queue s) "job-1" = Some it' /\
    (Status it' = StatusFetchingInfo
     \/ (Status it' = StatusError /\
         (Error it' = "invalid YouTube URL"
          \/ Error it' = "failed to create temp dir"))).
Proof.
  intros w.
  exact (processItem_cancelled w "job-1" (demoQueue None)
           (set_Title "" (set_Artist "" (demoItem "job-1" StatusPending)))
           eq_refl eq_refl (fun _ => eq_refl)).
Defined.

(* ===================================================================== *)
(** * Copying a file *)
(* ===================================================================== *)

Ltac sys_unfold :=
  unfold sys_Open, sys_MkdirAll, sys_Create, sys_Copy, sys_Sync, sys_Remove,
         sys_Stat, read_handle;
  cbn [sys_issue m_files m_fails m_torn m_lookPath m_tempName m_exec m_log
       fst snd negb].

(** Runs the calls of a function one after the other, using the facts
    given about the files and the failing calls. *)
Tactic Notation "sys_run" "with" tactic3(facts) :=
  repeat (progress (sys_unfold; facts)).

Lemma copyFile_on_paths P src dst m :
  copyFile_on (fun p => p) P src dst m = copyFile P src dst m.
Proof. reflexivity. Qed.

(** X14. [copyFile] from an existing source to a destination that is a
    different file, with no failing call, returns [nil]; afterwards the
    destination holds the content of the source, and the source and every
    other file are as before.  Its calls are, in order: open the source,
    create the directory of the destination, create the destination, copy,
    sync.  What must differ are the files, not the spellings of their
    paths. *)
Theorem copyFile_copies file P src dst data m :
  m_files m !! file src = Some data ->
  file src <> file dst ->
  (forall op, m_fails m op = false) ->
  let r := copyFile_on file P src dst m in
  r.1 = None /\
  m_files r.2 = <[file dst := data]> (m_files m) /\
  m_log r.2
  = (m_log m ++ [SysOpen (file src); SysMkdirAll (Dir P dst);
                 SysCreate (file dst); SysCopy (file dst);
                 SysSync (file dst)])%list.
Proof.
  intros Hsrc Hne Hok. cbv zeta. unfold copyFile_on.
  sys_run with (rewrite ?Hok, ?Hsrc,
                  ?(lookup_insert_ne _ (file dst) (file src)) by congruence).
  split; [reflexivity|]. split.
  - apply insert_insert_eq.
  - now rewrite <- !app_assoc.
Qed.

Lemma copyFile_copies_witness :
  let m := demoMachine {[ "/library/a.mkv" := "<video>" ]} in
  let r := copyFile_on demoFile demoPaths "/library/a.mkv" "/music/./a.mkv"
             m in
  r.1 = None /\
  m_files r.2 = <[demoFile "/music/./a.mkv" := "<video>"]> (m_files m) /\
  m_log r.2
  = (m_log m ++ [SysOpen (demoFile "/library/a.mkv");
                 SysMkdirAll (Dir demoPaths "/music/./a.mkv");
                 SysCreate (demoFile "/music/./a.mkv");
                 SysCopy (demoFile "/music/./a.mkv");
                 SysSync (demoFile "/music/./a.mkv")])%list.
Proof.
  intros m.
  apply (copyFile_copies demoFile demoPaths "/library/a.mkv"
           "/music/./a.mkv" "<video>" m).
  - reflexivity.
  - discriminate.
  - reflexivity.
Defined.

(** X15. Whatever fails, and whether or not its two paths name one file,
    [copyFile] touches no file other than its destination.  From a source
    that does not exist it fails at the first call: no directory is
    created, no file is created or changed.  Whenever it returns [nil], the
    source existed, and the destination now holds its content if the two
    are different files, and is empty if they are one file under two
    paths. *)
Theorem copyFile_touches_only_destination file P src dst m :
  let r := copyFile_on file P src dst m in
  (forall f, f <> file dst -> m_files r.2 !! f = m_files m !! f) /\
  (m_files m !! file src = None ->
   r.1 = Some "open" /\ m_files r.2 = m_files m /\
   m_log r.2 = (m_log m ++ [SysOpen (file src)])%list) /\
  (r.1 = None ->
   exists data,
     m_files m !! file src = Some data /\
     m_files r.2 !! file dst
     = Some (if file src =? file dst then "" else data)).
Proof.
  cbv zeta. unfold copyFile_on. sys_unfold.
  destruct (m_files m !! file src) as [data|] eqn:Hsrc;
    [|repeat split; try reflexivity; discriminate].
  destruct (m_fails m (SysOpen (file src))); cbn [negb];
    [repeat split; try reflexivity; discriminate|].
  destruct (m_fails m (SysMkdirAll (Dir P dst))); cbn [negb];
    [repeat split; try reflexivity; discriminate|].
  destruct (m_fails m (SysCreate (file dst))); sys_unfold;
    [repeat split; try reflexivity; discriminate|].
  destruct (String.eqb_spec (file src) (file dst)) as [E|Hne].
  - rewrite E in *. rewrite lookup_insert_eq.
    destruct (m_fails m (SysCopy (file dst))); sys_unfold;
      [|destruct (m_fails m (SysSync (file dst))); sys_unfold];
      (split; [intros f Hf; now rewrite !lookup_insert_ne by congruence|]);
      (split; [discriminate|]); intros H;
      first [discriminate H
            | exists data; split; [reflexivity | apply lookup_insert_eq]].
  - rewrite lookup_insert_ne by congruence. rewrite Hsrc.
    destruct (m_fails m (SysCopy (file dst))); sys_unfold;
      [|destruct (m_fails m (SysSync (file dst))); sys_unfold];
      (split; [intros f Hf; now rewrite !lookup_insert_ne by congruence|]);
      (split; [discriminate|]); intros H;
      first [discriminate H
            | exists data; split; [reflexivity | apply lookup_insert_eq]].
Qed.

Lemma copyFile_touches_only_destination_witness :
  let m := demoMachine {[ "/music/a.mkv" := "<video>" ]} in
  let r := copyFile_on demoFile demoPaths "/music/a.mkv" "/music/./a.mkv"
             m in
  exists data,
    m_files m !! demoFile "/music/a.mkv" = Some data /\
    m_files r.2 !! demoFile "/music/./a.mkv"
    = Some (if demoFile "/music/a.mkv" =? demoFile "/music/./a.mkv"
            then "" else data).
Proof.
  intros m.
  apply (proj2 (proj2 (copyFile_touches_only_destination demoFile demoPaths
                         "/music/a.mkv" "/music/./a.mkv" m))).
  reflexivity.
Defined.

(** X16. [copyFile] does not compare its two paths: copying a file onto
    itself returns [nil] and leaves the file empty, since the destination is
    truncated before the first byte of the source is read. *)
Theorem copyFile_onto_itself P path data m :
  m_files m !! path = Some data ->
  (forall op, m_fails m op = false) ->
  let r := copyFile P path path m in
  r.1 = None /\ m_files r.2 = <[path := ""]> (m_files m).
Proof.
  intros Hsrc Hok. cbv zeta. unfold copyFile.
  sys_run with (rewrite ?Hok, ?Hsrc, ?lookup_insert_eq).
  split; [reflexivity | apply insert_insert_eq].
Qed.

Lemma copyFile_onto_itself_witness :
  let m := demoMachine {[ "/music/a.mkv" := "<video>" ]} in
  let r := copyFile demoPaths "/music/a.mkv" "/music/a.mkv" m in
  r.1 = None /\ m_files r.2 = <["/music/a.mkv" := ""]> (m_files m).
Proof.
  intros m.
  apply (copyFile_onto_itself demoPaths "/music/a.mkv" "<video>" m).
  - reflexivity.
  - reflexivity.
Defined.

(** X17. [copyFile] does not clean up: when the copy is interrupted after
    the destination was created, the error is returned and the destination
    stays behind with what had been written; the copy is the last call, no
    removal is attempted. *)
Theorem copyFile_interrupted P src dst data m :
  m_files m !! src = Some data ->
  src <> dst ->
  m_fails m (SysOpen src) = false ->
  m_fails m (SysMkdirAll (Dir P dst)) = false ->
  m_fails m (SysCreate dst) = false ->
  m_fails m (SysCopy dst) = true ->
  let r := copyFile P src dst m in
  r.1 = Some "copy" /\
  m_files r.2 !! dst = Some (m_torn m (Some data)) /\
  m_log r.2 = (m_log m ++ [SysOpen src; SysMkdirAll (Dir P dst);
                           SysCreate dst; SysCopy dst])%list.
Proof.
  intros Hsrc Hne Ho Hd Hc Hcp. cbv zeta. unfold copyFile.
  sys_run with (rewrite ?Ho, ?Hd, ?Hc, ?Hcp, ?Hsrc,
                  ?(lookup_insert_ne _ dst src) by congruence).
  split; [reflexivity|]. split; [apply lookup_insert_eq|].
  now rewrite <- !app_assoc.
Qed.

Lemma copyFile_interrupted_witness :
  let m := fullDisk {[ "/library/a.mkv" := "<video>" ]} in
  let r := copyFile demoPaths "/library/a.mkv" "/music/a.mkv" m in
  r.1 = Some "copy" /\
  m_files r.2 !! "/music/a.mkv" = Some (m_torn m (Some "<video>")) /\
  m_log r.2 = (m_log m ++ [SysOpen "/library/a.mkv";
                           SysMkdirAll (Dir demoPaths "/music/a.mkv");
                           SysCreate "/music/a.mkv";
                           SysCopy "/music/a.mkv"])%list.
Proof.
  intros m.
  apply (copyFile_interrupted demoPaths "/library/a.mkv" "/music/a.mkv"
           "<video>" m).
  - reflexivity.
  - discriminate.
  - reflexivity.
  - reflexivity.
  - reflexivity.
  - reflexivity.
Defined.

(* ===================================================================== *)
(** * Downloading through lucida *)
(* ===================================================================== *)

Lemma first_of_spec G fmt formats sel :
  first_of G fmt formats sel
  = match first_entry G fmt formats with
    | Some f => select f
    | None => sel
    end.
Proof.
  unfold first_entry.
  induction formats as [|f rest IH]; cbn [first_of List.find];
    [reflexivity|].
  destruct (ToLower G (lf_Format f) =? fmt); [reflexivity | exact IH].
Qed.

Lemma first_entry_format G fmt formats f :
  first_entry G fmt formats = Some f -> ToLower G (lf_Format f) = fmt.
Proof.
  unfold first_entry. intros H. apply find_some in H as [_ H].
  now apply String.eqb_eq in H.
Qed.

Lemma preferred_entry_format G formats f :
  preferred_entry G formats = Some f ->
  In (ToLower G (lf_Format f)) ["flac"; "wav"; "mp3"].
Proof.
  unfold preferred_entry. intros H. apply find_some in H as [H _].
  apply in_flat_map in H as [pf [Hpf H]].
  destruct (first_entry G pf formats) as [f'|] eqn:E; [|contradiction].
  destruct H as [<-|[]]. now rewrite (first_entry_format _ _ _ _ E).
Qed.

Lemma chooseFormat_flac_eq G formats :
  chooseFormat G "flac" formats
  = match preferred_entry G formats with
    | Some f => inl (select f)
    | None => inr (notAvailable "flac")
    end.
Proof.
  unfold chooseFormat, preferred_entry, notAvailable, usable.
  change ("flac" =? "flac") with true.
  cbn [fallback flat_map]. rewrite !first_of_spec.
  destruct (first_entry G "flac" formats) as [f1|];
    destruct (first_entry G "wav" formats) as [f2|];
    destruct (first_entry G "mp3" formats) as [f3|];
    cbn [app List.find select sel_URL noSelection];
    rewrite ?String.eqb_refl;
    repeat (match goal with
            | |- context [lf_URL ?f =? ""] =>
                destruct (lf_URL f =? "") eqn:?
            end;
            cbn [negb andb select sel_URL noSelection];
            rewrite ?String.eqb_refl);
    cbn [negb andb select sel_URL noSelection];
    try reflexivity; try congruence.
Qed.

(** X18. A request for FLAC: [Download] settles on the first FLAC entry of
    the answer if it carries a URL, else on the first WAV entry if it
    carries a URL, else on the first MP3 entry if it carries a URL, and else
    fails with "format flac not available for this track".  Only the first
    entry of each format is ever looked at; the entry settled on is an entry
    of the answer, carries a URL, and is FLAC, WAV or MP3. *)
Theorem chooseFormat_flac G formats :
  chooseFormat G "flac" formats
  = match preferred_entry G formats with
    | Some f => inl (select f)
    | None => inr (notAvailable "flac")
    end /\
  forall f, preferred_entry G formats = Some f ->
    In f formats /\ lf_URL f <> "" /\
    In (ToLower G (lf_Format f)) ["flac"; "wav"; "mp3"].
Proof.
  split; [apply chooseFormat_flac_eq|].
  intros f Hp. split; [|split].
  - unfold preferred_entry in Hp. apply find_some in Hp as [Hp _].
    apply in_flat_map in Hp as [pf [_ Hp]].
    destruct (first_entry G pf formats) as [f'|] eqn:E; [|contradiction].
    destruct Hp as [<-|[]]. unfold first_entry in E.
    now apply find_some in E as [E _].
  - unfold preferred_entry in Hp. apply find_some in Hp as [_ Hp].
    unfold usable in Hp. apply negb_true_iff in Hp.
    now apply String.eqb_neq.
  - exact (preferred_entry_format _ _ _ Hp).
Qed.

Lemma chooseFormat_other G format formats :
  format <> "flac" ->
  chooseFormat G format formats
  = match first_entry G format formats with
    | Some f => if usable f then inl (select f)
                else inr (notAvailable format)
    | None => inr (notAvailable format)
    end.
Proof.
  intros Hne. apply String.eqb_neq in Hne.
  unfold chooseFormat, notAvailable, usable. rewrite Hne, andb_false_r.
  rewrite first_of_spec.
  destruct (first_entry G format formats) as [f|]; cbn [sel_URL select];
    [|reflexivity].
  destruct (lf_URL f =? ""); reflexivity.
Qed.

(** X19. A request for any format other than FLAC has no fall-back: the
    first entry of that format decides.  If there is none, or it carries no
    URL, [Download] fails with "format ... not available for this track",
    whatever else the answer offers. *)
Theorem chooseFormat_no_fallback G format formats :
  format <> "flac" ->
  chooseFormat G format formats
  = match first_entry G format formats with
    | Some f => if usable f then inl (select f)
                else inr (notAvailable format)
    | None => inr (notAvailable format)
    end /\
  forall f, first_entry G format formats = Some f ->
    In f formats /\ ToLower G (lf_Format f) = format.
Proof.
  intros Hne. split; [now apply chooseFormat_other|].
  intros f Hf. split; [|exact (first_entry_format _ _ _ _ Hf)].
  unfold first_entry in Hf. now apply find_some in Hf as [Hf _].
Qed.

Lemma chooseFormat_no_fallback_witness :
  let formats := [{| lf_Format := "FLAC"; lf_Quality := "lossless";
                     lf_Size := 1024; lf_URL := "http://cdn/1.flac" |}] in
  chooseFormat asciiStrings "mp3" formats
  = match first_entry asciiStrings "mp3" formats with
    | Some f => if usable f then inl (select f)
                else inr (notAvailable "mp3")
    | None => inr (notAvailable "mp3")
    end /\
  forall f, first_entry asciiStrings "mp3" formats = Some f ->
    In f formats /\ ToLower asciiStrings (lf_Format f) = "mp3".
Proof.
  intros formats.
  apply (chooseFormat_no_fallback asciiStrings "mp3" formats).
  discriminate.
Defined.

(** X30. [Download] never consults [SupportsFormat], yet agrees with it: the
    format of the entry it settles on is a supported format exactly when
    the format that was asked for is one.  On a request for FLAC this
    includes the fall-back: WAV and MP3 are supported formats. *)
Theorem chooseFormat_supported G l format formats sel :
  chooseFormat G (ToLower G format) formats = inl sel ->
  SupportsFormat G l (sel_Format sel) = SupportsFormat G l format.
Proof.
  unfold SupportsFormat. cbv zeta.
  destruct (String.eqb_spec (ToLower G format) "flac") as [E|E].
  - rewrite E, chooseFormat_flac_eq.
    destruct (preferred_entry G formats) as [f|] eqn:Hp; [|discriminate].
    intros [= <-]. cbn [select sel_Format].
    apply preferred_entry_format in Hp.
    destruct Hp as [<-|[<-|[<-|[]]]]; reflexivity.
  - rewrite chooseFormat_other by exact E.
    destruct (first_entry G (ToLower G format) formats) as [f|] eqn:Hf;
      [|discriminate].
    destruct (usable f); [|discriminate].
    intros [= <-]. cbn [select sel_Format].
    now rewrite (first_entry_format _ _ _ _ Hf).
Qed.

Lemma chooseFormat_supported_witness :
  let formats := [{| lf_Format := "MP3"; lf_Quality := "320";
                     lf_Size := 10; lf_URL := "http://cdn/1.mp3" |};
                  {| lf_Format := "WAV"; lf_Quality := "lossless";
                     lf_Size := 40; lf_URL := "http://cdn/1.wav" |}] in
  let sel := {| sel_URL := "http://cdn/1.wav"; sel_Format := "WAV";
                sel_Size := 40; sel_Quality := "lossless" |} in
  SupportsFormat asciiStrings NewLucidaService (sel_Format sel)
  = SupportsFormat asciiStrings NewLucidaService "FLAC".
Proof.
  intros formats sel.
  apply (chooseFormat_supported asciiStrings NewLucidaService "FLAC"
           formats sel).
  reflexivity.
Defined.

(** X20. [downloadFile] sends the one GET request and touches no file other
    than its output path.  When it returns [nil], the answer was a 200 and
    the output path holds its whole body.  When it returns an error and
    removing files works, no partial file is left: the files are as they
    were, or the output path is gone. *)
Theorem downloadFile_all_or_nothing net url path m :
  let r := downloadFile net url path m in
  r.1.2 = [ReqGet url] /\
  (forall p, p <> path -> m_files r.2 !! p = m_files m !! p) /\
  (r.1.1 = None ->
   exists body, net (ReqGet url) = HttpResponse 200 (Some body) /\
                m_files r.2 !! path = Some body) /\
  (r.1.1 <> None -> m_fails m (SysRemove path) = false ->
   m_files r.2 = m_files m \/ m_files r.2 !! path = None).
Proof.
  cbv zeta. unfold downloadFile.
  destruct (net (ReqGet url)) as [|code body];
    [repeat split; try discriminate; auto|].
  destruct (Z.eqb_spec code 200) as [->|Hc]; cbn [negb];
    [|repeat split; try discriminate; auto].
  unfold sys_Create.
  destruct (m_fails m (SysCreate path)) eqn:Hcr;
    [cbn [fst snd sys_issue m_files];
     repeat split; try discriminate; auto|].
  unfold sys_Copy. cbn [sys_issue m_files m_fails m_torn m_log].
  destruct body as [d|].
  - destruct (m_fails m (SysCopy path)) eqn:Hcp.
    + unfold sys_Remove. cbn [sys_issue m_files m_fails m_torn m_log fst snd].
      rewrite lookup_insert_eq.
      destruct (m_fails m (SysRemove path)) eqn:Hrm;
        cbn [sys_issue m_files m_fails m_torn m_log fst snd].
      * split; [reflexivity|]. split.
        { intros p Hp. now rewrite !lookup_insert_ne by congruence. }
        split; [discriminate|]. intros _ H. discriminate H.
      * split; [reflexivity|]. split.
        { intros p Hp.
          rewrite lookup_delete_ne by congruence.
          now rewrite !lookup_insert_ne by congruence. }
        split; [discriminate|]. intros _ _. right.
        apply lookup_delete_eq.
    + cbn [fst snd sys_issue m_files].
      split; [reflexivity|]. split.
      { intros p Hp. now rewrite !lookup_insert_ne by congruence. }
      split.
      * intros _. exists d. split; [reflexivity | apply lookup_insert_eq].
      * intros H. now contradiction H.
  - unfold sys_Remove. cbn [sys_issue m_files m_fails m_torn m_log fst snd].
    rewrite lookup_insert_eq.
    destruct (m_fails m (SysRemove path)) eqn:Hrm;
      cbn [sys_issue m_files m_fails m_torn m_log fst snd].
    + split; [reflexivity|]. split.
      { intros p Hp. now rewrite !lookup_insert_ne by congruence. }
      split; [discriminate|]. intros _ H. discriminate H.
    + split; [reflexivity|]. split.
      { intros p Hp.
        rewrite lookup_delete_ne by congruence.
        now rewrite !lookup_insert_ne by congruence. }
      split; [discriminate|]. intros _ _. right.
      apply lookup_delete_eq.
Qed.

Lemma downloadFile_all_or_nothing_witness :
  let net : Network := fun _ => HttpResponse 200 None in
  let r := downloadFile net "http://cdn/1.flac" "/tmp/a.flac"
             (demoMachine ∅) in
  m_files r.2 = m_files (demoMachine ∅)
  \/ m_files r.2 !! "/tmp/a.flac" = None.
Proof.
  intros net.
  apply (proj2 (proj2 (proj2
           (downloadFile_all_or_nothing net "http://cdn/1.flac"
              "/tmp/a.flac" (demoMachine ∅))))).
  - discriminate.
  - reflexivity.
Defined.

(** X21. A [Download] in which nothing fails: after the one POST to the API
    it sends one GET for the URL of the format it settled on and writes the
    body to [<outputDir>/<sanitised "artist - title">.<format in lower
    case>]; no other file changes.  The result names that path, reports the
    format as the API spelled it and the quality of the chosen entry, and
    gives as size the size of the file on disk, not the size the API
    announced. *)
Theorem Download_delivers L G P net l trackURL outputDir format m
    resp reqs sel body :
  fetchTrackData L net l trackURL = (inl resp, reqs) ->
  chooseFormat G (ToLower G format) (lr_Formats resp) = inl sel ->
  net (ReqGet (sel_URL sel)) = HttpResponse 200 (Some body) ->
  (forall op, m_fails m op = false) ->
  let outputPath :=
    Join P outputDir
         (SanitizeFileName P (lt_Artist (lr_Track resp) ++ " - "
                              ++ lt_Title (lr_Track resp))
          ++ "." ++ ToLower G (sel_Format sel)) in
  let r := Download L G P net l trackURL outputDir format m in
  exists d,
    r.1.1 = inl d /\
    da_FilePath d = outputPath /\
    da_Format d = sel_Format sel /\
    ati_Quality (da_Track d) = sel_Quality sel /\
    da_Size d = Z.of_nat (String.length body) /\
    r.1.2 = (reqs ++ [ReqGet (sel_URL sel)])%list /\
    m_files r.2 = <[outputPath := body]> (m_files m).
Proof.
  intros Hfetch Hsel Hget Hok. cbv zeta. unfold Download.
  rewrite Hfetch, Hsel. unfold downloadFile. rewrite Hget.
  change (negb (200 =? 200)%Z) with false. cbv iota.
  sys_run with (rewrite ?Hok, ?lookup_insert_eq).
  eexists. split; [reflexivity|]. cbn [da_FilePath da_Format da_Track
    da_Size ati_Quality fst snd].
  repeat split. apply insert_insert_eq.
Qed.

Lemma Download_delivers_witness :
  let sel := {| sel_URL := "http://cdn/1.wav"; sel_Format := "WAV";
                sel_Size := 40; sel_Quality := "lossless" |} in
  let r := Download offerLib asciiStrings demoPaths offerNet
             NewLucidaService "https://tidal.com/track/1" "/tmp/job"
             "FLAC" (demoMachine ∅) in
  exists d,
    r.1.1 = inl d /\
    da_FilePath d = "/tmp/job/Test Artist - Test Track.wav" /\
    da_Format d = sel_Format sel /\
    ati_Quality (da_Track d) = sel_Quality sel /\
    da_Size d = Z.of_nat (String.length "RIFF....WAVE") /\
    r.1.2 = ([ReqPost "https://lucida.to/api/load"
                      "url=https://tidal.com/track/1"]
             ++ [ReqGet (sel_URL sel)])%list /\
    m_files r.2
    = <["/tmp/job/Test Artist - Test Track.wav" := "RIFF....WAVE"]>
        (m_files (demoMachine ∅)).
Proof.
  intros sel.
  exact (Download_delivers offerLib asciiStrings demoPaths offerNet
           NewLucidaService "https://tidal.com/track/1" "/tmp/job" "FLAC"
           (demoMachine ∅)
           {| lr_Success := true; lr_Error := ""; lr_Track := demoTrack;
              lr_Formats :=
                [{| lf_Format := "MP3"; lf_Quality := "320";
                    lf_Size := 10; lf_URL := "http://cdn/1.mp3" |};
                 {| lf_Format := "WAV"; lf_Quality := "lossless";
                    lf_Size := 40; lf_URL := "http://cdn/1.wav" |}] |}
           [ReqPost "https://lucida.to/api/load"
                    "url=https://tidal.com/track/1"]
           sel "RIFF....WAVE" eq_refl eq_refl eq_refl (fun _ => eq_refl)).
Defined.

(* ===================================================================== *)
(** * Metadata, cover art and chapters *)
(* ===================================================================== *)

Lemma fold_mkvpropedit_step G metadata args :
  fold_left (mkvpropedit_step G) metadata args
  = (args ++ flat_map (fun kv : string * string =>
                         if negb (kv.2 =? "") && (ToLower G kv.1 =? "title")
                         then ["--set"; "title=" ++ kv.2]%string
                         else [])
                      metadata)%list.
Proof.
  revert args; induction metadata as [|[key value] rest IH]; intros args;
    cbn [fold_left flat_map]; [now rewrite app_nil_r|].
  rewrite IH. unfold mkvpropedit_step. cbn [fst snd].
  destruct (negb (value =? "")); cbn [andb];
    [destruct (ToLower G key =? "title")|];
    cbn [app]; now rewrite <- ?app_assoc.
Qed.

Lemma fold_ffmpeg_step metadata args :
  fold_left ffmpeg_step metadata args
  = (args ++ flat_map (fun kv : string * string =>
                         if negb (kv.2 =? "")
                         then ["-metadata"; kv.1 ++ "=" ++ kv.2]%string
                         else [])
                      metadata)%list.
Proof.
  revert args; induction metadata as [|[key value] rest IH]; intros args;
    cbn [fold_left flat_map]; [now rewrite app_nil_r|].
  rewrite IH. unfold ffmpeg_step. cbn [fst snd].
  destruct (negb (value =? "")); cbn [app]; now rewrite <- ?app_assoc.
Qed.

Lemma append_tmp_neq (s : string) : s ++ ".tmp" <> s.
Proof.
  induction s as [|c s IH]; [discriminate|].
  rewrite append_String. intros H. injection H as H. exact (IH H).
Qed.

(** X22. With [mkvpropedit] installed, [EmbedMetadata] on an existing file
    runs that one program, whatever the order in which the map is ranged
    over, with [--edit info] and a [--set title=...] for each non-empty
    entry whose key is "title" in any case; every other entry is dropped.
    In particular metadata without a title (artist and album only, say)
    still runs the program, with no edit at all. *)
Theorem EmbedMetadata_mkvpropedit_title_only G ffmpeg mkvPath metadata m
    tool :
  m_files m !! mkvPath <> None ->
  m_lookPath m "mkvpropedit" = Some tool ->
  let r := EmbedMetadata G ffmpeg mkvPath metadata m in
  m_log r.2
  = (m_log m ++ [SysStat mkvPath; SysLookPath "mkvpropedit";
                 SysRun tool (mkvpropedit_args G mkvPath metadata)])%list /\
  (Forall (fun kv : string * string => ToLower G kv.1 <> "title") metadata ->
   mkvpropedit_args G mkvPath metadata = [mkvPath; "--edit"; "info"]).
Proof.
  intros Hex Htool. cbv zeta. split.
  - unfold EmbedMetadata, sys_NotExist.
    destruct (m_files m !! mkvPath) as [d|]; [|now contradiction Hex].
    unfold sys_LookPath. cbn [sys_issue m_lookPath m_files fst snd].
    rewrite Htool. unfold embedMetadataMkvpropedit, sys_Run.
    rewrite fold_mkvpropedit_step.
    destruct (negb _); cbn [sys_issue m_log snd];
      now rewrite <- !app_assoc.
  - intros Hall. unfold mkvpropedit_args.
    induction Hall as [|[key value] rest Hk _ IH]; [reflexivity|].
    cbn [flat_map fst snd]. cbn [fst] in Hk.
    apply String.eqb_neq in Hk. rewrite Hk, andb_false_r. exact IH.
Qed.

Lemma EmbedMetadata_mkvpropedit_title_only_witness :
  let metadata := [("artist", "Queen"); ("album", "A Night at the Opera")] in
  let m := mkvMachine {[ "/music/a.mkv" := "<video>" ]} in
  let r := EmbedMetadata asciiStrings "/usr/bin/ffmpeg" "/music/a.mkv"
             metadata m in
  m_log r.2
  = (m_log m ++ [SysStat "/music/a.mkv"; SysLookPath "mkvpropedit";
                 SysRun "/usr/bin/mkvpropedit"
                   (mkvpropedit_args asciiStrings "/music/a.mkv" metadata)])%list
  /\
  (Forall (fun kv : string * string => ToLower asciiStrings kv.1 <> "title")
          metadata ->
   mkvpropedit_args asciiStrings "/music/a.mkv" metadata
   = ["/music/a.mkv"; "--edit"; "info"]).
Proof.
  intros metadata m.
  apply (EmbedMetadata_mkvpropedit_title_only asciiStrings "/usr/bin/ffmpeg"
           "/music/a.mkv" metadata m "/usr/bin/mkvpropedit").
  - discriminate.
  - reflexivity.
Defined.

(** X23. Without [mkvpropedit], [EmbedMetadata] re-muxes with ffmpeg, which
    is given every entry that has a value, and replaces the file through a
    temporary file and a rename: when ffmpeg succeeds and has written
    [<file>.tmp], that file is renamed over the original, which then holds
    the output of ffmpeg, and the temporary file is gone. *)
Theorem EmbedMetadata_ffmpeg_replaces G ffmpeg mkvPath metadata m out :
  m_files m !! mkvPath <> None ->
  m_lookPath m "mkvpropedit" = None ->
  (forall op, m_fails m op = false) ->
  let args := ffmpeg_metadata_args mkvPath metadata in
  m_exec m ffmpeg args (m_files m) !! (mkvPath ++ ".tmp") = Some out ->
  let r := EmbedMetadata G ffmpeg mkvPath metadata m in
  r.1 = None /\
  m_log r.2
  = (m_log m ++ [SysStat mkvPath; SysLookPath "mkvpropedit";
                 SysRun ffmpeg args;
                 SysRename (mkvPath ++ ".tmp") mkvPath])%list /\
  m_files r.2 !! mkvPath = Some out /\
  m_files r.2 !! (mkvPath ++ ".tmp") = None.
Proof.
  intros Hex Htool Hok args Hout. cbv zeta.
  unfold EmbedMetadata, sys_NotExist.
  destruct (m_files m !! mkvPath) as [d|]; [|now contradiction Hex].
  unfold sys_LookPath. cbn [sys_issue m_lookPath m_files fst snd].
  rewrite Htool. unfold embedMetadataFFmpeg.
  rewrite fold_ffmpeg_step, <- app_assoc.
  change (["-y"; "-i"; mkvPath; "-c"; "copy"] ++ _)%list with args.
  unfold sys_Run, sys_Rename.
  cbn [sys_issue m_files m_fails m_exec m_log fst snd].
  rewrite Hout, !Hok. cbn [negb sys_issue m_files m_log fst snd].
  split; [reflexivity|]. split; [now rewrite <- !app_assoc|]. split.
  - apply lookup_insert_eq.
  - rewrite lookup_insert_ne by (intros H; symmetry in H;
                                 exact (append_tmp_neq _ H)).
    apply lookup_delete_eq.
Qed.

Lemma EmbedMetadata_ffmpeg_replaces_witness :
  let metadata := [("artist", "Queen"); ("title", "")] in
  let m := ffmpegMachine {[ "/music/a.mkv" := "<video>" ]} in
  let args := ffmpeg_metadata_args "/music/a.mkv" metadata in
  let r := EmbedMetadata asciiStrings "/usr/bin/ffmpeg" "/music/a.mkv"
             metadata m in
  r.1 = None /\
  m_log r.2
  = (m_log m ++ [SysStat "/music/a.mkv"; SysLookPath "mkvpropedit";
                 SysRun "/usr/bin/ffmpeg" args;
                 SysRename ("/music/a.mkv" ++ ".tmp") "/music/a.mkv"])%list /\
  m_files r.2 !! "/music/a.mkv" = Some "<remuxed>" /\
  m_files r.2 !! ("/music/a.mkv" ++ ".tmp") = None.
Proof.
  intros metadata m.
  apply (EmbedMetadata_ffmpeg_replaces asciiStrings "/usr/bin/ffmpeg"
           "/music/a.mkv" metadata m "<remuxed>").
  - discriminate.
  - reflexivity.
  - reflexivity.
  - reflexivity.
Defined.

(** X24. When ffmpeg fails, [EmbedMetadata] returns the error and removes
    the temporary file; it issues no rename, so whatever the file holds
    afterwards is what ffmpeg itself left there.  If the removal works, no
    temporary file stays behind. *)
Theorem EmbedMetadata_ffmpeg_fails G ffmpeg mkvPath metadata m :
  m_files m !! mkvPath <> None ->
  m_lookPath m "mkvpropedit" = None ->
  let args := ffmpeg_metadata_args mkvPath metadata in
  m_fails m (SysRun ffmpeg args) = true ->
  let r := EmbedMetadata G ffmpeg mkvPath metadata m in
  r.1 = Some "ffmpeg metadata failed" /\
  m_log r.2
  = (m_log m ++ [SysStat mkvPath; SysLookPath "mkvpropedit";
                 SysRun ffmpeg args; SysRemove (mkvPath ++ ".tmp")])%list /\
  m_files r.2 !! mkvPath = m_exec m ffmpeg args (m_files m) !! mkvPath /\
  (m_fails m (SysRemove (mkvPath ++ ".tmp")) = false ->
   m_files r.2 !! (mkvPath ++ ".tmp") = None).
Proof.
  intros Hex Htool args Hfail. cbv zeta.
  unfold EmbedMetadata, sys_NotExist.
  destruct (m_files m !! mkvPath) as [d|]; [|now contradiction Hex].
  unfold sys_LookPath. cbn [sys_issue m_lookPath m_files fst snd].
  rewrite Htool. unfold embedMetadataFFmpeg.
  rewrite fold_ffmpeg_step, <- app_assoc.
  change (["-y"; "-i"; mkvPath; "-c"; "copy"] ++ _)%list with args.
  unfold sys_Run, sys_Remove.
  cbn [sys_issue m_files m_fails m_exec m_log fst snd].
  rewrite Hfail. cbn [negb sys_issue m_files m_log fst snd].
  set (files := m_exec m ffmpeg args (m_files m)).
  assert (Hne : mkvPath ++ ".tmp" <> mkvPath) by apply append_tmp_neq.
  destruct (files !! (mkvPath ++ ".tmp")) as [t|] eqn:Ht;
    [destruct (m_fails m (SysRemove (mkvPath ++ ".tmp"))) eqn:Hrm|];
    cbn [sys_issue m_files m_log fst snd];
    (split; [reflexivity|]); (split; [now rewrite <- !app_assoc|]).
  - split; [reflexivity | discriminate].
  - split; [now apply lookup_delete_ne | intros _; apply lookup_delete_eq].
  - split; [reflexivity | intros _; exact Ht].
Qed.

Lemma EmbedMetadata_ffmpeg_fails_witness :
  let metadata := [("artist", "Queen")] in
  let m := {| m_files := {[ "/music/a.mkv" := "<video>" ]};
              m_fails := fun op => match op with
                                   | SysRun _ _ => true
                                   | _ => false
                                   end;
              m_torn := fun _ => "";
              m_lookPath := fun _ => None;
              m_tempName := fun pattern => "/tmp/" ++ pattern;
              m_exec := fun _ _ files =>
                          <["/music/a.mkv.tmp" := "<half>"]> files;
              m_log := [] |} in
  let args := ffmpeg_metadata_args "/music/a.mkv" metadata in
  let r := EmbedMetadata asciiStrings "/usr/bin/ffmpeg" "/music/a.mkv"
             metadata m in
  r.1 = Some "ffmpeg metadata failed" /\
  m_log r.2
  = (m_log m ++ [SysStat "/music/a.mkv"; SysLookPath "mkvpropedit";
                 SysRun "/usr/bin/ffmpeg" args;
                 SysRemove ("/music/a.mkv" ++ ".tmp")])%list /\
  m_files r.2 !! "/music/a.mkv"
  = m_exec m "/usr/bin/ffmpeg" args (m_files m) !! "/music/a.mkv" /\
  (m_fails m (SysRemove ("/music/a.mkv" ++ ".tmp")) = false ->
   m_files r.2 !! ("/music/a.mkv" ++ ".tmp") = None).
Proof.
  intros metadata m.
  apply (EmbedMetadata_ffmpeg_fails asciiStrings "/usr/bin/ffmpeg"
           "/music/a.mkv" metadata m).
  - discriminate.
  - reflexivity.
  - reflexivity.
Defined.

(** X25. Neither [EmbedMetadata] nor [EmbedCoverArt] looks for a program or
    runs one when a file it needs is missing: the error names the missing
    file, and the only calls made are the [Stat]s up to it.  [EmbedCoverArt]
    checks the video file before the cover. *)
Theorem embed_missing_file G ffmpeg mkvPath coverPath metadata m :
  let m1 := sys_issue (SysStat mkvPath) (m_files m) m in
  (m_files m !! mkvPath = None ->
   EmbedMetadata G ffmpeg mkvPath metadata m
   = (Some ("file not found: " ++ mkvPath), m1) /\
   EmbedCoverArt_ ffmpeg mkvPath coverPath m
   = (Some ("mkv file not found: " ++ mkvPath), m1)) /\
  (m_files m !! mkvPath <> None -> m_files m !! coverPath = None ->
   EmbedCoverArt_ ffmpeg mkvPath coverPath m
   = (Some ("cover file not found: " ++ coverPath),
      sys_issue (SysStat coverPath) (m_files m) m1)).
Proof.
  cbv zeta. unfold EmbedMetadata, EmbedCoverArt_, sys_NotExist. split.
  - intros ->. split; reflexivity.
  - intros Hex Hc.
    destruct (m_files m !! mkvPath) as [d|]; [|now contradiction Hex].
    cbn [sys_issue m_files]. rewrite Hc. reflexivity.
Qed.

Lemma embed_missing_file_witness :
  let m := mkvMachine {[ "/music/a.mkv" := "<video>" ]} in
  EmbedCoverArt_ "/usr/bin/ffmpeg" "/music/a.mkv" "/tmp/cover.jpg" m
  = (Some ("cover file not found: " ++ "/tmp/cover.jpg"),
     sys_issue (SysStat "/tmp/cover.jpg") (m_files m)
       (sys_issue (SysStat "/music/a.mkv") (m_files m) m)).
Proof.
  intros m.
  apply (proj2 (embed_missing_file asciiStrings "/usr/bin/ffmpeg"
                  "/music/a.mkv" "/tmp/cover.jpg" [] m)).
  - discriminate.
  - reflexivity.
Defined.

(** X26. [AddChapters] does nothing for an empty chapter list.  Otherwise,
    once its temporary file is created, its last call removes that file
    however the function ends, and if the removal works the file is gone
    afterwards.  There is no fall-back to ffmpeg: without [mkvpropedit] the
    error is returned, after the chapter file has been written. *)
Theorem AddChapters_cleans_up nanos mkvPath chapters m :
  let name := m_tempName m "chapters-*.xml" in
  let r := AddChapters nanos mkvPath chapters m in
  AddChapters nanos mkvPath [] m = (None, m) /\
  (chapters <> [] ->
   m_fails m (SysCreateTemp "chapters-*.xml") = false ->
   last (m_log r.2) = Some (SysRemove name) /\
   (m_fails m (SysRemove name) = false -> m_files r.2 !! name = None) /\
   (m_fails m (SysWriteString name) = false ->
    m_lookPath m "mkvpropedit" = None ->
    r.1 = Some "mkvpropedit not found, chapters require mkvtoolnix" /\
    In (SysWriteString name) (m_log r.2))).
Proof.
  cbv zeta. split; [reflexivity|]. intros Hne Hct.
  unfold AddChapters. destruct chapters as [|c0 chapters']; [contradiction|].
  change (length (c0 :: chapters') =? 0)%nat with false. cbv iota.
  unfold sys_CreateTemp. rewrite Hct.
  set (name := m_tempName m "chapters-*.xml").
  set (xml := chapters_xml nanos (c0 :: chapters')).
  unfold sys_WriteString, sys_LookPath, sys_Run.
  cbn [sys_issue m_files m_fails m_torn m_lookPath m_exec m_log].
  destruct (m_fails m (SysWriteString name)) eqn:Hw.
  - unfold sys_Remove. cbn [sys_issue m_files m_fails m_log].
    rewrite lookup_insert_eq.
    destruct (m_fails m (SysRemove name));
      cbn [sys_issue m_files m_log fst snd].
    + split; [apply last_snoc|]. split; discriminate.
    + split; [apply last_snoc|].
      split; [intros _; apply lookup_delete_eq | discriminate].
  - cbn [sys_issue m_files m_fails m_torn m_lookPath m_exec m_log].
    destruct (m_lookPath m "mkvpropedit") as [tool|] eqn:Htool.
    + cbn [sys_issue m_files m_fails m_exec m_log fst snd].
      match goal with
      | |- context [m_exec m tool ?a ?f] => set (files := m_exec m tool a f)
      end.
      destruct (negb _); unfold sys_Remove;
        cbn [sys_issue m_files m_fails m_log];
        (destruct (files !! name) as [t|] eqn:Ht;
         [destruct (m_fails m (SysRemove name))|]);
        cbn [sys_issue m_files m_log fst snd];
        (split; [apply last_snoc|]);
        (split; [|discriminate]);
        first [discriminate | intros _; apply lookup_delete_eq
              | intros _; exact Ht].
    + unfold sys_Remove. cbn [sys_issue m_files m_fails m_log].
      rewrite lookup_insert_eq.
      destruct (m_fails m (SysRemove name));
        cbn [sys_issue m_files m_log fst snd].
      * split; [apply last_snoc|]. split; [discriminate|].
        intros _ _. split; [reflexivity|].
        rewrite !in_app_iff. left. left. right. now left.
      * split; [apply last_snoc|].
        split; [intros _; apply lookup_delete_eq|].
        intros _ _. split; [reflexivity|].
        rewrite !in_app_iff. left. left. right. now left.
Qed.

Lemma AddChapters_cleans_up_witness :
  let chapters := [{| ch_Title := "Intro"; ch_StartTime := 0%Q;
                      ch_EndTime := 30%Q |}] in
  let m := demoMachine {[ "/music/a.mkv" := "<video>" ]} in
  let name := m_tempName m "chapters-*.xml" in
  let r := AddChapters (fun x => int_of_float64 (x * 1000000000)%Q)
             "/music/a.mkv" chapters m in
  last (m_log r.2) = Some (SysRemove name) /\
  (m_fails m (SysRemove name) = false -> m_files r.2 !! name = None) /\
  (m_fails m (SysWriteString name) = false ->
   m_lookPath m "mkvpropedit" = None ->
   r.1 = Some "mkvpropedit not found, chapters require mkvtoolnix" /\
   In (SysWriteString name) (m_log r.2)).
Proof.
  intros chapters m.
  apply (proj2 (AddChapters_cleans_up
                  (fun x => int_of_float64 (x * 1000000000)%Q)
                  "/music/a.mkv" chapters m)).
  - discriminate.
  - reflexivity.
Defined.

Lemma fold_chapters nanos chapters xml k :
  (fold_left (chapters_step nanos) chapters (xml, k)).1
  = xml ++ fold_right String.append ""
             (imap (fun i ch =>
                      chapter_atom (k + Z.of_nat i + 1)
                        (nanos (ch_StartTime ch)) (nanos (ch_EndTime ch))
                        (ch_Title ch))
                   chapters).
Proof.
  revert xml k; induction chapters as [|ch rest IH]; intros xml k.
  - cbn. now rewrite append_nil_r.
  - cbn [fold_left chapters_step imap fold_right]. rewrite IH.
    rewrite append_assoc. f_equal.
    replace (k + Z.of_nat 0 + 1) with (k + 1) by lia. f_equal. f_equal.
    apply imap_ext. intros i x _. cbn. f_equal. lia.
Qed.

Lemma chapters_xml_documented F chapters :
  chapters_xml (nanoseconds F) chapters = chapters_documented F chapters.
Proof.
  unfold chapters_xml, chapters_documented.
  rewrite fold_chapters, append_assoc. reflexivity.
Qed.

Lemma int_of_float64_whole (x : Q) (n : Z) :
  (x == inject_Z n)%Q -> int_of_float64 x = n.
Proof.
  unfold Qeq, int_of_float64. cbn [Qnum Qden inject_Z].
  rewrite Z.mul_1_r. intros ->. apply Z.quot_mul. discriminate.
Qed.

(** X27. [AddChapters] with [mkvpropedit] installed and no failing call
    returns [nil] after five calls: it creates the temporary file, writes
    the chapters into it, looks the program up, runs it on the video and
    that file, and removes the file.  When the program runs, the file
    holds the header, one [ChapterAtom] for each chapter in the order
    given, and the footer; the chapter at index [i] carries the UID
    [i+1], its own title, and its start and end as [int64(x * 1e9)], which
    is the exact number of nanoseconds whenever that is a whole number of
    magnitude at most 2^53. *)
Theorem AddChapters_writes_numbered_xml F mkvPath chapters m tool :
  chapters <> [] ->
  (forall op, m_fails m op = false) ->
  m_lookPath m "mkvpropedit" = Some tool ->
  let name := m_tempName m "chapters-*.xml" in
  let args := [mkvPath; "--chapters"; name] in
  let r := AddChapters (nanoseconds F) mkvPath chapters m in
  r.1 = None /\
  m_log r.2
  = (m_log m ++ [SysCreateTemp "chapters-*.xml"; SysWriteString name;
                 SysLookPath "mkvpropedit"; SysRun tool args;
                 SysRemove name])%list /\
  m_files r.2
  = delete name
      (m_exec m tool args
         (<[name := chapters_documented F chapters]> (m_files m))) /\
  (forall (x : Q) (n : Z),
     (x * 1000000000 == inject_Z n)%Q -> Z.abs n <= 2 ^ 53 ->
     nanoseconds F x = n).
Proof.
  intros Hne Hok Htool. cbv zeta. split; [|split; [|split]].
  4: { intros x n Hx Hn. unfold nanoseconds.
       apply int_of_float64_whole, fmul_exact; assumption. }
  all: unfold AddChapters;
    destruct chapters as [|c0 chapters']; [contradiction|];
    change (length (c0 :: chapters') =? 0)%nat with false; cbv iota;
    rewrite chapters_xml_documented;
    unfold sys_CreateTemp, sys_WriteString, sys_LookPath, sys_Run;
    repeat (progress
              (rewrite ?Hok, ?Htool;
               cbn [sys_issue m_files m_fails m_torn m_lookPath m_tempName
                    m_exec m_log fst snd negb])).
  1: reflexivity.
  all: rewrite insert_insert_eq;
    unfold sys_Remove;
    cbn [sys_issue m_files m_fails m_log];
    match goal with
    | |- context [m_exec ?m0 ?t0 ?a ?f !! ?n] =>
        destruct (m_exec m0 t0 a f !! n) as [t|] eqn:Ht
    end;
    rewrite ?Hok;
    cbn [sys_issue m_files m_log fst snd].
  - now rewrite <- !app_assoc.
  - now rewrite <- !app_assoc.
  - reflexivity.
  - symmetry. now apply delete_id.
Qed.

Lemma AddChapters_writes_numbered_xml_witness :
  let chapters := [{| ch_Title := "Intro"; ch_StartTime := 0%Q;
                      ch_EndTime := (3 # 2)%Q |}] in
  let m := mkvMachine {[ "/music/a.mkv" := "<video>" ]} in
  let name := m_tempName m "chapters-*.xml" in
  let args := ["/music/a.mkv"; "--chapters"; name] in
  let r := AddChapters (nanoseconds exactMul) "/music/a.mkv" chapters m in
  r.1 = None /\
  m_log r.2
  = (m_log m ++ [SysCreateTemp "chapters-*.xml"; SysWriteString name;
                 SysLookPath "mkvpropedit";
                 SysRun "/usr/bin/mkvpropedit" args;
                 SysRemove name])%list /\
  m_files r.2
  = delete name
      (m_exec m "/usr/bin/mkvpropedit" args
         (<[name := chapters_documented exactMul chapters]> (m_files m))) /\
  (forall (x : Q) (n : Z),
     (x * 1000000000 == inject_Z n)%Q -> Z.abs n <= 2 ^ 53 ->
     nanoseconds exactMul x = n).
Proof.
  intros chapters m.
  apply (AddChapters_writes_numbered_xml exactMul "/music/a.mkv" chapters m
           "/usr/bin/mkvpropedit").
  - discriminate.
  - reflexivity.
  - reflexivity.
Defined.

(* ===================================================================== *)
(** * The queue item in the user interface *)
(* ===================================================================== *)

(** X28. The user interface and the queue agree on the nine statuses: the
    component treats an item as processing (progress bar, Cancel button)
    exactly when its status is one of the five in-flight statuses that
    [GetStats] counts as active.  Cancel and Remove are never offered
    together, and a pending item is the one for which neither is offered.
    A status outside the nine is shown with the badge "Unknown", and only
    such a status is; the component treats it as processing, although
    [GetStats] counts it nowhere. *)
Theorem QueueItem_status_views (status : string) :
  (is_defined status = true -> isProcessing status = in_flight status) /\
  isProcessing status && showsRemove status = false /\
  (isProcessing status || showsRemove status = false
   <-> status = StatusPending) /\
  ((getStatusBadge status).1 = "Unknown" <-> is_defined status = false) /\
  (is_defined status = false -> isProcessing status = true).
Proof.
  unfold isProcessing, showsRemove, getStatusBadge, is_defined, in_flight,
    defined_statuses, StatusPending, StatusFetchingInfo,
    StatusDownloadingVideo, StatusDownloadingAudio, StatusMuxing,
    StatusOrganizing, StatusComplete, StatusError, StatusCancelled.
  cbn [existsb].
  destruct (String.eqb_spec status "pending") as [->|H1];
    [cbn; intuition congruence|].
  destruct (String.eqb_spec status "fetching_info") as [->|H2];
    [cbn; intuition congruence|].
  destruct (String.eqb_spec status "downloading_video") as [->|H3];
    [cbn; intuition congruence|].
  destruct (String.eqb_spec status "downloading_audio") as [->|H4];
    [cbn; intuition congruence|].
  destruct (String.eqb_spec status "muxing") as [->|H5];
    [cbn; intuition congruence|].
  destruct (String.eqb_spec status "organizing") as [->|H6];
    [cbn; intuition congruence|].
  destruct (String.eqb_spec status "complete") as [->|H7];
    [cbn; intuition congruence|].
  destruct (String.eqb_spec status "error") as [->|H8];
    [cbn; intuition congruence|].
  destruct (String.eqb_spec status "cancelled") as [->|H9];
    [cbn; intuition congruence|].
  cbn. intuition congruence.
Qed.

Lemma QueueItem_status_views_witness :
  isProcessing "muxing" = in_flight "muxing".
Proof.
  apply (proj1 (QueueItem_status_views "muxing")). reflexivity.
Defined.

(* ===================================================================== *)
(** * Periodic saving *)
(* ===================================================================== *)

Lemma save_all_refuses P J ticks fs :
  fs_refuses (save_all P J ticks fs) = fs_refuses fs.
Proof.
  unfold save_all. revert fs.
  induction ticks as [|[q now] rest IH]; intros fs; [reflexivity|].
  cbn [fold_left fst snd]. rewrite IH.
  unfold SaveQueue, os_MkdirAll, os_WriteFile.
  destruct (MarshalIndent J _); [|reflexivity].
  destruct (fs_refuses fs (OpMkdirAll _)); [reflexivity|].
  cbn [fs_issue fs_refuses].
  destruct (fs_refuses fs (OpWriteFile _ _)); reflexivity.
Qed.

(** X29. The goroutine of [AutoSave] saves the queue at every tick and once
    more when the context is cancelled, and then returns: later wake-ups are
    not served.  It drops the result of every save, so a save that fails
    neither stops it nor is reported; if the last save goes through, the
    queue file holds the state of the queue at shutdown, whatever happened
    to the saves before. *)
Theorem AutoSave_final_save P J ticks q now later fs :
  let wakeups :=
    (map (fun t : Queue * Z => (WakeTick, t.1, t.2)) ticks
     ++ (WakeDone, q, now) :: later)%list in
  let r := AutoSave P J wakeups fs in
  r = (true, (SaveQueue P J now q (save_all P J ticks fs)).2) /\
  forall data,
    MarshalIndent J {| qs_Items := items q; qs_UpdatedAt := now |}
    = Some data ->
    fs_refuses fs (OpMkdirAll (Dir P (GetQueueFilePath P))) = false ->
    fs_refuses fs (OpWriteFile (GetQueueFilePath P) data) = false ->
    fs_files r.2 !! GetQueueFilePath P = Some data.
Proof.
  cbv zeta.
  assert (E : AutoSave P J
                (map (fun t : Queue * Z => (WakeTick, t.1, t.2)) ticks
                 ++ (WakeDone, q, now) :: later)%list fs
              = (true, (SaveQueue P J now q (save_all P J ticks fs)).2)).
  { unfold save_all. revert fs.
    induction ticks as [|[q' now'] rest IH]; intros fs; [reflexivity|].
    cbn [map app AutoSave fold_left fst snd]. apply IH. }
  rewrite E. split; [reflexivity|].
  intros data Hm Hd Hw. cbn [snd].
  unfold SaveQueue, os_MkdirAll, os_WriteFile. rewrite Hm.
  rewrite save_all_refuses, Hd. cbn [fs_issue fs_refuses fs_files].
  rewrite save_all_refuses, Hw. cbn [snd fs_issue fs_files].
  apply lookup_insert_eq.
Qed.

Lemma AutoSave_final_save_witness :
  let q1 := set_items [demoItem "a" StatusMuxing] emptyQueue in
  let q2 := set_items [demoItem "a" StatusComplete] emptyQueue in
  let r := AutoSave demoPaths (demoCodec [])
             (map (fun t : Queue * Z => (WakeTick, t.1, t.2)) [(q1, 10)]
              ++ (WakeDone, q2, 20) :: [(WakeTick, q1, 30)])%list
             (demoDisk ∅) in
  fs_files r.2 !! GetQueueFilePath demoPaths = Some "<queue>".
Proof.
  intros q1 q2.
  apply (proj2 (AutoSave_final_save demoPaths (demoCodec []) [(q1, 10)]
                  q2 20 [(WakeTick, q1, 30)] (demoDisk ∅)) "<queue>").
  - reflexivity.
  - reflexivity.
  - reflexivity.
Defined.
